(** * Verification of the reconciliation core of the ElBarcoDeSabetOnline add-on

    Shallow embedding of [core.py] (class [CoreAddon]) and the properties
    of its schedule parser, stream extractor, reconciler, cache store and
    acquisition pipeline.

    Python [str] values are modelled as [string]; a character stands for a
    code point below 256.  Python lists are lists, the [enlaces] dictionary
    of [extract_program_links] is a [gmap], the [seen_events] set of
    [get_tv_programs] is a [gset].  The library calls the core relies on
    ([str] methods, [re.findall] with the one pattern of the file,
    [difflib.get_close_matches], [json.dump] and [json.load]) are modelled
    as executable functions; the network, the clock and the file system
    are an explicit outside.  The catalogue that [fetch_channels] loads
    is the field [channels].  The listings, the update and the export of
    [default.py] (class [KodiAddonWrapper]) are embedded on top of the
    core. *)

From Stdlib Require Import Ascii.
From stdpp Require Import base gmap strings list.

(** ** Python string primitives used by [core.py] *)

Module Py.

(** [str.isspace] restricted to code points below 256: TAB..CR, FS..US,
    SPACE, NEL and NBSP. *)
Definition isspace (c : ascii) : bool :=
  let n := nat_of_ascii c in
  ((9 <=? n) && (n <=? 13)) || ((28 <=? n) && (n <=? 32))
  || (n =? 133) || (n =? 160).

Fixpoint lstrip (s : string) : string :=
  match s with
  | EmptyString => EmptyString
  | String c s' => if isspace c then lstrip s' else s
  end.

Fixpoint rstrip (s : string) : string :=
  match s with
  | EmptyString => EmptyString
  | String c s' =>
      match rstrip s' with
      | EmptyString => if isspace c then EmptyString else String c EmptyString
      | r => String c r
      end
  end.

(** [s.strip()] *)
Definition strip (s : string) : string := rstrip (lstrip s).

(** [s.startswith(p)] *)
Fixpoint startswith (p s : string) : bool :=
  match p, s with
  | EmptyString, _ => true
  | String _ _, EmptyString => false
  | String a p', String b s' => if Ascii.eqb a b then startswith p' s' else false
  end.

(** [s[n:]] *)
Fixpoint drop (n : nat) (s : string) : string :=
  match n, s with
  | 0, _ => s
  | S _, EmptyString => EmptyString
  | S k, String _ s' => drop k s'
  end.

(** [s.replace(old, new)] for a non-empty [old]: the occurrences of [old]
    are found left to right without overlap.  [skip] counts the
    characters of the occurrence being replaced that are still to pass. *)
Fixpoint replace_from (old new : string) (skip : nat) (s : string) : string :=
  match s with
  | EmptyString => EmptyString
  | String c s' =>
      match skip with
      | S k => replace_from old new k s'
      | 0 =>
          if startswith old s
          then new +:+ replace_from old new (String.length old - 1) s'
          else String c (replace_from old new 0 s')
      end
  end.

Definition replace (old new s : string) : string := replace_from old new 0 s.

(** [s.split(sep)] for a non-empty [sep]; [cur] is the piece being read. *)
Fixpoint split_from (sep : string) (skip : nat) (cur : string) (s : string)
  : list string :=
  match s with
  | EmptyString => [cur]
  | String c s' =>
      match skip with
      | S k => split_from sep k cur s'
      | 0 =>
          if startswith sep s
          then cur :: split_from sep (String.length sep - 1) EmptyString s'
          else split_from sep 0 (cur +:+ String c EmptyString) s'
      end
  end.

Definition split (sep s : string) : list string :=
  split_from sep 0 EmptyString s.

(** [old in s] *)
Fixpoint occurs (old s : string) : bool :=
  startswith old s ||
  match s with
  | EmptyString => false
  | String _ s' => occurs old s'
  end.

(** [s[-n:]] for [n > 0] *)
Definition last_chars (n : nat) (s : string) : string :=
  drop (String.length s - n) s.

(** [x in l] for a list of strings *)
Definition contains (x : string) (l : list string) : bool :=
  bool_decide (x ∈ l).

(** Truth value of a [str]: the empty string is false. *)
Definition truthy (s : string) : bool :=
  match s with EmptyString => false | String _ _ => true end.

(** Truth value of an [Optional[str]]: [None] and the empty string are
    false. *)
Definition truthy_opt (o : option string) : bool :=
  match o with None => false | Some s => truthy s end.

End Py.

(** ** The one regular expression of [core.py]

    [re.findall] with the pattern of [extract_program_links] and
    [extract_channel_links]: the literal [<a href=], a double quote, group 1
    made of [acestream://] and one or more characters other than a double
    quote, a double quote, any characters other than [>], then [>], group 2
    a lazy run of characters other than a newline, and the literal [</a>]. *)

Module Re.

Definition dquote : ascii := "034"%char.

(** The literal text that opens a match (21 characters). *)
Definition anchor_open : string :=
  "<a href=" +:+ String dquote "acestream://".

(** Longest prefix of characters satisfying [p], and the rest. *)
Fixpoint span (p : ascii -> bool) (s : string) : string * string :=
  match s with
  | EmptyString => (EmptyString, EmptyString)
  | String c s' =>
      if p c then let '(a, b) := span p s' in (String c a, b)
      else (EmptyString, s)
  end.

(** [(.*?)</a>]: the shortest run of characters other than a newline that
    is followed by [</a>]. *)
Fixpoint lazy_until_close (s : string) : option (string * string) :=
  if Py.startswith "</a>" s then Some (EmptyString, Py.drop 4 s)
  else
    match s with
    | EmptyString => None
    | String c s' =>
        if Ascii.eqb c "010"%char then None
        else
          match lazy_until_close s' with
          | Some (t, rest) => Some (String c t, rest)
          | None => None
          end
    end.

Definition not_quote (c : ascii) : bool := negb (Ascii.eqb c dquote).
Definition not_gt (c : ascii) : bool := negb (Ascii.eqb c ">"%char).

(** One attempt to match the pattern at the head of [s]: the two groups
    and the text after the match.  Each greedy class is followed by the
    one character it excludes, so the engine has nothing to backtrack to. *)
Definition match_here (s : string) : option (string * string * string) :=
  if Py.startswith anchor_open s then
    let '(ident, r1) := span not_quote (Py.drop 21 s) in
    match ident, r1 with
    | String _ _, String _ r2 =>
        let '(_, r3) := span not_gt r2 in
        match r3 with
        | String _ r4 =>
            match lazy_until_close r4 with
            | Some (titulo, rest) => Some ("acestream://" +:+ ident, titulo, rest)
            | None => None
            end
        | EmptyString => None
        end
    | _, _ => None
    end
  else None.

(** Scan from left to right; after a match, resume behind it.  [fuel]
    bounds the number of scan positions; one more than the length of the
    page is enough (lemma [findall_fuel_enough]). *)
Fixpoint findall_fuel (fuel : nat) (s : string) : list (string * string) :=
  match fuel with
  | 0 => []
  | S f =>
      match match_here s with
      | Some (enlace, titulo, rest) => (enlace, titulo) :: findall_fuel f rest
      | None =>
          match s with
          | EmptyString => []
          | String _ s' => findall_fuel f s'
          end
      end
  end.

Definition findall (html : string) : list (string * string) :=
  findall_fuel (S (String.length html)) html.

End Re.

(** ** [difflib.get_close_matches], as [find_closest_channel] calls it

    The standard library's [SequenceMatcher] with [isjunk=None] and
    [autojunk=True]; sequence [a] is the candidate, sequence [b] the word.
    Scores are the float [2.0*matches/length] in Python; here they are the
    exact fractions, which compare the same way against the cutoff 0.5 and,
    for sequences of fewer than 2^26 elements, against each other. *)

Module Difflib.

Definition score : Type := (nat * nat)%type.

(** [_calculate_ratio(matches, length)]: the fraction [2*matches/length],
    or 1 when [length] is 0. *)
Definition calculate_ratio (matches length : nat) : score :=
  if length =? 0 then (1, 1) else (2 * matches, length).

(** [s1 < s2] and [s1 >= cutoff] on fractions with positive denominators. *)
Definition score_ltb (s1 s2 : score) : bool := s1.1 * s2.2 <? s2.1 * s1.2.
Definition score_eqb (s1 s2 : score) : bool := s1.1 * s2.2 =? s2.1 * s1.2.
Definition at_least_half (s : score) : bool := s.2 <=? 2 * s.1.

Section Matcher.
Variables a b : list ascii.

Definition at_a (i : nat) : ascii := nth i a Ascii.zero.
Definition at_b (j : nat) : ascii := nth j b Ascii.zero.

(** [bjunk] is empty because [isjunk] is [None]. *)
Definition isbjunk (_ : ascii) : bool := false.

(** [bpopular]: when [b] has 200 elements or more, the elements that
    occur more than [n // 100 + 1] times lose their [b2j] entry. *)
Definition bpopular (x : ascii) : bool :=
  (200 <=? length b) && (length b / 100 + 1 <? count_occ ascii_dec b x).

(** [j in b2j.get(x, [])] *)
Definition in_b2j (x : ascii) (j : nat) : bool :=
  negb (isbjunk x) && negb (bpopular x) &&
  bool_decide (b !! j = Some x).

(** One pass of the outer loop of [find_longest_match]: [newj2len] for
    row [i], as the list of its values at [j = 0, 1, ...] (0 where the
    key is absent). *)
Definition newj2len (i blo bhi : nat) (j2len : list nat) : list nat :=
  imap (λ j _,
          if in_b2j (at_a i) j && (blo <=? j) && (j <? bhi)
          then S (match j with 0 => 0 | S j' => nth j' j2len 0 end)
          else 0) b.

Definition better (i : nat) (best : nat * nat * nat) (jk : nat * nat)
  : nat * nat * nat :=
  let '(j, k) := jk in
  if best.2 <? k then (i + 1 - k, j + 1 - k, k) else best.

Fixpoint longest_rows (rows : list nat) (blo bhi : nat) (j2len : list nat)
    (best : nat * nat * nat) : nat * nat * nat :=
  match rows with
  | [] => best
  | i :: rows' =>
      let row := newj2len i blo bhi j2len in
      longest_rows rows' blo bhi row (foldl (better i) best (imap pair row))
  end.

(** The two pairs of [while] loops that extend the best block, first over
    non-junk then over junk elements. *)
Fixpoint extend_left (junk : bool) (alo blo fuel : nat)
    (m : nat * nat * nat) : nat * nat * nat :=
  match fuel with
  | 0 => m
  | S f =>
      let '(besti, bestj, bestsize) := m in
      if (alo <? besti) && (blo <? bestj)
         && Bool.eqb (isbjunk (at_b (bestj - 1))) junk
         && Ascii.eqb (at_a (besti - 1)) (at_b (bestj - 1))
      then extend_left junk alo blo f (besti - 1, bestj - 1, bestsize + 1)
      else m
  end.

Fixpoint extend_right (junk : bool) (ahi bhi fuel : nat)
    (m : nat * nat * nat) : nat * nat * nat :=
  match fuel with
  | 0 => m
  | S f =>
      let '(besti, bestj, bestsize) := m in
      if (besti + bestsize <? ahi) && (bestj + bestsize <? bhi)
         && Bool.eqb (isbjunk (at_b (bestj + bestsize))) junk
         && Ascii.eqb (at_a (besti + bestsize)) (at_b (bestj + bestsize))
      then extend_right junk ahi bhi f (besti, bestj, bestsize + 1)
      else m
  end.

Definition find_longest_match (alo ahi blo bhi : nat) : nat * nat * nat :=
  let m0 := longest_rows (seq alo (ahi - alo)) blo bhi [] (alo, blo, 0) in
  let m1 := extend_left false alo blo (length a) m0 in
  let m2 := extend_right false ahi bhi (length a) m1 in
  let m3 := extend_left true alo blo (length a) m2 in
  extend_right true ahi bhi (length a) m3.

(** Sum of the sizes of the blocks that [get_matching_blocks] collects:
    the longest match of the window, then the windows left and right of
    it.  The order in which the queue is served does not change the
    sum.  [fuel] bounds the depth of the recursion, in which the window of
    [a] shrinks at every level. *)
Fixpoint matches_in (fuel alo ahi blo bhi : nat) : nat :=
  match fuel with
  | 0 => 0
  | S f =>
      let '(i, j, k) := find_longest_match alo ahi blo bhi in
      if k =? 0 then 0
      else
        k + (if (alo <? i) && (blo <? j) then matches_in f alo i blo j else 0)
          + (if (i + k <? ahi) && (j + k <? bhi)
             then matches_in f (i + k) ahi (j + k) bhi else 0)
  end.

Definition ratio : score :=
  calculate_ratio
    (matches_in (S (length a)) 0 (length a) 0 (length b))
    (length a + length b).

(** [quick_ratio]: [fullbcount] counts the elements of [b]; [avail] is
    the dictionary of what is left of them while [a] is read. *)
Definition fullbcount (x : ascii) : Z := Z.of_nat (count_occ ascii_dec b x).

Definition quick_step (st : gmap ascii Z * nat) (elt : ascii)
  : gmap ascii Z * nat :=
  let '(avail, matches) := st in
  let numb := match avail !! elt with
              | Some v => v
              | None => fullbcount elt
              end in
  (<[elt := (numb - 1)%Z]> avail,
   if (0 <? numb)%Z then matches + 1 else matches).

Definition quick_ratio : score :=
  calculate_ratio (foldl quick_step (∅, 0) a).2 (length a + length b).

Definition real_quick_ratio : score :=
  calculate_ratio (length a `min` length b) (length a + length b).

End Matcher.

(** The test of [get_close_matches] with [cutoff=0.5]. *)
Definition close_enough (word x : string) : bool :=
  let a := String.list_ascii_of_string x in
  let b := String.list_ascii_of_string word in
  at_least_half (real_quick_ratio a b)
  && at_least_half (quick_ratio a b)
  && at_least_half (ratio a b).

Definition scored (word x : string) : score * string :=
  (ratio (String.list_ascii_of_string x) (String.list_ascii_of_string word), x).

(** Order of the tuples [(score, x)]. *)
Definition tuple_ltb (p q : score * string) : bool :=
  score_ltb p.1 q.1 || (score_eqb p.1 q.1 && String.ltb p.2 q.2).

(** [heapq.nlargest(1, result)] is [max(result)]: the first greatest
    tuple, or nothing for an empty list. *)
Definition nlargest1 (result : list (score * string)) : list (score * string) :=
  match result with
  | [] => []
  | p :: rest => [foldl (λ m q, if tuple_ltb m q then q else m) p rest]
  end.

(** [get_close_matches(word, possibilities, n=1, cutoff=0.5)] *)
Definition get_close_matches (word : string) (possibilities : list string)
  : list string :=
  let result := scored word <$> filter (λ x, close_enough word x = true) possibilities in
  snd <$> nlargest1 result.

End Difflib.

(** ** Data model of [core.py] *)

Record Channel := { nombre : string; tvg_id : string; logo : string }.

Record Event := {
  day : string;
  time : string;
  event : string;
  channel : string;
  sport : string
}.

(** The schedule page as BeautifulSoup hands it to [get_tv_programs]: the
    [li.content-item] blocks, each with the text of its first
    [span.title-section-widget] and its [li.dailyevent] rows; a row holds
    the text of its first [strong.dailyhour], [h4.dailyteams],
    [span.dailychannel] and [span.dailyday], [None] where the tag is
    missing. *)
Record EventRow := {
  dailyhour : option string;
  dailyteams : option string;
  dailychannel : option string;
  dailyday : option string
}.

Record DaySection := {
  title_section_widget : option string;
  dailyevents : list EventRow
}.

(** The object [self] of the methods. *)
Record CoreAddon := {
  addon_dir : string;
  cache_file : string;
  channels : list Channel;
  tv_programs : list Event
}.

(** ** ScheduleScraper: [get_tv_programs] *)

(** [tag.text.strip() if tag else "N/A"] *)
Definition text_or_na (tag : option string) : string :=
  match tag with
  | Some text => Py.strip text
  | None => "N/A"
  end.

Definition event_id (e : Event) : string * string * string * string :=
  (day e, time e, event e, channel e).

(** Body of the inner loop: one [li.dailyevent] row of the block of [d]. *)
Definition add_event (d : string)
    (st : list Event * gset (string * string * string * string))
    (row : EventRow) : list Event * gset (string * string * string * string) :=
  let '(events_data, seen_events) := st in
  let time_text := text_or_na (dailyhour row) in
  let event_name := text_or_na (dailyteams row) in
  let chan := text_or_na (dailychannel row) in
  let sp := text_or_na (dailyday row) in
  let id := (d, time_text, event_name, chan) in
  if decide (id ∉ seen_events)
  then (events_data ++ [Build_Event d time_text event_name chan sp],
        seen_events ∪ {[ id ]})
  else st.

(** Body of the outer loop: one day block; a block without a day title is
    passed over. *)
Definition add_day_section
    (st : list Event * gset (string * string * string * string))
    (day_section : DaySection)
  : list Event * gset (string * string * string * string) :=
  match title_section_widget day_section with
  | None => st
  | Some day_span => foldl (add_event (Py.strip day_span)) st (dailyevents day_section)
  end.

(** The parse of a page that was fetched: the first block is dropped. *)
Definition parse_tv_programs (day_sections : list DaySection) : list Event :=
  (foldl add_day_section ([], ∅) (drop 1 day_sections)).1.

(** [get_tv_programs]: [None] stands for a request that raised
    [RequestException]. *)
Definition get_tv_programs (page : option (list DaySection)) : list Event :=
  match page with
  | Some day_sections => parse_tv_programs day_sections
  | None => []
  end.

(** ** Reconciler: [find_closest_channel] and [extract_program_links] *)

Definition find_closest_channel (channel_name : string)
    (channels_names : list string) : option string :=
  match Difflib.get_close_matches channel_name channels_names with
  | m :: _ => Some m
  | [] => None
  end.

(** [enlace.replace("acestream://", "plugin://script.module.horus?action=play&id=")] *)
Definition nuevo_enlace (enlace : string) : string :=
  Py.replace "acestream://" "plugin://script.module.horus?action=play&id=" enlace.

(** First loop of [extract_program_links]: the dictionary [enlaces] and the
    list [titulos]. *)
Definition index_anchor (st : gmap string string * list string)
    (p : string * string) : gmap string string * list string :=
  let '(enlaces, titulos) := st in
  let '(enlace, titulo) := p in
  (<[Py.strip titulo := nuevo_enlace enlace]> enlaces,
   titulos ++ [Py.strip titulo]).

Definition index_anchors (patrones : list (string * string))
  : gmap string string * list string :=
  foldl index_anchor (∅, []) patrones.

(** [title.replace("720", "").replace("1080", "")] *)
Definition without_quality (title : string) : string :=
  Py.replace "1080" EmptyString (Py.replace "720" EmptyString title).

Definition titulos_without_quality (titulos : list string) : list string :=
  without_quality <$> titulos.

(** The f-strings of the loop. *)
Definition date_comment (d : string) : string := "# " +:+ d.

Definition playable_title (program : Event) (tvg : string) : string :=
  sport program +:+ " " +:+ time program +:+ " " +:+ event program
    +:+ " (" +:+ tvg +:+ ")".

Definition no_match_link (program : Event) : string :=
  "# No matching channel for " +:+ event program
    +:+ ", this was the channel: " +:+ channel program.

Definition no_match_title (program : Event) : string :=
  sport program +:+ " " +:+ time program +:+ " " +:+ event program
    +:+ " - No match for " +:+ channel program.

(** The variables the main loop of [extract_program_links] updates. *)
Record Recon := {
  new_enlaces : list string;
  new_titulos : list string;
  last_date : option string
}.

Section Reconcile.
(** The dictionary and the title list of the first loop. *)
Variable enlaces : gmap string string.
Variable titulos : list string.

(** [enlaces[k]]; every key the loop reads is in [titulos], hence in the
    dictionary (lemma [index_anchors_listed]), so no [KeyError] arises. *)
Definition enlace_of (k : string) : string := default EmptyString (enlaces !! k).

(** Lines 235-238: the date comment. *)
Definition mark_day (st : Recon) (program : Event) : Recon :=
  if decide (Some (day program) ≠ last_date st)
  then {| new_enlaces := new_enlaces st ++ [date_comment (day program)];
          new_titulos := new_titulos st ++ [date_comment (day program)];
          last_date := Some (day program) |}
  else st.

(** Lines 239-245. *)
Definition closest_tvg_id (program : Event) : option string :=
  if decide (channel program = "Movistar Plus+")
  then Some "M.Plus 1080"
  else find_closest_channel (channel program) (titulos_without_quality titulos).

(** Lines 248-255: one turn of [for quality in ["720", "1080"]]. *)
Definition try_quality (program : Event) (closest : string)
    (acc : list string * list string * bool) (quality : string)
  : list string * list string * bool :=
  let '(ne, nt, found) := acc in
  if Py.contains (closest +:+ quality) titulos
  then (ne ++ [enlace_of (closest +:+ quality)],
        nt ++ [playable_title program (closest +:+ quality)],
        true)
  else acc.

(** Lines 256-261. *)
Definition try_plain (program : Event) (closest : string)
    (acc : list string * list string * bool)
  : list string * list string * bool :=
  let '(ne, nt, found) := acc in
  if Py.contains closest titulos
  then (ne ++ [enlace_of closest], nt ++ [playable_title program closest], true)
  else acc.

(** Lines 262-264. *)
Definition report_no_match (program : Event)
    (acc : list string * list string * bool)
  : list string * list string * bool :=
  let '(ne, nt, found) := acc in
  if negb found
  then (ne ++ [no_match_link program], nt ++ [no_match_title program], found)
  else acc.

(** Lines 246-264: everything under [if closest_tvg_id:]. *)
Definition resolve (program : Event) (st : Recon) : Recon :=
  let found := false in
  match closest_tvg_id program with
  | Some closest =>
      if Py.truthy closest then
        let acc := foldl (try_quality program closest)
                         (new_enlaces st, new_titulos st, found)
                         ["720"; "1080"] in
        let acc := try_plain program closest acc in
        let '(ne, nt, _) := report_no_match program acc in
        {| new_enlaces := ne; new_titulos := nt; last_date := last_date st |}
      else st
  | None => st
  end.

(** Body of [for program in self.tv_programs]. *)
Definition reconcile_program (st : Recon) (program : Event) : Recon :=
  resolve program (mark_day st program).

Definition reconcile (programs : list Event) : Recon :=
  foldl reconcile_program
        {| new_enlaces := []; new_titulos := []; last_date := None |}
        programs.

End Reconcile.

Definition extract_program_links (self : CoreAddon) (html : string)
  : list string * list string :=
  let '(enlaces, titulos) := index_anchors (Re.findall html) in
  let r := reconcile enlaces titulos (tv_programs self) in
  (new_enlaces r, new_titulos r).

(** ** StreamExtractor: [extract_channel_links] *)

(** [enlace.split("://")[1][-4:]]; the pattern makes every [enlace] start
    with [acestream://], so the split has a second piece (lemmas
    [findall_enlace] and [split_enlace]) and no [IndexError] arises. *)
Definition ultimos_digitos (enlace : string) : string :=
  Py.last_chars 4 (nth 1 (Py.split "://" enlace) EmptyString).

Definition add_channel (st : list string * list string) (p : string * string)
  : list string * list string :=
  let '(enlaces, titulos) := st in
  let '(enlace, titulo) := p in
  (enlaces ++ [nuevo_enlace enlace],
   titulos ++ [Py.strip titulo +:+ " " +:+ ultimos_digitos enlace]).

Definition extract_channel_links (html : string) : list string * list string :=
  foldl add_channel ([], []) (Re.findall html).

(** ** CacheStore: the JSON text of the cache file

    [json.dump(data, f, ensure_ascii=False, indent=4)] and [json.load(f)]
    on the documents the add-on stores: an object whose values are strings
    or arrays of strings.  A dictionary is the list of its items in
    insertion order.  The writer threads the text that follows ([k]) so
    that the output is built front to back.  Texts outside this fragment
    (numbers, literals, nested values) are not modelled: [loads] gives
    [None] for them. *)

Module Json.

Inductive value :=
| Str (s : string)
| Arr (items : list string).

Definition dict : Type := list (string * value).

Definition dquote : ascii := "034"%char.
Definition backslash : ascii := "092"%char.

Definition hex_digit (n : nat) : ascii :=
  nth n (String.list_ascii_of_string "0123456789abcdef") "0"%char.

(** [ESCAPE_DCT]: the short escapes, [\u00xx] for the other control
    characters, everything else as it is. *)
Definition escape_char (c : ascii) (k : string) : string :=
  if Ascii.eqb c dquote then String backslash (String dquote k)
  else if Ascii.eqb c backslash then String backslash (String backslash k)
  else if Ascii.eqb c "008"%char then String backslash (String "b" k)
  else if Ascii.eqb c "012"%char then String backslash (String "f" k)
  else if Ascii.eqb c "010"%char then String backslash (String "n" k)
  else if Ascii.eqb c "013"%char then String backslash (String "r" k)
  else if Ascii.eqb c "009"%char then String backslash (String "t" k)
  else if nat_of_ascii c <? 32
       then String backslash (String "u" (String "0" (String "0"
              (String (hex_digit (nat_of_ascii c / 16))
                 (String (hex_digit (nat_of_ascii c mod 16)) k)))))
  else String c k.

Fixpoint escape (s : string) (k : string) : string :=
  match s with
  | EmptyString => k
  | String c s' => escape_char c (escape s' k)
  end.

(** [py_encode_basestring] *)
Definition dump_string (s : string) (k : string) : string :=
  String dquote (escape s (String dquote k)).

(** A line break and [4 * level] spaces. *)
Fixpoint spaces (n : nat) (k : string) : string :=
  match n with
  | 0 => k
  | S n' => String " " (spaces n' k)
  end.

Definition newline_indent (level : nat) (k : string) : string :=
  String "010" (spaces (4 * level) k).

Fixpoint dump_items (level : nat) (items : list string) (k : string) : string :=
  match items with
  | [] => k
  | [x] => dump_string x k
  | x :: rest =>
      dump_string x (String "," (newline_indent level (dump_items level rest k)))
  end.

Definition dump_value (level : nat) (v : value) (k : string) : string :=
  match v with
  | Str s => dump_string s k
  | Arr [] => String "[" (String "]" k)
  | Arr items =>
      String "[" (newline_indent (S level)
        (dump_items (S level) items (newline_indent level (String "]" k))))
  end.

Definition dump_member (level : nat) (kv : string * value) (k : string) : string :=
  dump_string kv.1 (String ":" (String " " (dump_value level kv.2 k))).

Fixpoint dump_members (level : nat) (d : dict) (k : string) : string :=
  match d with
  | [] => k
  | [kv] => dump_member level kv k
  | kv :: rest =>
      dump_member level kv
        (String "," (newline_indent level (dump_members level rest k)))
  end.

(** [json.dumps(data, ensure_ascii=False, indent=4)] *)
Definition dumps (d : dict) : string :=
  match d with
  | [] => "{}"
  | _ => String "{" (newline_indent 1
           (dump_members 1 d (newline_indent 0 "}")))
  end.

(** *** The decoder *)

Definition hex_value (c : ascii) : option nat :=
  let n := nat_of_ascii c in
  if (48 <=? n) && (n <=? 57) then Some (n - 48)
  else if (97 <=? n) && (n <=? 102) then Some (n - 87)
  else if (65 <=? n) && (n <=? 70) then Some (n - 55)
  else None.

(** [BACKSLASH]: the character a short escape stands for. *)
Definition unescape (e : ascii) : option ascii :=
  if Ascii.eqb e dquote then Some dquote
  else if Ascii.eqb e backslash then Some backslash
  else if Ascii.eqb e "/"%char then Some "/"%char
  else if Ascii.eqb e "b"%char then Some "008"%char
  else if Ascii.eqb e "f"%char then Some "012"%char
  else if Ascii.eqb e "n"%char then Some "010"%char
  else if Ascii.eqb e "r"%char then Some "013"%char
  else if Ascii.eqb e "t"%char then Some "009"%char
  else None.

Definition push (c : ascii) (r : option (string * string))
  : option (string * string) :=
  match r with
  | Some (t, rest) => Some (String c t, rest)
  | None => None
  end.

(** [py_scanstring] with [strict=True], from behind the opening quote:
    the decoded string and the text behind the closing quote.  An escape
    [\uXXXX] of a code point of 256 or more is outside the model. *)
Fixpoint scanstring (s : string) : option (string * string) :=
  match s with
  | EmptyString => None
  | String c s1 =>
      if Ascii.eqb c dquote then Some (EmptyString, s1)
      else if Ascii.eqb c backslash then
        match s1 with
        | EmptyString => None
        | String e s2 =>
            if Ascii.eqb e "u"%char then
              match s2 with
              | String h1 (String h2 (String h3 (String h4 s3))) =>
                  match hex_value h1, hex_value h2, hex_value h3, hex_value h4 with
                  | Some a, Some b, Some c', Some d =>
                      let n := ((a * 16 + b) * 16 + c') * 16 + d in
                      if n <? 256 then push (ascii_of_nat n) (scanstring s3)
                      else None
                  | _, _, _, _ => None
                  end
              | _ => None
              end
            else
              match unescape e with
              | Some ch => push ch (scanstring s2)
              | None => None
              end
        end
      else if nat_of_ascii c <? 32 then None
      else push c (scanstring s1)
  end.

Definition is_ws (c : ascii) : bool :=
  Ascii.eqb c " "%char || Ascii.eqb c "009"%char
  || Ascii.eqb c "010"%char || Ascii.eqb c "013"%char.

Fixpoint skip_ws (s : string) : string :=
  match s with
  | EmptyString => EmptyString
  | String c s' => if is_ws c then skip_ws s' else s
  end.

(** The items of an array, from the first character of an item. *)
Fixpoint parse_items (fuel : nat) (s : string) : option (list string * string) :=
  match fuel, s with
  | S f, String c s1 =>
      if Ascii.eqb c dquote then
        match scanstring s1 with
        | Some (item, r) =>
            match skip_ws r with
            | String d r' =>
                if Ascii.eqb d ","%char then
                  match parse_items f (skip_ws r') with
                  | Some (l, r'') => Some (item :: l, r'')
                  | None => None
                  end
                else if Ascii.eqb d "]"%char then Some ([item], r')
                else None
            | EmptyString => None
            end
        | None => None
        end
      else None
  | _, _ => None
  end.

(** A value, from its first character. *)
Definition parse_value (fuel : nat) (s : string) : option (value * string) :=
  match s with
  | String c s1 =>
      if Ascii.eqb c dquote then
        match scanstring s1 with
        | Some (t, r) => Some (Str t, r)
        | None => None
        end
      else if Ascii.eqb c "["%char then
        match skip_ws s1 with
        | String d r as s2 =>
            if Ascii.eqb d "]"%char then Some (Arr [], r)
            else
              match parse_items fuel s2 with
              | Some (l, r') => Some (Arr l, r')
              | None => None
              end
        | EmptyString => None
        end
      else None
  | EmptyString => None
  end.

(** The members of an object, from the first character of a key. *)
Fixpoint parse_members (fuel : nat) (s : string)
  : option (list (string * value) * string) :=
  match fuel, s with
  | S f, String c s1 =>
      if Ascii.eqb c dquote then
        match scanstring s1 with
        | Some (key, r) =>
            match skip_ws r with
            | String colon r1 =>
                if Ascii.eqb colon ":"%char then
                  match parse_value f (skip_ws r1) with
                  | Some (v, r2) =>
                      match skip_ws r2 with
                      | String d r3 =>
                          if Ascii.eqb d ","%char then
                            match parse_members f (skip_ws r3) with
                            | Some (l, r4) => Some ((key, v) :: l, r4)
                            | None => None
                            end
                          else if Ascii.eqb d "}"%char then Some ([(key, v)], r3)
                          else None
                      | EmptyString => None
                      end
                  | None => None
                  end
                else None
            | EmptyString => None
            end
        | None => None
        end
      else None
  | _, _ => None
  end.

(** [d[key] = v] on a dictionary kept in insertion order. *)
Fixpoint dict_set (key : string) (v : value) (d : dict) : dict :=
  match d with
  | [] => [(key, v)]
  | (k', v') :: d' =>
      if decide (k' = key) then (k', v) :: d' else (k', v') :: dict_set key v d'
  end.

Definition dict_of_pairs (pairs : list (string * value)) : dict :=
  foldl (λ d kv, dict_set kv.1 kv.2 d) [] pairs.

(** [json.loads]: [None] stands for [JSONDecodeError]. *)
Definition loads (text : string) : option dict :=
  match skip_ws text with
  | String c s1 =>
      if Ascii.eqb c "{"%char then
        match skip_ws s1 with
        | String d r as s2 =>
            if Ascii.eqb d "}"%char then
              match skip_ws r with
              | EmptyString => Some []
              | _ => None
              end
            else
              match parse_members (String.length text) s2 with
              | Some (pairs, r') =>
                  match skip_ws r' with
                  | EmptyString => Some (dict_of_pairs pairs)
                  | _ => None
                  end
              | None => None
              end
        | EmptyString => None
        end
      else None
  | EmptyString => None
  end.

End Json.

(** ** CacheStore: [load_cache] and [save_cache] *)

(** The files of the host: the text of each existing file, and the paths
    on which [open] raises [IOError], for reading and for writing. *)
Record FileSystem := {
  files : gmap string string;
  read_denied : gset string;
  write_denied : gset string
}.

(** [load_cache]: a missing file, an [IOError] and a [JSONDecodeError] all
    give the empty dictionary. *)
Definition load_cache (self : CoreAddon) (fs : FileSystem) : Json.dict :=
  match files fs !! cache_file self with
  | Some text =>
      if decide (cache_file self ∈ read_denied fs) then []
      else
        match Json.loads text with
        | Some cache => cache
        | None => []
        end
  | None => []
  end.

(** [save_cache]: the file is overwritten; an [IOError] of [open] is logged
    and leaves the files as they were. *)
Definition save_cache (self : CoreAddon) (data : Json.dict) (fs : FileSystem)
  : FileSystem :=
  if decide (cache_file self ∈ write_denied fs) then fs
  else {| files := <[cache_file self := Json.dumps data]> (files fs);
          read_denied := read_denied fs;
          write_denied := write_denied fs |}.

(** The record [update_list] stores. *)
Record Snapshot := {
  enlaces_eventos : list string;
  titulos_eventos : list string;
  enlaces_canal : list string;
  titulos_canal : list string;
  origen : string;
  fecha : string
}.

(** The dictionary literal [cache_data]. *)
Definition cache_data (s : Snapshot) : Json.dict :=
  [ ("enlaces_eventos", Json.Arr (enlaces_eventos s));
    ("titulos_eventos", Json.Arr (titulos_eventos s));
    ("enlaces_canal", Json.Arr (enlaces_canal s));
    ("titulos_canal", Json.Arr (titulos_canal s));
    ("origen", Json.Str (origen s));
    ("fecha", Json.Str (fecha s)) ].

(** ** ProxyAcquirer: [fetch_proxies], [filter_asian_proxies],
    [get_web_content] and [update_list]

    A run threads the trace of what it has done to the outside and the
    files of the host.  The calls of [logger] are left out. *)

Definition URL_CANAL_JSON : string :=
  "https://raw.githubusercontent.com/ElBarcoDeSabeT/El-barco-de-sabeT-Online/main/canales.json".
Definition PROXIES_URL : string :=
  "https://api.proxyscrape.com/v4/free-proxy-list/get?request=display_proxies&proxy_format=protocolipport&format=json".

(** One entry of the proxy list, as the provider documents it: [proxy]
    and, when present and not empty, [ip_data] with its [continentCode]. *)
Record IpData := { continentCode : option string }.
Record ProxyEntry := { proxy : string; ip_data : option IpData }.

Definition filter_asian_proxies (proxies : list ProxyEntry) : list string :=
  foldl (λ proxies_asia p,
           match ip_data p with
           | Some d =>
               if decide (continentCode d = Some "AS")
               then proxies_asia ++ [proxy p]
               else proxies_asia
           | None => proxies_asia
           end) [] proxies.

(** What a run does to the outside, in the order it does it, each request
    with the answer it got. *)
Inductive Action :=
| UrlOpen (url : string) (answer : option (list ProxyEntry))
| RequestsGet (url : string) (proxies : option string) (answer : option string)
| Notification (heading message : string)
| Strftime (stamp : string).

(** The outside: its answers may depend on everything done so far.  [None]
    is an exception of the request ([RequestException], or any exception
    for the proxy list). *)
Record Outside := {
  urlopen_json : list Action → string → option (list ProxyEntry);
  requests_get : list Action → string → option string → option string;
  strftime : list Action → string
}.

Record World := { trace : list Action; disk : FileSystem }.

Definition IO (A : Type) : Type := World → A * World.

Global Instance IO_ret : MRet IO := λ A x w, (x, w).
Global Instance IO_bind : MBind IO :=
  λ A B f m w, let '(x, w') := m w in f x w'.

Definition perform (a : Action) : IO () :=
  λ w, ((), {| trace := trace w ++ [a]; disk := disk w |}).

Section Acquire.
Variable out : Outside.
Variable self : CoreAddon.
(** [dialog_interface] is given or not. *)
Variable dialog_interface : bool.

Definition notification (heading message : string) : IO () :=
  if dialog_interface then perform (Notification heading message) else mret ().

Definition fetch_proxies (url : string) : IO (list ProxyEntry) :=
  λ w, let answer := urlopen_json out (trace w) url in
       (default [] answer,
        {| trace := trace w ++ [UrlOpen url answer]; disk := disk w |}).

(** [get_web_content]: an empty [proxy] counts as none. *)
Definition get_web_content (url : string) (proxy : option string)
  : IO (option string) :=
  λ w, let proxies := if Py.truthy_opt proxy then proxy else None in
       let answer := requests_get out (trace w) url proxies in
       (answer,
        {| trace := trace w ++ [RequestsGet url proxies answer];
           disk := disk w |}).

Definition url_selected : string := "https://elcano.top".
Definition secondary_url : string := "https://viendoelfutbolporlaface.pages.dev/".

(** Lines 319-332, the [for ... else] over the proxies: [Some content]
    when the loop is left by [break], [None] when it runs to its end and
    the [else] branch returns the empty dictionary. *)
Fixpoint try_proxies (asian_proxies : list string) : IO (option (option string)) :=
  match asian_proxies with
  | [] =>
      notification "Error" "Failed to retrieve content with all proxies.";;
      mret None
  | proxy :: rest =>
      notification "Proxy" ("Trying proxy: " +:+ proxy);;
      content ← get_web_content url_selected (Some proxy);
      if Py.truthy_opt content then mret (Some content) else try_proxies rest
  end.

(** Lines 346-366. *)
Definition store (content : string) : IO Json.dict :=
  let '(ee, te) := extract_program_links self content in
  let '(ec, tc) := extract_channel_links content in
  λ w, let stamp := strftime out (trace w) in
       let data := cache_data
                     {| enlaces_eventos := ee; titulos_eventos := te;
                        enlaces_canal := ec; titulos_canal := tc;
                        origen := "Servidor Principal"; fecha := stamp |} in
       (data, {| trace := trace w ++ [Strftime stamp];
                 disk := save_cache self data (disk w) |}).

(** Lines 334-344, then the rest. *)
Definition fallback_then_store (content : option string) : IO Json.dict :=
  if negb (Py.truthy_opt content) then
    content ← get_web_content secondary_url None;
    if negb (Py.truthy_opt content) then
      notification "Error" "Failed to retrieve content from secondary URL.";;
      mret []
    else store (default EmptyString content)
  else store (default EmptyString content).

Definition update_list : IO Json.dict :=
  proxies ← fetch_proxies PROXIES_URL;
  match proxies with
  | [] =>
      notification "Error" "No proxies found.";;
      mret []
  | _ :: _ =>
      let asian_proxies := filter_asian_proxies proxies in
      notification "Connection" "Attempting to connect without proxy";;
      content ← get_web_content url_selected None;
      if negb (Py.truthy_opt content) then
        notification "Proxy" "Attempting to connect using proxies";;
        r ← try_proxies asian_proxies;
        match r with
        | Some content => fallback_then_store content
        | None => mret []
        end
      else fallback_then_store content
  end.

End Acquire.

(** ** The reconciled sequence, row by row

    The two lists that [extract_program_links] returns, read as one
    sequence of tagged rows: which statement of the loop appended the row,
    and with what. *)

Inductive ReconciledEntry :=
| DaySeparator (d : string)
| PlayableItem (program : Event) (tvg : string)
| UnmatchedPlaceholder (program : Event).

(** What a row is in [new_enlaces] and in [new_titulos]. *)
Definition entry_link (enlaces : gmap string string) (e : ReconciledEntry)
  : string :=
  match e with
  | DaySeparator d => date_comment d
  | PlayableItem _ tvg => enlace_of enlaces tvg
  | UnmatchedPlaceholder program => no_match_link program
  end.

Definition entry_title (e : ReconciledEntry) : string :=
  match e with
  | DaySeparator d => date_comment d
  | PlayableItem program tvg => playable_title program tvg
  | UnmatchedPlaceholder program => no_match_title program
  end.

(** The titles among [closest] with 720, [closest] with 1080 and [closest]
    itself that the page lists, in the order the loop tries them. *)
Definition variants (titulos : list string) (closest : string) : list string :=
  filter (λ v, v ∈ titulos) [closest +:+ "720"; closest +:+ "1080"; closest].

Definition day_entries (last : option string) (program : Event)
  : list ReconciledEntry :=
  if decide (Some (day program) ≠ last) then [DaySeparator (day program)] else [].

Definition program_entries (titulos : list string) (program : Event)
  : list ReconciledEntry :=
  match closest_tvg_id titulos program with
  | Some closest =>
      if Py.truthy closest then
        match variants titulos closest with
        | [] => [UnmatchedPlaceholder program]
        | vs => PlayableItem program <$> vs
        end
      else []
  | None => []
  end.

Fixpoint reconciled_entries (titulos : list string) (last : option string)
    (programs : list Event) : list ReconciledEntry :=
  match programs with
  | [] => []
  | program :: rest =>
      day_entries last program ++ program_entries titulos program
        ++ reconciled_entries titulos (Some (day program)) rest
  end.

(** The days of the separator rows, in order. *)
Definition separator_days (rows : list ReconciledEntry) : list string :=
  omap (λ e, match e with DaySeparator d => Some d | _ => None end) rows.

(** The distinct values of a list in the order of their first
    occurrence. *)
Fixpoint first_seen_from (seen : list string) (l : list string) : list string :=
  match l with
  | [] => []
  | d :: l' =>
      if decide (d ∈ seen) then first_seen_from seen l'
      else d :: first_seen_from (d :: seen) l'
  end.

Definition first_seen (l : list string) : list string := first_seen_from [] l.

(** One value for each run of equal neighbours. *)
Fixpoint runs_from (last : option string) (l : list string) : list string :=
  match l with
  | [] => []
  | d :: l' =>
      if decide (Some d ≠ last) then d :: runs_from (Some d) l'
      else runs_from (Some d) l'
  end.

Definition runs (l : list string) : list string := runs_from None l.

(** Every value is that of its predecessor or has not occurred before:
    the events of one day are contiguous. *)
Fixpoint contiguous_from (seen : list string) (last : option string)
    (l : list string) : Prop :=
  match l with
  | [] => True
  | d :: l' =>
      (Some d = last ∨ d ∉ seen) ∧ contiguous_from (d :: seen) (Some d) l'
  end.

Definition contiguous (l : list string) : Prop := contiguous_from [] None l.

(** ** Sample pages and schedules *)

(** An anchor of the listing page, as the pattern reads it. *)
Definition anchor (ident titulo : string) : string :=
  Re.anchor_open +:+ ident +:+ String Re.dquote ">" +:+ titulo +:+ "</a>".

Definition sample_html : string :=
  "<ul><li>" +:+ anchor "aaaa1111" "RealMadridTV720"
  +:+ "</li><li>" +:+ anchor "bbbb2222" " RealMadridTV1080 "
  +:+ "</li><li>" +:+ anchor "cccc3333" "RealMadridTV"
  +:+ "</li><li>" +:+ anchor "dddd4444" "DAZN" +:+ "</li></ul>".

Definition sample_enlaces : gmap string string :=
  (index_anchors (Re.findall sample_html)).1.
Definition sample_titulos : list string :=
  (index_anchors (Re.findall sample_html)).2.

Definition sample_event (d chan : string) : Event :=
  {| day := d; time := "21:00"; event := "Betis - Sevilla";
     channel := chan; sport := "Futbol" |}.

Definition sample_addon (programs : list Event) : CoreAddon :=
  {| addon_dir := "/addon"; cache_file := "/addon/cache.json";
     channels := []; tv_programs := programs |}.

Definition recon_start : Recon :=
  {| new_enlaces := []; new_titulos := []; last_date := None |}.

(** ** Reading a run of [update_list] *)

(** The network requests of a trace: the fetch of the proxy list and the
    page fetches, without the notifications and the clock. *)
Definition is_request (a : Action) : bool :=
  match a with
  | UrlOpen _ _ | RequestsGet _ _ _ => true
  | Notification _ _ | Strftime _ => false
  end.

Definition requests (t : list Action) : list Action :=
  filter (λ a, is_request a = true) t.

(** A page fetch of the primary URL through one of the given proxies. *)
Definition through_proxy_of (proxies : list string) (a : Action) : Prop :=
  ∃ p answer, p ∈ proxies
    ∧ a = RequestsGet url_selected
            (if Py.truthy_opt (Some p) then Some p else None) answer.

(** A fetch of the secondary URL. *)
Definition asks_secondary (a : Action) : Prop :=
  ∃ proxies answer, a = RequestsGet secondary_url proxies answer.

(** The snapshot [update_list] builds from a page and a time stamp. *)
Definition snapshot_of (self : CoreAddon) (content stamp : string) : Snapshot :=
  {| enlaces_eventos := (extract_program_links self content).1;
     titulos_eventos := (extract_program_links self content).2;
     enlaces_canal := (extract_channel_links content).1;
     titulos_canal := (extract_channel_links content).2;
     origen := "Servidor Principal";
     fecha := stamp |}.

(** ** Sample outsides *)

Definition empty_disk : FileSystem :=
  {| files := ∅; read_denied := ∅; write_denied := ∅ |}.

Definition fresh_world : World := {| trace := []; disk := empty_disk |}.

(** The proxy provider has no proxy to offer; the primary URL is up. *)
Definition outside_without_proxies : Outside :=
  {| urlopen_json := λ _ _, Some [];
     requests_get := λ _ _ _, Some sample_html;
     strftime := λ _, "2024-05-06 20:00:00" |}.

Definition asian_proxy : ProxyEntry :=
  {| proxy := "http://203.0.113.7:8080";
     ip_data := Some {| continentCode := Some "AS" |} |}.

Definition european_proxy : ProxyEntry :=
  {| proxy := "http://198.51.100.9:3128";
     ip_data := Some {| continentCode := Some "EU" |} |}.

(** The primary URL is down, directly and through every proxy; the
    secondary URL is up. *)
Definition outside_primary_down : Outside :=
  {| urlopen_json := λ _ _, Some [european_proxy; asian_proxy];
     requests_get := λ _ url _,
       if decide (url = secondary_url) then Some sample_html else None;
     strftime := λ _, "2024-05-06 20:00:00" |}.

(** A schedule page whose day blocks are titled Lunes, Martes and Lunes
    again, behind the block the parser drops. *)
Definition sample_row (chan : string) : EventRow :=
  {| dailyhour := Some "21:00"; dailyteams := Some " Betis - Sevilla ";
     dailychannel := Some chan; dailyday := Some "Futbol" |}.

Definition interleaved_page : list DaySection :=
  [ {| title_section_widget := Some "Hoy"; dailyevents := [sample_row "La 1"] |};
    {| title_section_widget := Some "Lunes";
       dailyevents := [sample_row "Real Madrid TV"] |};
    {| title_section_widget := Some "Martes"; dailyevents := [sample_row "DAZN"] |};
    {| title_section_widget := Some "Lunes"; dailyevents := [sample_row "DAZN"] |} ].

Definition interleaved_schedule : list Event :=
  [ sample_event "Lunes" "Real Madrid TV";
    sample_event "Martes" "DAZN";
    sample_event "Lunes" "DAZN" ].

Definition grouped_schedule : list Event :=
  [ sample_event "Lunes" "Real Madrid TV";
    sample_event "Lunes" "DAZN";
    sample_event "Martes" "DAZN" ].

(** ** The schedule page, row by row *)

(** The event a row of the block titled [d] stands for. *)
Definition row_event (d : string) (row : EventRow) : Event :=
  {| day := d;
     time := text_or_na (dailyhour row);
     event := text_or_na (dailyteams row);
     channel := text_or_na (dailychannel row);
     sport := text_or_na (dailyday row) |}.

Definition section_events (day_section : DaySection) : list Event :=
  match title_section_widget day_section with
  | Some day_span => row_event (Py.strip day_span) <$> dailyevents day_section
  | None => []
  end.

(** All the rows the parser reads, in document order, duplicates
    included. *)
Definition scraped_rows (day_sections : list DaySection) : list Event :=
  concat (section_events <$> drop 1 day_sections).

(** The body of the inner loop of [get_tv_programs], on a row that has been
    read into an event. *)
Definition add_row (st : list Event * gset (string * string * string * string))
    (e : Event) : list Event * gset (string * string * string * string) :=
  if decide (event_id e ∉ st.2)
  then (st.1 ++ [e], st.2 ∪ {[ event_id e ]})
  else st.

(** The first row of the page with the identity of [r]. *)
Definition first_with_id (rows : list Event) (r : Event) : option Event :=
  head (filter (λ x, event_id x = event_id r) rows).

(** A schedule page that lists one event twice, the second time under
    another sport label. *)
Definition repeated_page : list DaySection :=
  [ {| title_section_widget := Some "Hoy"; dailyevents := [] |};
    {| title_section_widget := Some " Lunes ";
       dailyevents :=
         [ sample_row "DAZN";
           {| dailyhour := Some "21:00"; dailyteams := Some "Betis - Sevilla";
              dailychannel := Some "DAZN"; dailyday := Some "Deportes" |};
           sample_row "Real Madrid TV" ] |} ].

(** ** Reading the JSON text back *)

(** The number of members of a dictionary and of items of its arrays: a
    lower bound of the length of its text. *)
Definition value_items (v : Json.value) : nat :=
  match v with
  | Json.Str _ => 0
  | Json.Arr items => length items
  end.

Definition members_weight (d : Json.dict) : nat :=
  sum_list_with (λ kv, S (value_items kv.2)) d.

Definition sample_snapshot : Snapshot :=
  snapshot_of (sample_addon grouped_schedule) sample_html "2024-05-06 20:00:00".

(** ** Reading more of a run *)

(** An entry that [filter_asian_proxies] keeps. *)
Definition from_asia (p : ProxyEntry) : bool :=
  match ip_data p with
  | Some d => bool_decide (continentCode d = Some "AS")
  | None => false
  end.

(** The answers to the page fetches of a trace, in order. *)
Definition page_answers (t : list Action) : list (option string) :=
  omap (λ a, match a with RequestsGet _ _ answer => Some answer | _ => None end) t.

(** No page in the answer. *)
Definition no_page (answer : option string) : Prop :=
  Py.truthy_opt answer = false.

Definition is_notification (a : Action) : bool :=
  match a with Notification _ _ => true | _ => false end.

(** The primary URL is down when asked directly and up through a proxy. *)
Definition outside_proxy_up : Outside :=
  {| urlopen_json := λ _ _, Some [european_proxy; asian_proxy];
     requests_get := λ _ _ via,
       match via with None => None | Some _ => Some sample_html end;
     strftime := λ _, "2024-05-06 20:00:00" |}.

(** ** Reading the links *)

(** The scheme of the play handler, which the extractors put in the place
    of the scheme of the stream. *)
Definition play_handler : string :=
  "plugin://script.module.horus?action=play&id=".

Definition is_playable (e : ReconciledEntry) : bool :=
  match e with
  | PlayableItem _ _ => true
  | _ => false
  end.

(** ** The playlist: [export_m3u] *)

(** The [str] methods that only [export_m3u] uses. *)
Module PyStr.

(** [c.lower()] for a code point below 256: the letters A to Z and the
    capital letters of Latin-1 (192 to 222, without the sign 215) move up
    by 32, every other character stays. *)
Definition lower_char (c : ascii) : ascii :=
  let n := nat_of_ascii c in
  if ((65 <=? n) && (n <=? 90))
     || ((192 <=? n) && (n <=? 222) && negb (n =? 215))
  then ascii_of_nat (n + 32)
  else c.

(** [s.lower()] *)
Fixpoint lower (s : string) : string :=
  match s with
  | EmptyString => EmptyString
  | String c s' => String (lower_char c) (lower s')
  end.

(** [s.split()]: the maximal runs of characters that are not white space;
    [cur] is the run being read. *)
Fixpoint split_ws_from (cur : string) (s : string) : list string :=
  match s with
  | EmptyString => if Py.truthy cur then [cur] else []
  | String c s' =>
      if Py.isspace c
      then if Py.truthy cur then cur :: split_ws_from EmptyString s'
           else split_ws_from EmptyString s'
      else split_ws_from (cur +:+ String c EmptyString) s'
  end.

Definition split_ws (s : string) : list string := split_ws_from EmptyString s.

(** [l[:-1]] *)
Definition but_last {A : Type} (l : list A) : list A := take (length l - 1) l.

(** [sep.join(l)] *)
Fixpoint join (sep : string) (l : list string) : string :=
  match l with
  | [] => EmptyString
  | x :: l' =>
      match l' with
      | [] => x
      | _ :: _ => x +:+ sep +:+ join sep l'
      end
  end.

End PyStr.

Definition newline : string := String "010"%char EmptyString.

(** A text between double quotes. *)
Definition quoted (s : string) : string :=
  String Re.dquote s +:+ String Re.dquote EmptyString.

(** The first line of the playlist, with the two guide URLs. *)
Definition m3u_header : string :=
  "#EXTM3U url-tvg="
  +:+ quoted ("https://raw.githubusercontent.com/davidmuma/EPG_dobleM/master/guiatv.xml, "
              +:+ "https://raw.githubusercontent.com/Icastresana/lista1/main/epg.xml")
  +:+ newline.

(** [" ".join(title.split()[:-1]).strip().lower()] *)
Definition channel_name (title : string) : string :=
  PyStr.lower (Py.strip (PyStr.join " " (PyStr.but_last (PyStr.split_ws title)))).

(** [next((c for c in self.channels if c.nombre.lower() == channel_name), None)] *)
Definition find_channel (self : CoreAddon) (name : string) : option Channel :=
  head (filter (λ c, PyStr.lower (nombre c) = name) (channels self)).

(** What one turn of the loop writes. *)
Definition m3u_entry (self : CoreAddon) (title link : string) : string :=
  match find_channel self (channel_name title) with
  | Some c =>
      "#EXTINF:-1 tvg-id=" +:+ quoted (tvg_id c)
        +:+ " tvg-logo=" +:+ quoted (logo c)
        +:+ "," +:+ title +:+ newline +:+ link +:+ newline
  | None => "#EXTINF:-1," +:+ title +:+ newline +:+ link +:+ newline
  end.

(** Everything written to the file: the header, then the loop over
    [zip(titles, links)]. *)
Definition m3u_text (self : CoreAddon) (links titles : list string) : string :=
  foldl (λ text tl, text +:+ m3u_entry self tl.1 tl.2) m3u_header
        (zip titles links).

Section Playlist.
Variable self : CoreAddon.
(** The text of the [IOError] that [open] raises on a path. *)
Variable strerror : string → string.

(** [export_m3u], called with a dialog as its only caller does; as in
    [save_cache] the [IOError] is that of [open]. *)
Definition export_m3u (links titles : list string) (m3u_path : option string)
  : IO () :=
  if negb (Py.truthy_opt m3u_path) then
    perform (Notification "Canceled" "M3U export canceled.")
  else
    let path := default EmptyString m3u_path in
    λ w,
      if decide (path ∈ write_denied (disk w)) then
        perform (Notification "Error" ("Failed to export M3U: " +:+ strerror path)) w
      else
        perform (Notification "Success" ("M3U list exported to " +:+ path))
          {| trace := trace w;
             disk := {| files := <[path := m3u_text self links titles]>
                                   (files (disk w));
                        read_denied := read_denied (disk w);
                        write_denied := write_denied (disk w) |} |}.

End Playlist.

(** ** The presentation layer: [KodiAddonWrapper] of [default.py]

    The wrapper reads the cache through [load_cache], so what it does is
    modelled on the cache files that [load_cache] is modelled on.  The
    calls to Kodi are a list, in the order they are made. *)

Module KodiAddonWrapper.

(** [addDirectoryItem] with the [url] and the [label] of its list item,
    and whether the item was given the video title and the property
    [IsPlayable]; [isFolder] is false in every call of the two listings. *)
Inductive KodiCall :=
| DialogNotification (heading message : string)
| AddDirectoryItem (url label : string) (is_playable : bool)
| EndOfDirectory.

(** [cache.get(key)] *)
Fixpoint dict_get (key : string) (cache : Json.dict) : option Json.value :=
  match cache with
  | [] => None
  | (k, v) :: cache' => if decide (k = key) then Some v else dict_get key cache'
  end.

(** What a loop over [cache.get(key, [])] reads: the items of a list, the
    characters of a string. *)
Definition get_items (key : string) (cache : Json.dict) : list string :=
  match dict_get key cache with
  | Some (Json.Arr items) => items
  | Some (Json.Str s) =>
      (λ c, String c EmptyString) <$> String.list_ascii_of_string s
  | None => []
  end.

(** Truth value of a list and of a dictionary: empty is false. *)
Definition truthy {A : Type} (l : list A) : bool :=
  match l with
  | [] => false
  | _ :: _ => true
  end.

Section Wrapper.
Variable out : Outside.
(** [self.core] *)
Variable core : CoreAddon.
Variable strerror : string → string.

Definition show_directos (fs : FileSystem) : list KodiCall :=
  let cache := load_cache core fs in
  if negb (truthy cache) then
    [DialogNotification "Info" "Cache is empty. Please update the list first."]
  else
    let enlaces_eventos := get_items "enlaces_eventos" cache in
    let titulos_eventos := get_items "titulos_eventos" cache in
    if negb (truthy enlaces_eventos) || negb (truthy titulos_eventos) then
      [DialogNotification "Info"
         "No direct links available. Please update the list."]
    else
      ((λ tl, AddDirectoryItem tl.2 tl.1 (negb (Py.startswith "#" tl.2)))
         <$> zip titulos_eventos enlaces_eventos)
      ++ [EndOfDirectory].

Definition show_canales (fs : FileSystem) : list KodiCall :=
  let cache := load_cache core fs in
  if negb (truthy cache) then
    [DialogNotification "Info" "Cache is empty. Please update the list first."]
  else
    let enlaces_canal := get_items "enlaces_canal" cache in
    let titulos_canal := get_items "titulos_canal" cache in
    if negb (truthy enlaces_canal) || negb (truthy titulos_canal) then
      [DialogNotification "Info" "No channels available. Please update the list."]
    else
      ((λ tl, AddDirectoryItem tl.2 tl.1 true) <$> zip titulos_canal enlaces_canal)
      ++ [EndOfDirectory].

(** [update_list(button)]: the core is given a dialog. *)
Definition update_list (button : bool) : IO () :=
  λ w,
    if truthy (load_cache core (disk w)) && negb button then ((), w)
    else
      let '(data, w') := update_list out core true w in
      if truthy data
      then perform (Notification "Success" "List updated successfully.") w'
      else perform (Notification "Error" "Failed to update the list.") w'.

(** [export_m3u], with the path that [select_m3u_path] came back with. *)
Definition export_m3u (path : option string) : IO () :=
  λ w,
    let cache := load_cache core (disk w) in
    if truthy cache then
      export_m3u core strerror (get_items "enlaces_canal" cache)
        (get_items "titulos_canal" cache) path w
    else perform (Notification "Error" "No cache available to export.") w.

End Wrapper.

End KodiAddonWrapper.

(** ** Reading the playlist and the listings *)

(** No white space in the text. *)
Fixpoint whitespace_free (s : string) : bool :=
  match s with
  | EmptyString => true
  | String c s' => negb (Py.isspace c) && whitespace_free s'
  end.

(** The item that [show_directos] adds for a row. *)
Definition directory_item (enlaces : gmap string string) (row : ReconciledEntry)
  : KodiAddonWrapper.KodiCall :=
  KodiAddonWrapper.AddDirectoryItem (entry_link enlaces row) (entry_title row)
    (is_playable row).

(** The item that [show_canales] adds for an anchor. *)
Definition channel_item (p : string * string) : KodiAddonWrapper.KodiCall :=
  KodiAddonWrapper.AddDirectoryItem (nuevo_enlace p.1)
    (Py.strip p.2 +:+ " " +:+ ultimos_digitos p.1) true.

(** A catalogue with one channel. *)
Definition sample_catalogue : list Channel :=
  [ {| nombre := "DAZN F1"; tvg_id := "DAZN F1 HD"; logo := "https://logos.example/dazn.png" |} ].

Definition sample_addon_with (catalogue : list Channel) : CoreAddon :=
  {| addon_dir := "/addon"; cache_file := "/addon/cache.json";
     channels := catalogue; tv_programs := grouped_schedule |}.

(** ** Reading the routes of a run *)

(** How each page fetch of a trace was routed, in order: directly or
    through a proxy. *)
Definition page_routes (t : list Action) : list (option string) :=
  omap (λ a, match a with RequestsGet _ via _ => Some via | _ => None end) t.

(** The route [get_web_content] takes when it is given a proxy. *)
Definition route_of (proxy : string) : option string :=
  if Py.truthy proxy then Some proxy else None.

(** ** Titles with markers in them *)

(** A raw title read as text with markers in it: [a], then each marker of
    [rest] followed by the text behind it. *)
Fixpoint marked (a : string) (rest : list (string * string)) : string :=
  match rest with
  | [] => a
  | (marker, b) :: rest' => a +:+ marker +:+ marked b rest'
  end.

(** The text of the title alone, with every marker of [rest] left out. *)
Fixpoint unmarked (a : string) (rest : list (string * string)) : string :=
  match rest with
  | [] => a
  | (_, b) :: rest' => a +:+ unmarked b rest'
  end.

(** The markers that are left after the first [replace]. *)
Definition without_720 (rest : list (string * string))
  : list (string * string) :=
  (λ p, (if decide (p.1 = "720") then EmptyString else p.1, p.2)) <$> rest.

(** * Properties *)

(** ** Strings *)

Section StringFacts.
Local Arguments String.append !s1 s2 / : simpl nomatch.

Lemma str_app_nil_r (s : string) : s +:+ EmptyString = s.
Proof. induction s as [|c s IH]; simpl; [done | by rewrite IH]. Qed.

Lemma str_app_assoc (s t u : string) : (s +:+ t) +:+ u = s +:+ (t +:+ u).
Proof. induction s as [|c s IH]; simpl; [done | by rewrite IH]. Qed.

Lemma str_length_app (s t : string) :
  String.length (s +:+ t) = String.length s + String.length t.
Proof. induction s as [|c s IH]; simpl; [done | by rewrite IH]. Qed.

Lemma startswith_spec (p s : string) :
  Py.startswith p s = true ↔ ∃ r, s = p +:+ r.
Proof.
  revert s. induction p as [|a p IH]; intros s; simpl.
  - split; [eauto | done].
  - destruct s as [|b s].
    + split; [done | intros [r Hr]; discriminate].
    + destruct (Ascii.eqb_spec a b) as [->|Hne].
      * rewrite IH. split; intros [r Hr]; exists r; simpl in *; congruence.
      * split; [done | intros [r Hr]; simpl in Hr; congruence].
Qed.

Lemma startswith_app (p r : string) : Py.startswith p (p +:+ r) = true.
Proof. apply startswith_spec. eauto. Qed.

Lemma startswith_length (p s : string) :
  Py.startswith p s = true → String.length p ≤ String.length s.
Proof.
  intros [r ->]%startswith_spec. rewrite str_length_app. lia.
Qed.

Lemma str_drop_app (s r : string) : Py.drop (String.length s) (s +:+ r) = r.
Proof. induction s as [|c s IH]; simpl; [by destruct r | done]. Qed.

Lemma occurs_app_l (old a b : string) :
  Py.occurs old a = true → Py.occurs old (a +:+ b) = true.
Proof.
  induction a as [|c a IH]; simpl.
  - rewrite orb_false_r. intros [r Hr]%startswith_spec.
    destruct old; [|discriminate]. by destruct b.
  - intros [H|H]%orb_true_iff; apply orb_true_iff.
    + left. apply startswith_spec in H as [r Hr].
      apply startswith_spec. exists (r +:+ b).
      change (String c a +:+ b = old +:+ r +:+ b). by rewrite Hr, str_app_assoc.
    + right. auto.
Qed.

Lemma occurs_app_r (old a b : string) :
  Py.occurs old b = true → Py.occurs old (a +:+ b) = true.
Proof.
  intros H. induction a as [|c a IH]; simpl; [done|].
  apply orb_true_iff. by right.
Qed.

(** Skipping exactly the characters of [s]. *)
Lemma replace_from_skip (old new s r : string) :
  Py.replace_from old new (String.length s) (s +:+ r)
  = Py.replace_from old new 0 r.
Proof.
  induction s as [|c s IH]; simpl; [by destruct r | done].
Qed.

(** Nothing to replace where [old] does not occur. *)
Lemma replace_absent (old new s : string) :
  Py.occurs old s = false → Py.replace old new s = s.
Proof.
  unfold Py.replace. induction s as [|c s IH]; simpl; [done|].
  intros [H1 H2]%orb_false_iff. rewrite H1, IH; done.
Qed.

(** An occurrence of [old] that no other occurrence can overlap is
    replaced wherever it stands. *)
Section Unbordered.
Variables old new mid b : string.
Hypothesis straddle : ∀ c a,
  Py.startswith old (String c a +:+ mid +:+ b) = Py.startswith old (String c a).

Lemma replace_from_app_mid (a : string) (skip : nat) :
  skip ≤ String.length a →
  Py.replace_from old new skip (a +:+ mid +:+ b)
  = Py.replace_from old new skip a
      +:+ Py.replace_from old new 0 (mid +:+ b).
Proof.
  revert skip. induction a as [|c a IH]; intros skip Hskip.
  - simpl in Hskip. assert (skip = 0) as -> by lia. done.
  - destruct skip as [|k].
    + change (Py.replace_from old new 0 (String c a +:+ mid +:+ b))
        with (if Py.startswith old (String c a +:+ mid +:+ b)
              then new +:+ Py.replace_from old new (String.length old - 1)
                             (a +:+ mid +:+ b)
              else String c (Py.replace_from old new 0 (a +:+ mid +:+ b))).
      rewrite straddle.
      change (Py.replace_from old new 0 (String c a))
        with (if Py.startswith old (String c a)
              then new +:+ Py.replace_from old new (String.length old - 1) a
              else String c (Py.replace_from old new 0 a)).
      destruct (Py.startswith old (String c a)) eqn:Hsw.
      * apply startswith_length in Hsw. simpl in Hsw.
        rewrite IH by lia. by rewrite str_app_assoc.
      * rewrite IH by lia. done.
    + simpl in Hskip. simpl. apply IH. lia.
Qed.
End Unbordered.

End StringFacts.

(** ** The quality markers *)

Section Markers.
Local Arguments String.append !s1 s2 / : simpl nomatch.
Local Arguments Ascii.eqb : simpl never.

Local Ltac by_chars :=
  repeat match goal with
         | |- context [Ascii.eqb ?x ?y] =>
             destruct (Ascii.eqb_spec x y); simplify_eq/=; try done
         end.

Lemma straddle_720_720 (b : string) (c : ascii) (a : string) :
  Py.startswith "720" (String c a +:+ "720" +:+ b)
  = Py.startswith "720" (String c a).
Proof. destruct a as [|c2 [|c3 a]]; simpl; by_chars. Qed.

Lemma straddle_1080_1080 (b : string) (c : ascii) (a : string) :
  Py.startswith "1080" (String c a +:+ "1080" +:+ b)
  = Py.startswith "1080" (String c a).
Proof. destruct a as [|c2 [|c3 [|c4 a]]]; simpl; by_chars. Qed.

Lemma straddle_720_1080 (b : string) (c : ascii) (a : string) :
  Py.startswith "720" (String c a +:+ "1080" +:+ b)
  = Py.startswith "720" (String c a).
Proof. destruct a as [|c2 [|c3 a]]; simpl; by_chars. Qed.

(** [replace] passes over an occurrence of the marker in the middle of a
    title and goes on behind it. *)
Lemma replace_720_middle (a b : string) :
  Py.replace "720" EmptyString (a +:+ "720" +:+ b)
  = Py.replace "720" EmptyString a +:+ Py.replace "720" EmptyString b.
Proof.
  unfold Py.replace.
  rewrite (replace_from_app_mid "720" EmptyString "720" b (straddle_720_720 b)) by lia.
  done.
Qed.

Lemma replace_1080_middle (a b : string) :
  Py.replace "1080" EmptyString (a +:+ "1080" +:+ b)
  = Py.replace "1080" EmptyString a +:+ Py.replace "1080" EmptyString b.
Proof.
  unfold Py.replace.
  rewrite (replace_from_app_mid "1080" EmptyString "1080" b (straddle_1080_1080 b)) by lia.
  done.
Qed.

Lemma occurs_720_around_1080 (a b : string) :
  Py.occurs "720" (a +:+ "1080" +:+ b)
  = Py.occurs "720" a || Py.occurs "720" b.
Proof.
  induction a as [|c a IH].
  - simpl. by destruct b.
  - change (Py.occurs "720" (String c a +:+ "1080" +:+ b))
      with (Py.startswith "720" (String c a +:+ "1080" +:+ b)
            || Py.occurs "720" (a +:+ "1080" +:+ b)).
    rewrite straddle_720_1080, IH.
    change (Py.occurs "720" (String c a))
      with (Py.startswith "720" (String c a) || Py.occurs "720" a).
    by rewrite orb_assoc.
Qed.

Lemma occurs_app_false (old a b : string) :
  Py.occurs old (a +:+ b) = false →
  Py.occurs old a = false ∧ Py.occurs old b = false.
Proof.
  intros H. split.
  - destruct (Py.occurs old a) eqn:Ha; [|done].
    by rewrite (occurs_app_l _ _ b Ha) in H.
  - destruct (Py.occurs old b) eqn:Hb; [|done].
    by rewrite (occurs_app_r _ a _ Hb) in H.
Qed.

End Markers.

(** Titles with any number of markers. *)
Section ManyMarkers.
Local Arguments String.append !s1 s2 / : simpl nomatch.

Lemma replace_720_over_1080 (a b : string) :
  Py.replace "720" EmptyString (a +:+ "1080" +:+ b)
  = Py.replace "720" EmptyString a +:+ "1080" +:+ Py.replace "720" EmptyString b.
Proof.
  unfold Py.replace.
  rewrite (replace_from_app_mid "720" EmptyString "1080" b (straddle_720_1080 b)) by lia.
  done.
Qed.

Lemma marked_app (a b : string) (rest : list (string * string)) :
  a +:+ marked b rest = marked (a +:+ b) rest.
Proof. destruct rest as [|[m c] rest]; simpl; [done|]. by rewrite str_app_assoc. Qed.

Lemma unmarked_app (a b : string) (rest : list (string * string)) :
  a +:+ unmarked b rest = unmarked (a +:+ b) rest.
Proof. destruct rest as [|[m c] rest]; simpl; [done|]. by rewrite str_app_assoc. Qed.

Lemma unmarked_without_720 (rest : list (string * string)) (a : string) :
  unmarked a (without_720 rest) = unmarked a rest.
Proof.
  revert a. induction rest as [|[m b] rest IH]; intros a; [done|].
  cbn [without_720 fmap list_fmap unmarked fst snd]. f_equal. apply IH.
Qed.

Lemma without_720_markers (rest : list (string * string)) :
  Forall (λ p, p.1 ∈ ["720"; "1080"]) rest →
  Forall (λ p, p.1 ∈ [EmptyString; "1080"]) (without_720 rest).
Proof.
  intros Hm. apply Forall_fmap. eapply Forall_impl; [exact Hm|].
  intros [m b]. cbn [fst snd compose].
  intros [->| ->%list_elem_of_singleton]%elem_of_cons.
  - rewrite decide_True by done. left.
  - rewrite decide_False by done. right. left.
Qed.

(** The first [replace] takes every marker 720 out and leaves the rest. *)
Lemma replace_720_marked (rest : list (string * string)) (a : string) :
  Forall (λ p, p.1 ∈ ["720"; "1080"]) rest →
  Py.occurs "720" (unmarked a rest) = false →
  Py.replace "720" EmptyString (marked a rest) = marked a (without_720 rest).
Proof.
  revert a. induction rest as [|[m b] rest IH]; intros a Hm Ho.
  - by apply replace_absent.
  - apply Forall_cons in Hm as [Hm1 Hm]. cbn [fst] in Hm1.
    cbn [unmarked] in Ho. apply occurs_app_false in Ho as [Ha Hb].
    cbn [without_720 fmap list_fmap marked fst snd].
    fold (without_720 rest).
    apply elem_of_cons in Hm1 as [->| ->%list_elem_of_singleton].
    + rewrite replace_720_middle, (replace_absent _ _ a Ha), IH by done.
      by rewrite decide_True.
    + rewrite replace_720_over_1080, (replace_absent _ _ a Ha), IH by done.
      by rewrite decide_False.
Qed.

(** The second [replace] takes every marker 1080 out; where a marker 720
    stood, the texts on its two sides have become one. *)
Lemma replace_1080_marked (rest : list (string * string)) (a : string) :
  Forall (λ p, p.1 ∈ [EmptyString; "1080"]) rest →
  Py.occurs "1080" (unmarked a rest) = false →
  Py.replace "1080" EmptyString (marked a rest) = unmarked a rest.
Proof.
  revert a. induction rest as [|[m b] rest IH]; intros a Hm Ho.
  - by apply replace_absent.
  - apply Forall_cons in Hm as [Hm1 Hm]. cbn [fst] in Hm1.
    cbn [unmarked marked] in *.
    apply elem_of_cons in Hm1 as [->| ->%list_elem_of_singleton].
    + change (EmptyString +:+ marked b rest) with (marked b rest).
      rewrite marked_app, unmarked_app. apply IH; [done|].
      by rewrite <- unmarked_app.
    + apply occurs_app_false in Ho as [Ha Hb].
      by rewrite replace_1080_middle, (replace_absent _ _ a Ha), IH.
Qed.

End ManyMarkers.

(** C10. The comparison pool is built with two calls of [replace], the
    first for 720 and the second, on its result, for 1080; they delete
    the markers wherever they stand in a raw title.  A title that is text
    with any number of markers in it, at any place, enters the pool as
    that text alone, when the text itself holds no marker: one marker
    behind the text (a trailing suffix) is one case, markers in the middle
    are others.  Hence the matched base title need not be the raw title
    without a suffix: for the raw title Canal720Sur the channel Canal Sur
    is matched to the base CanalSur, and the raw title does not start with
    that base. *)
Theorem without_quality_deletes_markers_anywhere :
  (∀ (a : string) (rest : list (string * string)),
      Forall (λ p, p.1 ∈ ["720"; "1080"]) rest →
      Py.occurs "720" (unmarked a rest) = false →
      Py.occurs "1080" (unmarked a rest) = false →
      without_quality (marked a rest) = unmarked a rest)
  ∧ (∀ a b marker : string,
      marker ∈ ["720"; "1080"] →
      Py.occurs "720" (a +:+ b) = false →
      Py.occurs "1080" (a +:+ b) = false →
      without_quality (a +:+ marker +:+ b) = a +:+ b)
  ∧ (titulos_without_quality ["Canal720Sur"] = ["CanalSur"]
     ∧ find_closest_channel "Canal Sur" (titulos_without_quality ["Canal720Sur"])
       = Some "CanalSur"
     ∧ Py.startswith "CanalSur" "Canal720Sur" = false).
Proof.
  assert (Hmany : ∀ (a : string) (rest : list (string * string)),
      Forall (λ p, p.1 ∈ ["720"; "1080"]) rest →
      Py.occurs "720" (unmarked a rest) = false →
      Py.occurs "1080" (unmarked a rest) = false →
      without_quality (marked a rest) = unmarked a rest).
  { intros a rest Hm H7 H1. unfold without_quality.
    rewrite replace_720_marked by done.
    rewrite replace_1080_marked.
    - apply unmarked_without_720.
    - by apply without_720_markers.
    - by rewrite unmarked_without_720. }
  split; [exact Hmany|]. split; [|by vm_compute].
  intros a b marker Hm H7 H1.
  apply (Hmany a [(marker, b)]); [|done|done].
  constructor; [exact Hm | constructor].
Qed.

Lemma without_quality_deletes_markers_anywhere_witness :
  without_quality (marked "Real" [("720", "Madrid"); ("1080", "TV"); ("720", "HD")])
  = unmarked "Real" [("720", "Madrid"); ("1080", "TV"); ("720", "HD")].
Proof.
  apply (proj1 without_quality_deletes_markers_anywhere "Real"
           [("720", "Madrid"); ("1080", "TV"); ("720", "HD")]).
  - apply (bool_decide_unpack _). vm_compute. exact I.
  - reflexivity.
  - reflexivity.
Defined.

(** C10, the claim as stated fails where deleting a marker brings the
    texts on its two sides together into a new marker.  In 1072080 the
    one marker is 720 and the title without it is 1080, yet the pool entry
    is empty: the second [replace] deletes what the first has formed.  In
    7108020 the one marker is 1080, and the pool entry 720 still holds a
    marker.  In 10108080 the marker 1080 stands inside another 1080, and
    the pool entry is 1080. *)
Lemma deleting_a_marker_forms_another :
  (marked "10" [("720", "80")] = "1072080"
   ∧ Py.occurs "1080" "1072080" = false
   ∧ unmarked "10" [("720", "80")] = "1080"
   ∧ without_quality "1072080" = EmptyString)
  ∧ (marked "7" [("1080", "20")] = "7108020"
     ∧ Py.occurs "720" "7108020" = false
     ∧ without_quality "7108020" = "720"
     ∧ Py.occurs "720" (without_quality "7108020") = true)
  ∧ without_quality "10108080" = "1080".
Proof. by vm_compute. Qed.

(** ** The reconciler, one event at a time *)

Section ReconcileFacts.
Variable enlaces : gmap string string.
Variable titulos : list string.

(** What lines 246-264 append when the guard [if closest_tvg_id:] holds. *)
Lemma resolve_matched (program : Event) (st : Recon) (closest : string) :
  closest_tvg_id titulos program = Some closest →
  Py.truthy closest = true →
  resolve enlaces titulos program st =
    {| new_enlaces :=
         new_enlaces st ++
           match variants titulos closest with
           | [] => [no_match_link program]
           | vs => enlace_of enlaces <$> vs
           end;
       new_titulos :=
         new_titulos st ++
           match variants titulos closest with
           | [] => [no_match_title program]
           | vs => playable_title program <$> vs
           end;
       last_date := last_date st |}.
Proof.
  intros Hc Ht. unfold resolve. rewrite Hc, Ht. simpl.
  unfold variants, try_plain, try_quality, report_no_match, Py.contains.
  rewrite !filter_cons, filter_nil.
  destruct (decide (closest +:+ "720" ∈ titulos)) as [H1|H1];
    [rewrite (bool_decide_eq_true_2 _ H1) | rewrite (bool_decide_eq_false_2 _ H1)];
  (destruct (decide (closest +:+ "1080" ∈ titulos)) as [H2|H2];
    [rewrite (bool_decide_eq_true_2 _ H2) | rewrite (bool_decide_eq_false_2 _ H2)]);
  (destruct (decide (closest ∈ titulos)) as [H3|H3];
    [rewrite (bool_decide_eq_true_2 _ H3) | rewrite (bool_decide_eq_false_2 _ H3)]);
  simpl; rewrite <- ?(assoc_L (++)); done.
Qed.

(** Nothing is appended when the guard fails. *)
Lemma resolve_unmatched (program : Event) (st : Recon) :
  Py.truthy_opt (closest_tvg_id titulos program) = false →
  resolve enlaces titulos program st = st.
Proof.
  unfold resolve. destruct (closest_tvg_id titulos program) as [c|]; [|done].
  simpl. by intros ->.
Qed.

Lemma mark_day_rows (st : Recon) (program : Event) :
  mark_day st program =
    {| new_enlaces :=
         new_enlaces st
           ++ (entry_link enlaces <$> day_entries (last_date st) program);
       new_titulos :=
         new_titulos st ++ (entry_title <$> day_entries (last_date st) program);
       last_date := Some (day program) |}.
Proof.
  unfold mark_day, day_entries. destruct st as [ne nt ld]; simpl.
  destruct (decide (Some (day program) ≠ ld)) as [H|H]; simpl; [done|].
  rewrite !app_nil_r. f_equal. by destruct (decide (Some (day program) = ld)).
Qed.

Lemma resolve_rows (st : Recon) (program : Event) :
  resolve enlaces titulos program st =
    {| new_enlaces :=
         new_enlaces st
           ++ (entry_link enlaces <$> program_entries titulos program);
       new_titulos :=
         new_titulos st ++ (entry_title <$> program_entries titulos program);
       last_date := last_date st |}.
Proof.
  unfold program_entries.
  destruct (closest_tvg_id titulos program) as [c|] eqn:Hc.
  - destruct (Py.truthy c) eqn:Ht.
    + rewrite (resolve_matched _ _ c Hc Ht).
      destruct (variants titulos c) as [|v vs]; [done|].
      rewrite <- !list_fmap_compose. done.
    + rewrite resolve_unmatched by (by rewrite Hc). destruct st; simpl.
      by rewrite !app_nil_r.
  - rewrite resolve_unmatched by (by rewrite Hc). destruct st; simpl.
    by rewrite !app_nil_r.
Qed.

Lemma reconcile_program_rows (st : Recon) (program : Event) :
  reconcile_program enlaces titulos st program =
    {| new_enlaces :=
         new_enlaces st
           ++ (entry_link enlaces <$>
                 day_entries (last_date st) program
                   ++ program_entries titulos program);
       new_titulos :=
         new_titulos st
           ++ (entry_title <$>
                 day_entries (last_date st) program
                   ++ program_entries titulos program);
       last_date := Some (day program) |}.
Proof.
  unfold reconcile_program. rewrite resolve_rows, mark_day_rows. simpl.
  by rewrite !fmap_app, <- !(assoc_L (++)).
Qed.

Lemma foldl_reconcile_rows (programs : list Event) (st : Recon) :
  new_enlaces (foldl (reconcile_program enlaces titulos) st programs)
  = new_enlaces st
      ++ (entry_link enlaces <$> reconciled_entries titulos (last_date st) programs)
  ∧ new_titulos (foldl (reconcile_program enlaces titulos) st programs)
    = new_titulos st
        ++ (entry_title <$> reconciled_entries titulos (last_date st) programs).
Proof.
  revert st. induction programs as [|p ps IH]; intros st; simpl.
  - by rewrite !app_nil_r.
  - destruct (IH (reconcile_program enlaces titulos st p)) as [IH1 IH2].
    rewrite IH1, IH2, reconcile_program_rows. simpl.
    rewrite !fmap_app, <- !(assoc_L (++)). done.
Qed.

(** The loop of [extract_program_links] writes the tagged rows, their link
    into one list and their title into the other. *)
Lemma reconcile_rows (programs : list Event) :
  new_enlaces (reconcile enlaces titulos programs)
  = entry_link enlaces <$> reconciled_entries titulos None programs
  ∧ new_titulos (reconcile enlaces titulos programs)
    = entry_title <$> reconciled_entries titulos None programs.
Proof. apply (foldl_reconcile_rows programs). Qed.

End ReconcileFacts.

(** ** The title index and the matcher *)

Lemma index_anchors_snoc (patrones : list (string * string)) (p : string * string) :
  index_anchors (patrones ++ [p]) = index_anchor (index_anchors patrones) p.
Proof. unfold index_anchors. by rewrite foldl_snoc. Qed.

Lemma index_anchors_titulos (patrones : list (string * string)) :
  (index_anchors patrones).2 = (λ p, Py.strip p.2) <$> patrones.
Proof.
  induction patrones as [|[e t] l IH] using rev_ind; [done|].
  rewrite index_anchors_snoc, fmap_app. simpl.
  destruct (index_anchors l) as [enl tit]. simpl in *. by rewrite IH.
Qed.

(** [enlaces[v]] is the rewritten target of the last anchor titled [v]. *)
Lemma index_anchors_lookup (patrones : list (string * string)) (v : string) :
  (index_anchors patrones).1 !! v
  = (λ p, nuevo_enlace p.1) <$> last (filter (λ p, Py.strip p.2 = v) patrones).
Proof.
  induction patrones as [|[e t] l IH] using rev_ind; [done|].
  rewrite index_anchors_snoc, filter_app.
  destruct (index_anchors l) as [enl tit]. simpl in *.
  rewrite filter_cons, filter_nil. simpl.
  destruct (decide (Py.strip t = v)) as [->|Hne].
  - by rewrite lookup_insert_eq, last_snoc.
  - by rewrite lookup_insert_ne, app_nil_r.
Qed.

(** Every title of the list is a key of the dictionary: the reads of the
    loop, all behind a test [in titulos], never fail. *)
Lemma index_anchors_listed (patrones : list (string * string)) (v : string) :
  v ∈ (index_anchors patrones).2 →
  ∃ e t, (e, t) ∈ patrones ∧ Py.strip t = v
         ∧ (index_anchors patrones).1 !! v = Some (nuevo_enlace e).
Proof.
  rewrite index_anchors_titulos, index_anchors_lookup.
  intros [[e t] [-> Hin]]%list_elem_of_fmap. simpl.
  assert (Hf : (e, t) ∈ filter (λ p, Py.strip p.2 = Py.strip t) patrones)
    by (by apply list_elem_of_filter).
  destruct (last (filter (λ p, Py.strip p.2 = Py.strip t) patrones))
    as [[e' t']|] eqn:Hl.
  - apply last_Some_elem_of in Hl. apply list_elem_of_filter in Hl as [Hs Hin'].
    exists e', t'. done.
  - apply last_None in Hl. rewrite Hl in Hf. by apply not_elem_of_nil in Hf.
Qed.

(** A match ends behind its start, so the scan never runs out of fuel:
    any fuel above the length of the page gives the same list. *)
Lemma length_drop (n : nat) (s : string) :
  String.length (Py.drop n s) = String.length s - n.
Proof.
  revert s. induction n as [|n IH]; intros [|c s]; simpl; try lia.
  apply IH.
Qed.

Lemma length_span (p : ascii → bool) (s a b : string) :
  Re.span p s = (a, b) → String.length b ≤ String.length s.
Proof.
  revert a b. induction s as [|c s IH]; intros a b; simpl.
  - intros [= <- <-]. done.
  - destruct (p c).
    + destruct (Re.span p s) as [a' b']. intros [= <- <-].
      specialize (IH _ _ eq_refl). lia.
    + intros [= <- <-]. simpl. lia.
Qed.

Lemma length_lazy_until_close (s t rest : string) :
  Re.lazy_until_close s = Some (t, rest) → String.length rest < String.length s.
Proof.
  revert t rest. induction s as [|c s IH]; intros t rest.
  - simpl. done.
  - cbn [Re.lazy_until_close].
    destruct (Py.startswith "</a>" (String c s)) eqn:Hsw.
    + intros [= <- <-]. apply startswith_length in Hsw.
      change (String.length (Py.drop 4 (String c s)) < String.length (String c s)).
      rewrite length_drop. change (String.length "</a>") with 4 in Hsw. lia.
    + destruct (Ascii.eqb c "010"); [done|].
      destruct (Re.lazy_until_close s) as [[t' rest']|]; [|done].
      intros [= <- <-]. specialize (IH _ _ eq_refl). simpl. lia.
Qed.

Lemma length_match_here (s e t rest : string) :
  Re.match_here s = Some (e, t, rest) → String.length rest < String.length s.
Proof.
  unfold Re.match_here.
  destruct (Py.startswith Re.anchor_open s); [|done].
  destruct (Re.span Re.not_quote (Py.drop 21 s)) as [ident r1] eqn:H1.
  destruct ident as [|c ident]; [done|]. destruct r1 as [|q r2]; [done|].
  destruct (Re.span Re.not_gt r2) as [junk r3] eqn:H2.
  destruct r3 as [|g r4]; [done|].
  destruct (Re.lazy_until_close r4) as [[titulo rest']|] eqn:H3; [|done].
  intros [= _ _ <-].
  apply length_span in H1, H2. apply length_lazy_until_close in H3.
  pose proof (length_drop 21 s). simpl in *. lia.
Qed.

Lemma findall_fuel_enough (fuel fuel' : nat) (s : string) :
  String.length s < fuel → String.length s < fuel' →
  Re.findall_fuel fuel s = Re.findall_fuel fuel' s.
Proof.
  revert fuel' s. induction fuel as [|f IH]; intros fuel' s Hf Hf'; [lia|].
  destruct fuel' as [|f']; [lia|]. simpl.
  destruct (Re.match_here s) as [[[e t] rest]|] eqn:Hm.
  - apply length_match_here in Hm. f_equal. apply IH; lia.
  - destruct s as [|c s]; [done|]. simpl in *. apply IH; lia.
Qed.

(** Every target that the pattern captures starts with the scheme. *)
Lemma findall_enlace (html e t : string) :
  (e, t) ∈ Re.findall html → ∃ ident, e = "acestream://" +:+ ident.
Proof.
  unfold Re.findall. generalize (S (String.length html)). intros fuel.
  revert html. induction fuel as [|f IH]; intros html; simpl.
  - by intros ?%not_elem_of_nil.
  - destruct (Re.match_here html) as [[[e' t'] rest]|] eqn:Hm.
    + intros [Heq|Hin]%elem_of_cons; [|by apply (IH rest)].
      injection Heq as -> ->. unfold Re.match_here in Hm.
      destruct (Py.startswith Re.anchor_open html); [|done].
      destruct (Re.span Re.not_quote (Py.drop 21 html)) as [ident r1].
      destruct ident as [|c ident]; [done|]. destruct r1 as [|q r2]; [done|].
      destruct (Re.span Re.not_gt r2) as [junk r3].
      destruct r3 as [|g r4]; [done|].
      destruct (Re.lazy_until_close r4) as [[titulo rest']|]; [|done].
      injection Hm as <- _ _. eauto.
    + destruct html as [|c html]; [by intros ?%not_elem_of_nil | apply IH].
Qed.

Lemma split_from_nonempty (sep : string) (skip : nat) (cur s : string) :
  Py.split_from sep skip cur s ≠ [].
Proof.
  revert skip cur. induction s as [|c s IH]; intros skip cur; simpl; [done|].
  destruct skip; [|apply IH].
  destruct (Py.startswith sep (String c s)); [done | apply IH].
Qed.

(** The split of such a target has a second piece. *)
Lemma split_enlace (ident : string) :
  ∃ piece rest,
    Py.split "://" ("acestream://" +:+ ident) = "acestream" :: piece :: rest.
Proof.
  change (Py.split "://" ("acestream://" +:+ ident))
    with ("acestream" :: Py.split "://" ident).
  pose proof (split_from_nonempty "://" 0 EmptyString ident) as Hne.
  unfold Py.split. destruct (Py.split_from "://" 0 EmptyString ident); [done|].
  eauto.
Qed.

(** The matcher on the examples of the documentation of [difflib]: the
    ratio 0.75 of abcd and bcde, the longest match of the two sample
    strings, and the closest match of appel. *)
Example difflib_documented_values :
  Difflib.ratio (String.list_ascii_of_string "abcd")
                (String.list_ascii_of_string "bcde") = (6, 8)
  ∧ Difflib.find_longest_match (String.list_ascii_of_string " abcd")
      (String.list_ascii_of_string "abcd abcd") 0 5 0 9 = (0, 4, 5)
  ∧ Difflib.get_close_matches "appel" ["ape"; "apple"; "peach"; "puppy"]
    = ["apple"]
  ∧ Difflib.ratio (String.list_ascii_of_string "RealMadridTV")
                  (String.list_ascii_of_string "Real Madrid TV") = (24, 26).
Proof. by vm_compute. Qed.

(** A ratio below the cutoff fails the test of [get_close_matches]. *)
Lemma ratio_below_cutoff (word x : string) :
  Difflib.at_least_half
    (Difflib.ratio (String.list_ascii_of_string x)
                   (String.list_ascii_of_string word)) = false →
  Difflib.close_enough word x = false.
Proof. unfold Difflib.close_enough. intros ->. by rewrite andb_false_r. Qed.

Lemma nlargest1_elem (result : list (Difflib.score * string))
    (p : Difflib.score * string) :
  p ∈ Difflib.nlargest1 result → p ∈ result.
Proof.
  destruct result as [|q rest]; simpl; [done|].
  intros ->%list_elem_of_singleton.
  revert q. induction rest as [|r rest IH]; intros q; simpl; [left|].
  destruct (Difflib.tuple_ltb q r).
  - right. apply IH.
  - pose proof (IH q) as [Heq|Hin]%elem_of_cons; [rewrite Heq; left|].
    right. by right.
Qed.

(** A match is one of the possibilities, and passes the cutoff. *)
Lemma get_close_matches_elem (word m : string) (possibilities : list string) :
  m ∈ Difflib.get_close_matches word possibilities →
  m ∈ possibilities ∧ Difflib.close_enough word m = true.
Proof.
  unfold Difflib.get_close_matches.
  intros [[sc x] [-> Hin]]%list_elem_of_fmap. simpl.
  apply nlargest1_elem in Hin.
  apply list_elem_of_fmap in Hin as [y [Hy Hin]].
  unfold Difflib.scored in Hy. simplify_eq.
  apply list_elem_of_filter in Hin as [? ?]. done.
Qed.

(** No possibility passes the cutoff: no match. *)
Lemma get_close_matches_none (word : string) (possibilities : list string) :
  (∀ x, x ∈ possibilities → Difflib.close_enough word x = false) →
  Difflib.get_close_matches word possibilities = [].
Proof.
  intros H.
  destruct (Difflib.get_close_matches word possibilities) as [|m l] eqn:Hg; [done|].
  assert (Hm : m ∈ Difflib.get_close_matches word possibilities)
    by (rewrite Hg; left).
  apply get_close_matches_elem in Hm as [Hin Hc].
  rewrite (H m Hin) in Hc. done.
Qed.

(** Some possibility passes the cutoff: there is a match. *)
Lemma get_close_matches_some (word x : string) (possibilities : list string) :
  x ∈ possibilities → Difflib.close_enough word x = true →
  ∃ m, Difflib.get_close_matches word possibilities = [m].
Proof.
  intros Hin Hc. unfold Difflib.get_close_matches.
  assert (Hx : x ∈ filter (λ x, Difflib.close_enough word x = true) possibilities)
    by (by apply list_elem_of_filter).
  destruct (filter (λ x, Difflib.close_enough word x = true) possibilities)
    as [|y l]; [by apply not_elem_of_nil in Hx|].
  simpl. eauto.
Qed.

Lemma find_closest_channel_none (channel_name : string) (names : list string) :
  find_closest_channel channel_name names = None
  ↔ ∀ x, x ∈ names → Difflib.close_enough channel_name x = false.
Proof.
  unfold find_closest_channel. split.
  - intros H x Hin. destruct (Difflib.close_enough channel_name x) eqn:Hc; [|done].
    destruct (get_close_matches_some _ _ _ Hin Hc) as [m Hm].
    by rewrite Hm in H.
  - intros H. by rewrite get_close_matches_none.
Qed.

Lemma variants_nil (titulos : list string) (closest : string) :
  closest +:+ "720" ∉ titulos → closest +:+ "1080" ∉ titulos →
  closest ∉ titulos → variants titulos closest = [].
Proof.
  intros H1 H2 H3. unfold variants.
  rewrite !filter_cons, filter_nil.
  by rewrite !decide_False.
Qed.

Lemma variants_length (titulos : list string) (closest : string) :
  length (variants titulos closest) ≤ 3.
Proof. apply (length_filter (λ v, v ∈ titulos) [_; _; _]). Qed.

(** ** Claims on single events *)

(** C1 (the code departs from the claim here).  For an event whose channel
    is not the alias and to which no entry of the quality-stripped pool is
    close enough (none passes the cutoff 0.5 of [get_close_matches], as
    when every ratio is below it), the matcher returns nothing and the loop
    appends no row for the event: its state is the one the date comment
    left.  The placeholder of lines 262-264 stands under
    [if closest_tvg_id:], where this event does not come, so the one
    placeholder row of the claim is missing. *)
Theorem unmatched_event_emits_no_row
    (enlaces : gmap string string) (titulos : list string)
    (st : Recon) (program : Event) :
  channel program ≠ "Movistar Plus+" →
  Forall (λ x, Difflib.close_enough (channel program) x = false)
         (titulos_without_quality titulos) →
  closest_tvg_id titulos program = None
  ∧ reconcile_program enlaces titulos st program = mark_day st program
  ∧ program_entries titulos program = [].
Proof.
  intros Hch Hfar.
  assert (Hc : closest_tvg_id titulos program = None).
  { unfold closest_tvg_id. rewrite decide_False by done.
    apply find_closest_channel_none. by apply Forall_forall. }
  split; [done|]. split.
  - unfold reconcile_program. apply resolve_unmatched. by rewrite Hc.
  - unfold program_entries. by rewrite Hc.
Qed.

Lemma unmatched_event_emits_no_row_witness :
  closest_tvg_id sample_titulos (sample_event "Lunes" "Canal Sur") = None
  ∧ reconcile_program sample_enlaces sample_titulos recon_start
      (sample_event "Lunes" "Canal Sur")
    = mark_day recon_start (sample_event "Lunes" "Canal Sur")
  ∧ program_entries sample_titulos (sample_event "Lunes" "Canal Sur") = [].
Proof.
  apply (unmatched_event_emits_no_row sample_enlaces sample_titulos recon_start
           (sample_event "Lunes" "Canal Sur")).
  - discriminate.
  - apply (bool_decide_unpack _). vm_compute. exact I.
Defined.

(** C5. An event whose channel is literally Movistar Plus+ gets the base
    title M.Plus 1080 whatever the page lists, with no call of the matcher;
    when the page lists none of M.Plus 1080720, M.Plus 10801080 and
    M.Plus 1080, the event comes to the no-resolution branch and the loop
    appends exactly one placeholder row, which carries the channel name. *)
Theorem movistar_alias_fixes_base
    (enlaces : gmap string string) (titulos : list string)
    (st : Recon) (program : Event) :
  channel program = "Movistar Plus+" →
  closest_tvg_id titulos program = Some "M.Plus 1080"
  ∧ ("M.Plus 1080720" ∉ titulos → "M.Plus 10801080" ∉ titulos →
     "M.Plus 1080" ∉ titulos →
     new_enlaces (reconcile_program enlaces titulos st program)
     = new_enlaces (mark_day st program)
         ++ ["# No matching channel for " +:+ event program
               +:+ ", this was the channel: Movistar Plus+"]
     ∧ new_titulos (reconcile_program enlaces titulos st program)
       = new_titulos (mark_day st program)
           ++ [sport program +:+ " " +:+ time program +:+ " " +:+ event program
                 +:+ " - No match for Movistar Plus+"]
     ∧ program_entries titulos program = [UnmatchedPlaceholder program]).
Proof.
  intros Hch.
  assert (Hc : closest_tvg_id titulos program = Some "M.Plus 1080").
  { unfold closest_tvg_id. by rewrite decide_True. }
  split; [done|]. intros H1 H2 H3.
  pose proof (variants_nil titulos "M.Plus 1080" H1 H2 H3) as Hv.
  unfold reconcile_program.
  rewrite (resolve_matched enlaces titulos program _ "M.Plus 1080" Hc eq_refl).
  rewrite Hv. unfold no_match_link, no_match_title, program_entries.
  rewrite Hc, Hch, Hv. done.
Qed.

Lemma movistar_alias_fixes_base_witness :
  closest_tvg_id sample_titulos (sample_event "Lunes" "Movistar Plus+")
  = Some "M.Plus 1080"
  ∧ new_enlaces (reconcile_program sample_enlaces sample_titulos recon_start
                   (sample_event "Lunes" "Movistar Plus+"))
    = ["# Lunes";
       "# No matching channel for Betis - Sevilla, this was the channel: Movistar Plus+"].
Proof.
  destruct (movistar_alias_fixes_base sample_enlaces sample_titulos recon_start
              (sample_event "Lunes" "Movistar Plus+") eq_refl) as [Hbase Hrow].
  split; [exact Hbase|].
  destruct Hrow as [Hlinks _].
  - apply (bool_decide_unpack _). vm_compute. exact I.
  - apply (bool_decide_unpack _). vm_compute. exact I.
  - apply (bool_decide_unpack _). vm_compute. exact I.
  - exact Hlinks.
Defined.

(** C6. For an event whose matching yields a base title that is not the
    empty string (the guard [if closest_tvg_id:] holds), the loop tries
    base+720, base+1080 and
    then the base itself, in that order, and appends for each one the page
    lists a playable row: the link the dictionary holds for that title,
    which is the rewritten target of an anchor with that title, and the
    label sport, time, title and the variant in brackets.  The tests are
    independent, so an event yields up to three playable rows; when the
    page lists no variant, the row is the placeholder. *)
Theorem variants_fan_out
    (patrones : list (string * string)) (st : Recon) (program : Event)
    (base : string) :
  let enlaces := (index_anchors patrones).1 in
  let titulos := (index_anchors patrones).2 in
  closest_tvg_id titulos program = Some base →
  Py.truthy base = true →
  variants titulos base
  = filter (λ v, v ∈ titulos) [base +:+ "720"; base +:+ "1080"; base]
  ∧ length (variants titulos base) ≤ 3
  ∧ (∀ v, v ∈ variants titulos base →
       ∃ e t, (e, t) ∈ patrones ∧ Py.strip t = v
              ∧ enlace_of enlaces v = nuevo_enlace e)
  ∧ new_enlaces (reconcile_program enlaces titulos st program)
    = new_enlaces (mark_day st program)
        ++ match variants titulos base with
           | [] => [no_match_link program]
           | vs => enlace_of enlaces <$> vs
           end
  ∧ new_titulos (reconcile_program enlaces titulos st program)
    = new_titulos (mark_day st program)
        ++ match variants titulos base with
           | [] => [no_match_title program]
           | vs => (λ v, sport program +:+ " " +:+ time program +:+ " "
                           +:+ event program +:+ " (" +:+ v +:+ ")") <$> vs
           end.
Proof.
  intros enlaces titulos Hc Ht.
  split; [done|]. split; [apply variants_length|]. split.
  - intros v [Hv _]%list_elem_of_filter.
    destruct (index_anchors_listed patrones v Hv) as (e & t & Hin & Hs & Hl).
    exists e, t. split; [done|]. split; [done|].
    unfold enlace_of, enlaces. by rewrite Hl.
  - unfold reconcile_program.
    rewrite (resolve_matched enlaces titulos program _ base Hc Ht). done.
Qed.

Lemma variants_fan_out_witness :
  new_titulos (reconcile_program sample_enlaces sample_titulos recon_start
                 (sample_event "Lunes" "Real Madrid TV"))
  = ["# Lunes";
     "Futbol 21:00 Betis - Sevilla (RealMadridTV720)";
     "Futbol 21:00 Betis - Sevilla (RealMadridTV1080)";
     "Futbol 21:00 Betis - Sevilla (RealMadridTV)"]
  ∧ new_enlaces (reconcile_program sample_enlaces sample_titulos recon_start
                   (sample_event "Lunes" "Real Madrid TV"))
    = ["# Lunes";
       "plugin://script.module.horus?action=play&id=aaaa1111";
       "plugin://script.module.horus?action=play&id=bbbb2222";
       "plugin://script.module.horus?action=play&id=cccc3333"].
Proof.
  destruct (variants_fan_out (Re.findall sample_html) recon_start
              (sample_event "Lunes" "Real Madrid TV") "RealMadridTV")
    as (_ & _ & _ & Hlinks & Htitles).
  - vm_compute. reflexivity.
  - reflexivity.
  - split.
    + etrans; [exact Htitles|]. vm_compute. reflexivity.
    + etrans; [exact Hlinks|]. vm_compute. reflexivity.
Defined.

(** C6, the claim as stated fails for a base title that is the empty
    string.  An event without channel text, on a page with one anchor
    titled 720 and one without text, is matched to the empty pool entry:
    the matching yields a base title, the raw titles hold the base with
    720 and the base itself, and yet the guard [if closest_tvg_id:] fails
    as it does for no match, and the event gets no playable row. *)
Lemma empty_base_gets_no_playable_row :
  (index_anchors
     (Re.findall (anchor "aaaa1111" "720" +:+ anchor "bbbb2222" EmptyString))).2
  = ["720"; EmptyString]
  ∧ closest_tvg_id ["720"; EmptyString] (sample_event "Lunes" EmptyString)
    = Some EmptyString
  ∧ variants ["720"; EmptyString] EmptyString = ["720"; EmptyString]
  ∧ extract_program_links (sample_addon [sample_event "Lunes" EmptyString])
      (anchor "aaaa1111" "720" +:+ anchor "bbbb2222" EmptyString)
    = (["# Lunes"], ["# Lunes"]).
Proof. by vm_compute. Qed.

(** A match that is the empty string fails the guard as no match does: an
    event without channel text, on a page whose one anchor is titled 720,
    is matched to the empty pool entry and gets no row. *)
Example empty_base_is_skipped :
  closest_tvg_id ["720"] (sample_event "Lunes" EmptyString) = Some EmptyString
  ∧ extract_program_links (sample_addon [sample_event "Lunes" EmptyString])
      (anchor "aaaa1111" "720")
    = (["# Lunes"], ["# Lunes"]).
Proof. by vm_compute. Qed.

(** The run of [extract_program_links] on an event that no title is close
    to: the date comment and nothing else. *)
Example unmatched_event_run :
  extract_program_links (sample_addon [sample_event "Lunes" "Canal Sur"])
    sample_html
  = (["# Lunes"], ["# Lunes"]).
Proof. by vm_compute. Qed.

(** ** Runs of the acquisition pipeline *)

Section AcquireFacts.
Variable out : Outside.
Variable self : CoreAddon.
Variable dialog_interface : bool.

Lemma requests_app (t1 t2 : list Action) :
  requests (t1 ++ t2) = requests t1 ++ requests t2.
Proof. apply filter_app. Qed.

Lemma requests_cons_get (url : string) (proxies answer : option string)
    (t : list Action) :
  requests (RequestsGet url proxies answer :: t)
  = RequestsGet url proxies answer :: requests t.
Proof. done. Qed.

Lemma notification_run (heading message : string) (w : World) :
  ∃ new,
    notification dialog_interface heading message w
    = ((), {| trace := trace w ++ new; disk := disk w |})
    ∧ requests new = [].
Proof.
  unfold notification. destruct dialog_interface.
  - by exists [Notification heading message].
  - exists []. destruct w. simpl. by rewrite app_nil_r.
Qed.

Lemma store_run (content : string) (w : World) :
  store out self content w
  = (cache_data (snapshot_of self content (strftime out (trace w))),
     {| trace := trace w ++ [Strftime (strftime out (trace w))];
        disk := save_cache self
                  (cache_data (snapshot_of self content (strftime out (trace w))))
                  (disk w) |}).
Proof.
  unfold store, snapshot_of.
  destruct (extract_program_links self content) as [ee te].
  destruct (extract_channel_links content) as [ec tc]. done.
Qed.

Lemma try_proxies_nil (w : World) :
  ∃ n, try_proxies out dialog_interface [] w
       = (None, {| trace := trace w ++ n; disk := disk w |})
       ∧ requests n = [].
Proof.
  simpl. unfold mbind, IO_bind, mret, IO_ret.
  destruct (notification_run "Error"
              "Failed to retrieve content with all proxies." w)
    as (n & -> & Hn).
  by exists n.
Qed.

Lemma try_proxies_cons (p : string) (rest : list string) (w : World) :
  ∃ n, requests n = [] ∧
    let via := if Py.truthy p then Some p else None in
    let answer := requests_get out (trace w ++ n) url_selected via in
    let w2 := {| trace := (trace w ++ n) ++ [RequestsGet url_selected via answer];
                 disk := disk w |} in
    try_proxies out dialog_interface (p :: rest) w
    = if Py.truthy_opt answer then (Some answer, w2)
      else try_proxies out dialog_interface rest w2.
Proof.
  simpl. unfold mbind, IO_bind, mret, IO_ret.
  destruct (notification_run "Proxy" ("Trying proxy: " +:+ p) w)
    as (n & -> & Hn).
  exists n. split; [done|]. unfold get_web_content. simpl.
  by destruct (Py.truthy_opt
                 (requests_get out (trace w ++ n) url_selected
                    (if Py.truthy p then Some p else None))).
Qed.

(** The loop over the proxies asks the primary URL through proxies of the
    list and nothing else, leaves the files alone, and is left by [break]
    only with a page. *)
Lemma try_proxies_run (asian_proxies : list string) (w : World) :
  ∃ new,
    trace (try_proxies out dialog_interface asian_proxies w).2 = trace w ++ new
    ∧ disk (try_proxies out dialog_interface asian_proxies w).2 = disk w
    ∧ Forall (through_proxy_of asian_proxies) (requests new)
    ∧ ∀ content,
        (try_proxies out dialog_interface asian_proxies w).1 = Some content →
        Py.truthy_opt content = true.
Proof.
  revert w. induction asian_proxies as [|p rest IH]; intros w.
  - destruct (try_proxies_nil w) as (n & -> & Hn).
    exists n. simpl. rewrite Hn. done.
  - destruct (try_proxies_cons p rest w) as (n & Hn & Hrun). cbv zeta in Hrun.
    rewrite Hrun. clear Hrun.
    set (via := if Py.truthy p then Some p else None).
    set (answer := requests_get out (trace w ++ n) url_selected via).
    assert (Hthis : through_proxy_of (p :: rest) (RequestsGet url_selected via answer)).
    { exists p, answer. split; [left | done]. }
    destruct (Py.truthy_opt answer) eqn:Hans.
    + exists (n ++ [RequestsGet url_selected via answer]). simpl.
      rewrite (assoc_L (++)), requests_app, Hn. simpl.
      split; [done|]. split; [done|]. split; [by constructor|].
      intros content Heq. injection Heq as Heq. by rewrite <- Heq.
    + match goal with
      | |- context [try_proxies _ _ rest ?w2] =>
          destruct (IH w2) as (new & Ht & Hd & Hreq & Hres)
      end.
      exists (n ++ RequestsGet url_selected via answer :: new).
      rewrite Ht, Hd. simpl.
      split; [by rewrite <- !(assoc_L (++))|]. split; [done|]. split; [|done].
      rewrite requests_app, Hn. simpl.
      change (requests (RequestsGet url_selected via answer :: new))
        with (RequestsGet url_selected via answer :: requests new).
      constructor; [done|].
      eapply Forall_impl; [exact Hreq|].
      intros a (q & c & Hq & ->). exists q, c. split; [by right | done].
Qed.

(** When the primary URL never gives a page, the loop runs to its end. *)
Lemma try_proxies_exhausted (asian_proxies : list string) (w : World) :
  (∀ t via, Py.truthy_opt (requests_get out t url_selected via) = false) →
  (try_proxies out dialog_interface asian_proxies w).1 = None.
Proof.
  intros Hdown. revert w. induction asian_proxies as [|p rest IH]; intros w.
  - by destruct (try_proxies_nil w) as (n & -> & Hn).
  - destruct (try_proxies_cons p rest w) as (n & Hn & Hrun). cbv zeta in Hrun.
    rewrite Hrun, Hdown. apply IH.
Qed.

Lemma fallback_then_store_page (content : option string) (w : World) :
  Py.truthy_opt content = true →
  fallback_then_store out self dialog_interface content w
  = store out self (default EmptyString content) w.
Proof. intros H. unfold fallback_then_store. by rewrite H. Qed.

(** The shape of every run of [update_list]. *)
Lemma update_list_run (w : World) :
  ∃ new,
    let answer := urlopen_json out (trace w) PROXIES_URL in
    let run := update_list out self dialog_interface w in
    trace run.2 = trace w ++ UrlOpen PROXIES_URL answer :: new
    ∧ match default [] answer with
      | [] => requests new = [] ∧ run.1 = [] ∧ disk run.2 = disk w
      | _ :: _ =>
          ∃ content more,
            requests new = RequestsGet url_selected None content :: more
            ∧ (if Py.truthy_opt content then more = []
               else Forall (through_proxy_of
                              (filter_asian_proxies (default [] answer))) more)
            ∧ ((run.1 = [] ∧ disk run.2 = disk w)
               ∨ ∃ page stamp,
                   run.1 = cache_data (snapshot_of self page stamp)
                   ∧ disk run.2 = save_cache self run.1 (disk w))
      end.
Proof.
  cbv zeta.
  destruct (update_list out self dialog_interface w) as [d w'] eqn:Hrun.
  revert Hrun.
  unfold update_list, mbind, IO_bind, mret, IO_ret. unfold fetch_proxies.
  set (answer := urlopen_json out (trace w) PROXIES_URL).
  set (w0 := {| trace := trace w ++ [UrlOpen PROXIES_URL answer]; disk := disk w |}).
  destruct (default [] answer) as [|px proxies] eqn:Hpx.
  - destruct (notification_run "Error" "No proxies found." w0) as (n & -> & Hn).
    intros [= <- <-]. exists n. simpl. by rewrite <- (assoc_L (++)).
  - destruct (notification_run "Connection"
                "Attempting to connect without proxy" w0) as (n & -> & Hn).
    unfold get_web_content. subst w0. cbn [trace disk Py.truthy_opt].
    set (content := requests_get out ((trace w ++ [UrlOpen PROXIES_URL answer]) ++ n)
                      url_selected None).
    set (w1 := {| trace := _; disk := disk w |}).
    destruct (Py.truthy_opt content) eqn:Hc; cbn [negb]; cbv iota.
    + rewrite fallback_then_store_page, store_run by done.
      intros [= <- <-].
      exists (n ++ [RequestsGet url_selected None content]
                ++ [Strftime (strftime out (trace w1))]).
      simpl. split; [by rewrite <- !(assoc_L (++))|].
      exists content, []. rewrite !requests_app, Hn, Hc. simpl.
      split; [done|]. split; [done|]. right. eauto.
    + destruct (notification_run "Proxy"
                  "Attempting to connect using proxies" w1) as (n2 & -> & Hn2).
      match goal with
      | |- context [try_proxies _ _ ?l ?w2] =>
          destruct (try_proxies_run l w2) as (new & Ht & Hd & Hreq & Hres);
          destruct (try_proxies out dialog_interface l w2) as [[page|] w3]
      end; simpl in Ht, Hd, Hres.
      * rewrite fallback_then_store_page, store_run by (by apply Hres).
        intros [= <- <-].
        exists (n ++ [RequestsGet url_selected None content] ++ n2 ++ new
                  ++ [Strftime (strftime out (trace w3))]).
        simpl. rewrite Ht, Hd. simpl.
        split; [by rewrite <- !(assoc_L (++))|].
        exists content, (requests new).
        rewrite requests_app, Hn, requests_cons_get, !requests_app, Hn2, Hc. simpl.
        rewrite app_nil_r.
        split; [done|]. split; [done|]. right. eauto.
      * intros [= <- <-].
        exists (n ++ [RequestsGet url_selected None content] ++ n2 ++ new).
        simpl. rewrite Ht, Hd. simpl.
        split; [by rewrite <- !(assoc_L (++))|].
        exists content, (requests new).
        rewrite requests_app, Hn, requests_cons_get, !requests_app, Hn2, Hc. simpl.
        split; [done|]. split; [done|]. by left.
Qed.

Lemma update_list_exhausted (w : World) :
  (∀ t via, Py.truthy_opt (requests_get out t url_selected via) = false) →
  (update_list out self dialog_interface w).1 = [].
Proof.
  intros Hdown.
  unfold update_list, mbind, IO_bind, mret, IO_ret. unfold fetch_proxies.
  destruct (default [] (urlopen_json out (trace w) PROXIES_URL)) as [|px proxies].
  - match goal with
    | |- context [notification _ ?h ?m ?w0] =>
        destruct (notification_run h m w0) as (n & -> & Hn)
    end. done.
  - match goal with
    | |- context [notification _ ?h ?m ?w0] =>
        destruct (notification_run h m w0) as (n & -> & Hn)
    end.
    unfold get_web_content. rewrite Hdown. cbn [negb].
    match goal with
    | |- context [notification _ ?h ?m ?w0] =>
        destruct (notification_run h m w0) as (n2 & -> & Hn2)
    end.
    match goal with
    | |- context [try_proxies _ _ ?l ?w2] =>
        pose proof (try_proxies_exhausted l w2 Hdown) as Hex;
        destruct (try_proxies out dialog_interface l w2) as [r w3]
    end.
    simpl in Hex. by rewrite Hex.
Qed.

(** No run asks the secondary URL. *)
Lemma update_list_spares_secondary (w : World) :
  ∃ new,
    trace (update_list out self dialog_interface w).2 = trace w ++ new
    ∧ Forall (λ a, ¬ asks_secondary a) new.
Proof.
  destruct (update_list_run w) as (new & Ht & Hshape). cbv zeta in Ht, Hshape.
  eexists. split; [exact Ht|].
  constructor; [intros (p & c & [=])|].
  apply Forall_forall. intros a Ha (p & c & ->).
  assert (Hreq : RequestsGet secondary_url p c ∈ requests new)
    by (by apply list_elem_of_filter).
  destruct (default [] (urlopen_json out (trace w) PROXIES_URL)) as [|px proxies].
  - destruct Hshape as [Hnone _]. rewrite Hnone in Hreq.
    by apply not_elem_of_nil in Hreq.
  - destruct Hshape as (content & more & Hnew & Hmore & _).
    rewrite Hnew in Hreq. apply elem_of_cons in Hreq as [[=]|Hin].
    destruct (Py.truthy_opt content).
    + rewrite Hmore in Hin. by apply not_elem_of_nil in Hin.
    + rewrite Forall_forall in Hmore.
      destruct (Hmore _ Hin) as (q & c' & _ & [=]).
Qed.

End AcquireFacts.

(** ** Claims on the acquisition pipeline *)

(** C2, as amended.  On every run the first request is the fetch of the
    proxy list.  When that list is empty the run ends there, with the empty
    dictionary and without a fetch of the primary URL.  When it is not
    empty the next request is the direct fetch of the primary URL; if that
    gives a page no further request follows, and only if it fails do the
    fetches through the Asian proxies of the list follow. *)
Theorem proxy_list_is_fetched_first
    (out : Outside) (self : CoreAddon) (dialog_interface : bool) (w : World) :
  ∃ rest,
    let answer := urlopen_json out (trace w) PROXIES_URL in
    let run := update_list out self dialog_interface w in
    requests (trace run.2)
    = requests (trace w) ++ UrlOpen PROXIES_URL answer :: rest
    ∧ match default [] answer with
      | [] => rest = [] ∧ run.1 = []
      | _ :: _ =>
          ∃ content more,
            rest = RequestsGet url_selected None content :: more
            ∧ (if Py.truthy_opt content then more = []
               else Forall (through_proxy_of
                              (filter_asian_proxies (default [] answer))) more)
      end.
Proof.
  destruct (update_list_run out self dialog_interface w) as (new & Ht & Hshape).
  cbv zeta in Ht, Hshape. exists (requests new). cbv zeta.
  rewrite Ht, requests_app. split; [done|].
  destruct (default [] (urlopen_json out (trace w) PROXIES_URL)) as [|px proxies].
  - destruct Hshape as (Hn & Hd & _). done.
  - destruct Hshape as (content & more & Hnew & Hmore & _). eauto.
Qed.

(** C2, the claim as stated fails: with an empty proxy list the run returns
    the empty dictionary after the one request for that list, although the
    direct fetch of the primary URL, never made, would have given a page. *)
Lemma empty_proxy_list_blocks_direct_fetch :
  Py.truthy_opt (requests_get outside_without_proxies
                   [UrlOpen PROXIES_URL (Some [])] url_selected None) = true
  ∧ (update_list outside_without_proxies (sample_addon []) false fresh_world).1 = []
  ∧ trace (update_list outside_without_proxies (sample_addon []) false fresh_world).2
    = [UrlOpen PROXIES_URL (Some [])].
Proof. by vm_compute. Qed.

(** C3 (the code departs from the claim here).  When the primary URL gives
    no page, neither directly nor through any proxy, the run returns the
    empty dictionary and has not asked the secondary URL: the [else] branch
    of the loop over the proxies returns before lines 334-344 are reached,
    and those lines are reached only with a page in hand.  The fallback
    attempt of the claim is never made. *)
Theorem secondary_url_is_never_asked
    (out : Outside) (self : CoreAddon) (dialog_interface : bool) (w : World) :
  (∀ t via, Py.truthy_opt (requests_get out t url_selected via) = false) →
  (update_list out self dialog_interface w).1 = []
  ∧ ∃ new,
      trace (update_list out self dialog_interface w).2 = trace w ++ new
      ∧ Forall (λ a, ¬ asks_secondary a) new.
Proof.
  intros Hdown. split.
  - by apply update_list_exhausted.
  - apply update_list_spares_secondary.
Qed.

Lemma secondary_url_is_never_asked_witness :
  Py.truthy_opt (requests_get outside_primary_down [] secondary_url None) = true
  ∧ (update_list outside_primary_down (sample_addon []) true fresh_world).1 = []
  ∧ ∃ new,
      trace (update_list outside_primary_down (sample_addon []) true fresh_world).2
      = trace fresh_world ++ new
      ∧ Forall (λ a, ¬ asks_secondary a) new.
Proof.
  split; [reflexivity|].
  apply (secondary_url_is_never_asked outside_primary_down (sample_addon []) true
           fresh_world).
  intros t via. reflexivity.
Defined.

(** The run of the witness, request by request. *)
Example primary_down_run :
  requests (trace (update_list outside_primary_down (sample_addon []) true
                     fresh_world).2)
  = [UrlOpen PROXIES_URL (Some [european_proxy; asian_proxy]);
     RequestsGet url_selected None None;
     RequestsGet url_selected (Some "http://203.0.113.7:8080") None].
Proof. by vm_compute. Qed.

(** ** Day separators *)

Lemma separator_days_app (r1 r2 : list ReconciledEntry) :
  separator_days (r1 ++ r2) = separator_days r1 ++ separator_days r2.
Proof. apply omap_app. Qed.

Lemma separator_days_program (titulos : list string) (program : Event) :
  separator_days (program_entries titulos program) = [].
Proof.
  unfold program_entries.
  destruct (closest_tvg_id titulos program) as [c|]; [|done].
  destruct (Py.truthy c); [|done].
  destruct (variants titulos c) as [|v vs]; [done|].
  unfold separator_days. generalize (v :: vs). intros l.
  induction l as [|x l IH]; [done|]. simpl. exact IH.
Qed.

Lemma separator_days_runs (titulos : list string) (programs : list Event)
    (last : option string) :
  separator_days (reconciled_entries titulos last programs)
  = runs_from last (day <$> programs).
Proof.
  revert last. induction programs as [|p ps IH]; intros last; [done|].
  simpl. rewrite !separator_days_app, separator_days_program, IH.
  unfold day_entries. by destruct (decide (Some (day p) ≠ last)).
Qed.

(** Where the days are contiguous, the runs are the distinct days. *)
Lemma runs_first_seen (l : list string) (seen seen' : list string)
    (last : option string) :
  (∀ x, x ∈ seen ↔ x ∈ seen') →
  (∀ d, last = Some d → d ∈ seen) →
  contiguous_from seen last l →
  runs_from last l = first_seen_from seen' l.
Proof.
  revert seen seen' last.
  induction l as [|d l IH]; intros seen seen' last Heq Hlast Hc; [done|].
  simpl in *. destruct Hc as [Hd Hc].
  destruct (decide (Some d ≠ last)) as [Hne|He].
  - destruct Hd as [Hd|Hd]; [done|].
    rewrite decide_False by (by rewrite <- Heq).
    f_equal. apply (IH (d :: seen)); [|by intros ? [= ->]; left|done].
    intros x. rewrite !elem_of_cons, Heq. done.
  - assert (Hin : d ∈ seen).
    { apply Hlast. by destruct (decide (Some d = last)). }
    rewrite decide_True by (by rewrite <- Heq).
    apply (IH (d :: seen)); [|by intros ? [= ->]; left|done].
    intros x. rewrite elem_of_cons, <- Heq. split; [by intros [->|?]|by right].
Qed.

(** C4, as amended.  The rows of [extract_program_links] are the tagged
    rows, and their separators are one for each run of consecutive events
    of one day: a separator is written when the day of the event differs
    from the day of the event before it.  Where the events of each day are
    contiguous in the schedule this is exactly one separator for each
    distinct day, in the order the days are first seen. *)
Theorem day_separator_for_each_run
    (enlaces : gmap string string) (titulos : list string)
    (programs : list Event) :
  let rows := reconciled_entries titulos None programs in
  new_enlaces (reconcile enlaces titulos programs) = entry_link enlaces <$> rows
  ∧ new_titulos (reconcile enlaces titulos programs) = entry_title <$> rows
  ∧ separator_days rows = runs (day <$> programs)
  ∧ (contiguous (day <$> programs) →
     separator_days rows = first_seen (day <$> programs)).
Proof.
  cbv zeta. destruct (reconcile_rows enlaces titulos programs) as [H1 H2].
  split; [done|]. split; [done|].
  rewrite separator_days_runs. split; [done|].
  intros Hc. by apply (runs_first_seen _ [] []).
Qed.

Lemma day_separator_for_each_run_witness :
  separator_days (reconciled_entries sample_titulos None grouped_schedule)
  = first_seen (day <$> grouped_schedule).
Proof.
  destruct (day_separator_for_each_run sample_enlaces sample_titulos
              grouped_schedule) as (_ & _ & _ & Hdays).
  apply Hdays. simpl. repeat split.
  - right. apply not_elem_of_nil.
  - by left.
  - right. apply (bool_decide_unpack _). vm_compute. exact I.
Defined.

(** C4, the claim as stated fails: the schedule page with the day blocks
    Lunes, Martes, Lunes gives three separators, two of them for Lunes,
    where the distinct days are two. *)
Lemma interleaved_days_repeat_separator :
  get_tv_programs (Some interleaved_page) = interleaved_schedule
  ∧ (extract_program_links (sample_addon interleaved_schedule) sample_html).1
    = ["# Lunes";
       "plugin://script.module.horus?action=play&id=aaaa1111";
       "plugin://script.module.horus?action=play&id=bbbb2222";
       "plugin://script.module.horus?action=play&id=cccc3333";
       "# Martes";
       "plugin://script.module.horus?action=play&id=dddd4444";
       "# Lunes";
       "plugin://script.module.horus?action=play&id=dddd4444"]
  ∧ separator_days
      (reconciled_entries sample_titulos None interleaved_schedule)
    = ["Lunes"; "Martes"; "Lunes"]
  ∧ first_seen (day <$> interleaved_schedule) = ["Lunes"; "Martes"]
  ∧ separator_days
      (reconciled_entries sample_titulos None interleaved_schedule)
    ≠ first_seen (day <$> interleaved_schedule).
Proof. by vm_compute. Qed.

(** ** The parallel lists *)

Lemma extract_program_links_rows (self : CoreAddon) (html : string) :
  let enlaces := (index_anchors (Re.findall html)).1 in
  let titulos := (index_anchors (Re.findall html)).2 in
  let rows := reconciled_entries titulos None (tv_programs self) in
  extract_program_links self html
  = (entry_link enlaces <$> rows, entry_title <$> rows).
Proof.
  cbv zeta. unfold extract_program_links.
  destruct (index_anchors (Re.findall html)) as [enlaces titulos]. simpl.
  destruct (reconcile_rows enlaces titulos (tv_programs self)) as [-> ->]. done.
Qed.

Lemma foldl_add_channel (patrones : list (string * string))
    (st : list string * list string) :
  foldl add_channel st patrones
  = (st.1 ++ ((λ p, nuevo_enlace p.1) <$> patrones),
     st.2 ++ ((λ p, Py.strip p.2 +:+ " " +:+ ultimos_digitos p.1) <$> patrones)).
Proof.
  revert st. induction patrones as [|[e t] l IH]; intros [enl tit]; simpl.
  - by rewrite !app_nil_r.
  - rewrite IH. simpl. by rewrite <- !(assoc_L (++)).
Qed.

Lemma extract_channel_links_rows (html : string) :
  extract_channel_links html
  = ((λ p, nuevo_enlace p.1) <$> Re.findall html,
     (λ p, Py.strip p.2 +:+ " " +:+ ultimos_digitos p.1) <$> Re.findall html).
Proof. unfold extract_channel_links. by rewrite foldl_add_channel. Qed.

(** C8. The parallel lists stay aligned.  Each turn of the loop of
    [extract_program_links] appends the link and the title of the same
    rows to [new_enlaces] and [new_titulos]; each turn of the loop of
    [extract_channel_links] appends one link and one title, both of the
    same anchor.  So the two lists that either function returns have the
    same length and position i of both comes from the same row, and every
    dictionary that [update_list] returns is empty or is the [cache_data]
    of a snapshot whose event lists have one length and whose channel
    lists have one length. *)
Theorem parallel_lists_stay_aligned :
  (∀ enlaces titulos st program,
      ∃ rows,
        new_enlaces (reconcile_program enlaces titulos st program)
        = new_enlaces st ++ (entry_link enlaces <$> rows)
        ∧ new_titulos (reconcile_program enlaces titulos st program)
          = new_titulos st ++ (entry_title <$> rows))
  ∧ (∀ st enlace titulo,
        ∃ link title,
          add_channel st (enlace, titulo) = (st.1 ++ [link], st.2 ++ [title]))
  ∧ (∀ self html,
        ∃ enlaces rows,
          extract_program_links self html
          = (entry_link enlaces <$> rows, entry_title <$> rows)
          ∧ length (extract_program_links self html).1
            = length (extract_program_links self html).2)
  ∧ (∀ html,
        extract_channel_links html
        = ((λ p, nuevo_enlace p.1) <$> Re.findall html,
           (λ p, Py.strip p.2 +:+ " " +:+ ultimos_digitos p.1) <$> Re.findall html)
        ∧ length (extract_channel_links html).1
          = length (extract_channel_links html).2)
  ∧ (∀ out self dialog_interface w,
        (update_list out self dialog_interface w).1 = []
        ∨ ∃ s, (update_list out self dialog_interface w).1 = cache_data s
               ∧ length (enlaces_eventos s) = length (titulos_eventos s)
               ∧ length (enlaces_canal s) = length (titulos_canal s)).
Proof.
  split; [|split; [|split; [|split]]].
  - intros enlaces titulos st program. eexists.
    rewrite reconcile_program_rows. simpl. done.
  - intros [enl tit] enlace titulo. simpl. eauto.
  - intros self html. eexists _, _.
    rewrite extract_program_links_rows. simpl.
    split; [done|]. by rewrite !length_fmap.
  - intros html. rewrite extract_channel_links_rows. simpl.
    split; [done|]. by rewrite !length_fmap.
  - intros out self dialog_interface w.
    destruct (update_list_run out self dialog_interface w) as (new & _ & Hshape).
    cbv zeta in Hshape.
    destruct (default [] (urlopen_json out (trace w) PROXIES_URL)) as [|px proxies].
    + left. by destruct Hshape as (_ & ? & _).
    + destruct Hshape as (content & more & _ & _ & [[Hd _]|(page & stamp & Hd & _)]);
        [by left|].
      right. exists (snapshot_of self page stamp). split; [done|]. simpl.
      rewrite extract_program_links_rows, extract_channel_links_rows. simpl.
      by rewrite !length_fmap.
Qed.

(** ** The schedule parser *)

Section ScheduleFacts.
Lemma add_event_row (d : string)
    (st : list Event * gset (string * string * string * string))
    (row : EventRow) :
  add_event d st row = add_row st (row_event d row).
Proof. by destruct st. Qed.

Lemma add_day_section_rows
    (st : list Event * gset (string * string * string * string))
    (day_section : DaySection) :
  add_day_section st day_section = foldl add_row st (section_events day_section).
Proof.
  unfold add_day_section, section_events.
  destruct (title_section_widget day_section) as [t|]; [|done].
  rewrite foldl_fmap. revert st.
  induction (dailyevents day_section) as [|row rows IH]; intros st; [done|].
  simpl. by rewrite add_event_row, IH.
Qed.

Lemma foldl_add_day_section (sections : list DaySection)
    (st : list Event * gset (string * string * string * string)) :
  foldl add_day_section st sections
  = foldl add_row st (concat (section_events <$> sections)).
Proof.
  revert st. induction sections as [|s l IH]; intros st; [done|].
  simpl. by rewrite foldl_app, IH, add_day_section_rows.
Qed.

(** What the loop has built after the rows [rows]. *)
Lemma foldl_add_row_invariant (rows : list Event) :
  let st := foldl add_row ([], ∅) rows in
  (∀ x, x ∈ st.2 ↔ x ∈ event_id <$> rows)
  ∧ (∀ x, x ∈ event_id <$> st.1 ↔ x ∈ st.2)
  ∧ NoDup (event_id <$> st.1)
  ∧ sublist st.1 rows
  ∧ (∀ r, r ∈ rows → ∃ e, first_with_id rows r = Some e ∧ e ∈ st.1).
Proof.
  cbv zeta. induction rows as [|r rows IH] using rev_ind.
  - simpl. split; [intros x; by rewrite elem_of_empty, elem_of_nil|].
    split; [intros x; by rewrite elem_of_empty, elem_of_nil|].
    split; [constructor|]. split; [done|]. intros r Hr.
    by apply not_elem_of_nil in Hr.
  - rewrite foldl_snoc.
    destruct (foldl add_row ([], ∅) rows) as [evs seen]. simpl in IH.
    destruct IH as (Hseen & Hevs & Hnd & Hsub & Hfirst).
    unfold add_row. simpl.
    assert (Hfirst' : ∀ x, x ∈ rows →
              first_with_id (rows ++ [r]) x = first_with_id rows x).
    { intros x Hx. unfold first_with_id. rewrite filter_app.
      destruct (filter (λ y, event_id y = event_id x) rows) as [|y l] eqn:Hf; [|done].
      assert (x ∈ filter (λ y, event_id y = event_id x) rows)
        by (by apply list_elem_of_filter).
      rewrite Hf in *. by apply not_elem_of_nil in H. }
    destruct (decide (event_id r ∉ seen)) as [Hnew|Hold]; simpl.
    + split; [|split; [|split; [|split]]].
      * intros x.
        rewrite fmap_app, elem_of_app, elem_of_union, Hseen, elem_of_singleton.
        simpl. by rewrite list_elem_of_singleton.
      * intros x.
        rewrite fmap_app, elem_of_app, elem_of_union, Hevs, elem_of_singleton.
        simpl. by rewrite list_elem_of_singleton.
      * rewrite fmap_app. apply NoDup_app. split; [done|]. split.
        -- intros x Hx ->%list_elem_of_singleton. apply Hnew. by apply Hevs.
        -- apply NoDup_singleton.
      * by apply sublist_app.
      * intros x [Hx| ->%list_elem_of_singleton]%elem_of_app.
        -- rewrite Hfirst' by done. destruct (Hfirst x Hx) as (e & He & Hin).
           exists e. split; [done|]. apply elem_of_app. by left.
        -- exists r. split; [|apply elem_of_app; right; left].
           unfold first_with_id. rewrite filter_app.
           destruct (filter (λ x, event_id x = event_id r) rows) as [|y l] eqn:Hf.
           ++ simpl. rewrite filter_cons. by rewrite decide_True.
           ++ assert (Hy : y ∈ filter (λ x, event_id x = event_id r) rows)
                by (rewrite Hf; left).
              apply list_elem_of_filter in Hy as [Heq Hy].
              exfalso. apply Hnew, Hseen.
              rewrite <- Heq. apply list_elem_of_fmap. eauto.
    + apply dec_stable in Hold.
      split; [|split; [|split; [|split]]].
      * intros x. rewrite fmap_app, elem_of_app, Hseen. simpl.
        rewrite list_elem_of_singleton. split; [by left|].
        intros [?| ->]; [done|]. by apply Hseen.
      * done.
      * done.
      * by apply sublist_inserts_r.
      * intros x [Hx| ->%list_elem_of_singleton]%elem_of_app.
        -- rewrite Hfirst' by done. by apply Hfirst.
        -- apply Hseen in Hold. apply list_elem_of_fmap in Hold as (y & Hy & Hin).
           unfold first_with_id. rewrite filter_app.
           destruct (Hfirst y Hin) as (e & He & Hine).
           unfold first_with_id in He. rewrite <- Hy in He.
           exists e. split; [|done].
           destruct (filter (λ x, event_id x = event_id r) rows); [done|].
           done.
Qed.

Lemma NoDup_fmap_eq {A B : Type} (f : A → B) (l : list A) (x y : A) :
  NoDup (f <$> l) → x ∈ l → y ∈ l → f x = f y → x = y.
Proof.
  induction l as [|z l IH]; simpl; [by intros _ ?%not_elem_of_nil|].
  intros [Hz Hnd]%NoDup_cons [->|Hx]%elem_of_cons [->|Hy]%elem_of_cons Hf.
  - done.
  - exfalso. apply Hz. rewrite Hf. by apply list_elem_of_fmap_2.
  - exfalso. apply Hz. rewrite <- Hf. by apply list_elem_of_fmap_2.
  - by apply IH.
Qed.

Lemma first_with_id_same (rows : list Event) (r e : Event) :
  first_with_id rows r = Some e → event_id e = event_id r ∧ e ∈ rows.
Proof.
  unfold first_with_id.
  destruct (filter (λ x, event_id x = event_id r) rows) as [|y l] eqn:Hf; [done|].
  intros [= <-].
  assert (Hy : y ∈ filter (λ x, event_id x = event_id r) rows)
    by (rewrite Hf; left).
  by apply list_elem_of_filter in Hy.
Qed.

End ScheduleFacts.

(** C7. The schedule parser never yields two events with the same day,
    time, title and channel.  Its events are rows of the page in the
    order of the page; for every row that was read, exactly one event has
    the identity of the row, and that event is the first row of the page
    with this identity. *)
Theorem schedule_parser_deduplicates :
  (∀ page, NoDup (event_id <$> get_tv_programs page))
  ∧ (∀ day_sections,
        sublist (get_tv_programs (Some day_sections)) (scraped_rows day_sections))
  ∧ (∀ day_sections r,
        r ∈ scraped_rows day_sections →
        ∃ e, e ∈ get_tv_programs (Some day_sections)
             ∧ event_id e = event_id r
             ∧ first_with_id (scraped_rows day_sections) r = Some e
             ∧ ∀ e', e' ∈ get_tv_programs (Some day_sections) →
                     event_id e' = event_id r → e' = e).
Proof.
  assert (Hinv : ∀ day_sections,
    let events := get_tv_programs (Some day_sections) in
    let rows := scraped_rows day_sections in
    NoDup (event_id <$> events) ∧ sublist events rows
    ∧ (∀ r, r ∈ rows → ∃ e, first_with_id rows r = Some e ∧ e ∈ events)).
  { intros day_sections. cbv zeta.
    unfold get_tv_programs, parse_tv_programs, scraped_rows.
    rewrite foldl_add_day_section.
    destruct (foldl_add_row_invariant
                (concat (section_events <$> drop 1 day_sections)))
      as (_ & _ & Hnd & Hsub & Hfirst).
    done. }
  split; [|split].
  - intros [day_sections|]; [apply Hinv | constructor].
  - intros day_sections. apply Hinv.
  - intros day_sections r Hr.
    destruct (Hinv day_sections) as (Hnd & _ & Hfirst).
    destruct (Hfirst r Hr) as (e & He & Hin).
    destruct (first_with_id_same _ _ _ He) as [Hid _].
    exists e. split; [done|]. split; [done|]. split; [done|].
    intros e' Hin' Hid'. apply (NoDup_fmap_eq event_id _ _ _ Hnd Hin' Hin).
    by rewrite Hid.
Qed.

Lemma schedule_parser_deduplicates_witness :
  get_tv_programs (Some repeated_page)
  = [sample_event "Lunes" "DAZN"; sample_event "Lunes" "Real Madrid TV"]
  ∧ ∃ e, e ∈ get_tv_programs (Some repeated_page)
         ∧ event_id e = event_id (row_event "Lunes" (sample_row "DAZN"))
         ∧ first_with_id (scraped_rows repeated_page)
             (row_event "Lunes" (sample_row "DAZN")) = Some e
         ∧ ∀ e', e' ∈ get_tv_programs (Some repeated_page) →
                 event_id e' = event_id (row_event "Lunes" (sample_row "DAZN")) →
                 e' = e.
Proof.
  split; [reflexivity|].
  apply (proj2 (proj2 schedule_parser_deduplicates) repeated_page
           (row_event "Lunes" (sample_row "DAZN"))).
  left.
Defined.

(** ** The JSON text read back *)

Section JsonFacts.
Import Json.

Lemma scanstring_escape_char (c : ascii) (k : string) :
  scanstring (escape_char c k) = push c (scanstring k).
Proof. destruct c as [[] [] [] [] [] [] [] []]; reflexivity. Qed.

Lemma scanstring_escape (s k : string) :
  scanstring (escape s (String dquote k)) = Some (s, k).
Proof.
  induction s as [|c s IH]; [done|].
  cbn [escape]. by rewrite scanstring_escape_char, IH.
Qed.

Lemma skip_ws_spaces (n : nat) (k : string) : skip_ws (spaces n k) = skip_ws k.
Proof. induction n as [|n IH]; [done|]. exact IH. Qed.

Lemma skip_ws_newline_indent (level : nat) (k : string) :
  skip_ws (newline_indent level k) = skip_ws k.
Proof. unfold newline_indent. cbn [skip_ws]. apply skip_ws_spaces. Qed.

Lemma dump_items_more (level : nat) (x y : string) (items : list string)
    (k : string) :
  dump_items level (x :: y :: items) k
  = dump_string x
      (String "," (newline_indent level (dump_items level (y :: items) k))).
Proof. done. Qed.

Lemma dump_items_head (level : nat) (x : string) (items : list string)
    (k : string) :
  ∃ r, dump_items level (x :: items) k = String dquote r.
Proof. destruct items; simpl; eauto. Qed.

(** Reading one string and the character behind it. *)
Lemma parse_items_step (f : nat) (x r : string) :
  parse_items (S f) (dump_string x r)
  = match skip_ws r with
    | String d r' =>
        if Ascii.eqb d ","%char then
          match parse_items f (skip_ws r') with
          | Some (l, r'') => Some (x :: l, r'')
          | None => None
          end
        else if Ascii.eqb d "]"%char then Some ([x], r')
        else None
    | EmptyString => None
    end.
Proof.
  unfold dump_string. cbn [parse_items].
  change (Ascii.eqb dquote dquote) with true. cbv iota.
  by rewrite scanstring_escape.
Qed.

Lemma parse_items_dump (level back : nat) (items : list string) (x : string)
    (k : string) (fuel : nat) :
  length (x :: items) ≤ fuel →
  parse_items fuel
    (dump_items level (x :: items) (newline_indent back (String "]" k)))
  = Some (x :: items, k).
Proof.
  revert x fuel. induction items as [|y items IH]; intros x fuel Hfuel.
  - destruct fuel as [|f]; [simpl in Hfuel; lia|].
    cbn [dump_items]. rewrite parse_items_step, skip_ws_newline_indent. done.
  - destruct fuel as [|f]; [simpl in Hfuel; lia|].
    rewrite dump_items_more, parse_items_step.
    cbn [skip_ws]. change (is_ws ",") with false. cbv iota.
    change (Ascii.eqb "," ",")%char with true. cbv iota.
    rewrite skip_ws_newline_indent.
    destruct (dump_items_head level y items
                (newline_indent back (String "]" k))) as [r Hr].
    assert (Hskip : skip_ws (String dquote r) = String dquote r) by done.
    rewrite Hr, Hskip, <- Hr, IH by (simpl in *; lia). done.
Qed.

Lemma parse_value_dump (level : nat) (v : value) (k : string) (fuel : nat) :
  value_items v ≤ fuel →
  parse_value fuel (dump_value level v k) = Some (v, k).
Proof.
  intros Hfuel. destruct v as [s|[|x items]].
  - unfold dump_value, dump_string, parse_value.
    change (Ascii.eqb dquote dquote) with true. cbv iota.
    by rewrite scanstring_escape.
  - done.
  - unfold dump_value, parse_value.
    change (Ascii.eqb "[" dquote) with false.
    change (Ascii.eqb "[" "[")%char with true. cbv iota.
    rewrite skip_ws_newline_indent.
    destruct (dump_items_head (S level) x items
                (newline_indent level (String "]" k))) as [r Hr].
    assert (Hskip : skip_ws (String dquote r) = String dquote r) by done.
    rewrite Hr, Hskip.
    change (Ascii.eqb dquote "]") with false. cbv iota.
    rewrite <- Hr, parse_items_dump by done. done.
Qed.

Lemma dump_value_head (level : nat) (v : value) (k : string) :
  skip_ws (dump_value level v k) = dump_value level v k.
Proof. by destruct v as [s|[|x items]]. Qed.

Lemma dump_members_more (level : nat) (kv kv' : string * value) (d : dict)
    (k : string) :
  dump_members level (kv :: kv' :: d) k
  = dump_member level kv
      (String "," (newline_indent level (dump_members level (kv' :: d) k))).
Proof. done. Qed.

Lemma dump_members_head (level : nat) (kv : string * value) (d : dict)
    (k : string) :
  ∃ r, dump_members level (kv :: d) k = String dquote r.
Proof. destruct d; simpl; eauto. Qed.

(** Reading one member and the character behind it. *)
Lemma parse_members_step (level f : nat) (kv : string * value) (r : string) :
  value_items kv.2 ≤ f →
  parse_members (S f) (dump_member level kv r)
  = match skip_ws r with
    | String d r3 =>
        if Ascii.eqb d ","%char then
          match parse_members f (skip_ws r3) with
          | Some (l, r4) => Some (kv :: l, r4)
          | None => None
          end
        else if Ascii.eqb d "}"%char then Some ([kv], r3)
        else None
    | EmptyString => None
    end.
Proof.
  intros Hf. destruct kv as [key v]. unfold dump_member, dump_string.
  cbn [parse_members fst snd].
  change (Ascii.eqb dquote dquote) with true. cbv iota.
  rewrite scanstring_escape. cbn [skip_ws].
  change (is_ws ":") with false. cbv iota.
  change (Ascii.eqb ":" ":")%char with true. cbv iota.
  change (skip_ws (String " " (dump_value level v r)))
    with (skip_ws (dump_value level v r)).
  rewrite dump_value_head, parse_value_dump by done. done.
Qed.

Lemma parse_members_dump (level back : nat) (d : dict) (kv : string * value)
    (fuel : nat) :
  members_weight (kv :: d) ≤ fuel →
  parse_members fuel
    (dump_members level (kv :: d) (newline_indent back "}"))
  = Some (kv :: d, EmptyString).
Proof.
  revert kv fuel. induction d as [|kv' d IH]; intros kv fuel Hfuel.
  - destruct fuel as [|f]; [simpl in Hfuel; lia|].
    cbn [dump_members]. unfold members_weight in Hfuel. simpl in Hfuel.
    rewrite parse_members_step, skip_ws_newline_indent by lia. done.
  - destruct fuel as [|f]; [simpl in Hfuel; lia|].
    unfold members_weight in Hfuel. simpl in Hfuel.
    rewrite dump_members_more, parse_members_step by lia.
    cbn [skip_ws]. change (is_ws ",") with false. cbv iota.
    change (Ascii.eqb "," ",")%char with true. cbv iota.
    rewrite skip_ws_newline_indent.
    destruct (dump_members_head level kv' d (newline_indent back "}")) as [r Hr].
    assert (Hskip : skip_ws (String dquote r) = String dquote r) by done.
    rewrite Hr, Hskip, <- Hr, IH; [done|].
    unfold members_weight. simpl. lia.
Qed.

(** The text is at least as long as the fuel the decoder needs. *)
Lemma escape_char_app (c : ascii) (k : string) :
  escape_char c k = escape_char c EmptyString +:+ k.
Proof. destruct c as [[] [] [] [] [] [] [] []]; reflexivity. Qed.

Lemma length_escape_char (c : ascii) (k : string) :
  String.length k < String.length (escape_char c k).
Proof.
  rewrite escape_char_app, str_length_app.
  assert (0 < String.length (escape_char c EmptyString)); [|lia].
  destruct c as [[] [] [] [] [] [] [] []]; vm_compute; lia.
Qed.

Lemma length_escape (s k : string) :
  String.length k ≤ String.length (escape s k).
Proof.
  induction s as [|c s IH]; simpl; [lia|].
  pose proof (length_escape_char c (escape s k)). lia.
Qed.

Lemma length_dump_string (s k : string) :
  2 + String.length k ≤ String.length (dump_string s k).
Proof.
  unfold dump_string. simpl.
  pose proof (length_escape s (String dquote k)). simpl in *. lia.
Qed.

Lemma length_spaces (n : nat) (k : string) :
  String.length (spaces n k) = n + String.length k.
Proof. induction n as [|n IH]; simpl; [done | by rewrite IH]. Qed.

Lemma length_newline_indent (level : nat) (k : string) :
  String.length k ≤ String.length (newline_indent level k).
Proof.
  unfold newline_indent. cbn [String.length]. rewrite length_spaces. lia.
Qed.

Lemma length_dump_items (level : nat) (items : list string) (k : string) :
  length items + String.length k ≤ String.length (dump_items level items k).
Proof.
  induction items as [|x items IH]; [cbn; lia|].
  destruct items as [|y items].
  - cbn [dump_items]. pose proof (length_dump_string x k). cbn [length]. lia.
  - rewrite dump_items_more.
    pose proof (length_dump_string x
      (String "," (newline_indent level (dump_items level (y :: items) k)))).
    pose proof (length_newline_indent level (dump_items level (y :: items) k)).
    cbn [length String.length fst snd value_items sum_list_with] in *. lia.
Qed.

Lemma length_dump_value (level : nat) (v : value) (k : string) :
  value_items v + String.length k ≤ String.length (dump_value level v k).
Proof.
  destruct v as [s|[|x items]].
  - cbn [dump_value value_items]. pose proof (length_dump_string s k). lia.
  - cbn. lia.
  - unfold dump_value.
    pose proof (length_dump_items (S level) (x :: items)
                  (newline_indent level (String "]" k))).
    pose proof (length_newline_indent level (String "]" k)).
    pose proof (length_newline_indent (S level)
                  (dump_items (S level) (x :: items)
                     (newline_indent level (String "]" k)))).
    cbn [length String.length fst snd value_items sum_list_with] in *. lia.
Qed.

Lemma length_dump_member (level : nat) (kv : string * value) (k : string) :
  S (value_items kv.2) + String.length k
  ≤ String.length (dump_member level kv k).
Proof.
  unfold dump_member.
  pose proof (length_dump_string kv.1
                (String ":" (String " " (dump_value level kv.2 k)))).
  pose proof (length_dump_value level kv.2 k).
  cbn [length String.length fst snd value_items sum_list_with] in *. lia.
Qed.

Lemma length_dump_members (level : nat) (d : dict) (k : string) :
  members_weight d + String.length k
  ≤ String.length (dump_members level d k).
Proof.
  induction d as [|kv d IH]; [cbn; lia|].
  destruct d as [|kv' d].
  - cbn [dump_members]. pose proof (length_dump_member level kv k).
    unfold members_weight. cbn [length String.length fst snd value_items sum_list_with] in *. lia.
  - rewrite dump_members_more.
    pose proof (length_dump_member level kv
      (String "," (newline_indent level (dump_members level (kv' :: d) k)))).
    pose proof (length_newline_indent level (dump_members level (kv' :: d) k)).
    unfold members_weight in *.
    cbn [length String.length fst snd value_items sum_list_with] in *. lia.
Qed.

Lemma dict_set_fresh (key : string) (v : value) (d : dict) :
  key ∉ d.*1 → dict_set key v d = d ++ [(key, v)].
Proof.
  induction d as [|[k' v'] d IH]; [done|].
  simpl. intros [Hne Hd]%not_elem_of_cons.
  rewrite decide_False by done. by rewrite IH.
Qed.

Lemma foldl_dict_set (pairs acc : dict) :
  NoDup ((acc ++ pairs).*1) →
  foldl (λ d kv, dict_set kv.1 kv.2 d) acc pairs = acc ++ pairs.
Proof.
  revert acc. induction pairs as [|[key v] pairs IH]; intros acc Hnd; simpl.
  - by rewrite app_nil_r.
  - rewrite dict_set_fresh.
    + rewrite IH; rewrite <- (assoc_L (++)); done.
    + rewrite fmap_app in Hnd. apply NoDup_app in Hnd as (_ & Hdis & _).
      intros Hin. apply (Hdis _ Hin). simpl. left.
Qed.

(** What [json.dump] writes, [json.load] reads back. *)
Lemma loads_dumps (d : dict) : NoDup (d.*1) → loads (dumps d) = Some d.
Proof.
  intros Hnd. destruct d as [|kv d]; [done|].
  unfold dumps, loads. cbn [skip_ws]. change (is_ws "{") with false. cbv iota.
  change (Ascii.eqb "{" "{")%char with true. cbv iota.
  rewrite skip_ws_newline_indent.
  destruct (dump_members_head 1 kv d (newline_indent 0 "}")) as [r Hr].
  assert (Hskip : skip_ws (String dquote r) = String dquote r) by done.
  rewrite Hr, Hskip. change (Ascii.eqb dquote "}") with false. cbv iota.
  rewrite <- Hr, parse_members_dump.
  - cbn [skip_ws]. unfold dict_of_pairs. by rewrite foldl_dict_set.
  - pose proof (length_dump_members 1 (kv :: d) (newline_indent 0 "}")).
    pose proof (length_newline_indent 1
                  (dump_members 1 (kv :: d) (newline_indent 0 "}"))).
    cbn [String.length]. lia.
Qed.

End JsonFacts.

(** ** The cache store *)

Lemma cache_data_keys (s : Snapshot) : NoDup ((cache_data s).*1).
Proof.
  change (NoDup ["enlaces_eventos"; "titulos_eventos"; "enlaces_canal";
                 "titulos_canal"; "origen"; "fecha"]).
  apply (bool_decide_unpack _). by vm_compute.
Qed.

(** A dictionary with distinct keys that was saved is the one loaded, when
    the file can be opened. *)
Lemma load_after_save (self : CoreAddon) (fs : FileSystem) (data : Json.dict) :
  NoDup (data.*1) →
  cache_file self ∉ write_denied fs →
  cache_file self ∉ read_denied fs →
  load_cache self (save_cache self data fs) = data.
Proof.
  intros Hnd Hw Hr. unfold save_cache, load_cache.
  rewrite decide_False by done. cbn [files read_denied].
  rewrite lookup_insert_eq, decide_False by done.
  by rewrite loads_dumps.
Qed.

(** [save_cache] swallows the [IOError] of a file it cannot open. *)
Lemma save_cache_denied (self : CoreAddon) (fs : FileSystem) (data : Json.dict) :
  cache_file self ∈ write_denied fs → save_cache self data fs = fs.
Proof. intros H. unfold save_cache. by rewrite decide_True. Qed.

(** C9. For every snapshot, [save_cache] of its dictionary followed by
    [load_cache] returns that dictionary, field for field: the text that
    [json.dump] writes to the cache file is read back by [json.load] as
    the value that was written.  (The cache file is one that [open] opens
    for writing and for reading; otherwise [save_cache] logs the [IOError]
    and writes nothing.) *)
Theorem cache_round_trip (self : CoreAddon) (fs : FileSystem) (s : Snapshot) :
  cache_file self ∉ write_denied fs →
  cache_file self ∉ read_denied fs →
  files (save_cache self (cache_data s) fs) !! cache_file self
  = Some (Json.dumps (cache_data s))
  ∧ Json.loads (Json.dumps (cache_data s)) = Some (cache_data s)
  ∧ load_cache self (save_cache self (cache_data s) fs) = cache_data s.
Proof.
  intros Hw Hr. split; [|split].
  - unfold save_cache. rewrite decide_False by done. apply lookup_insert_eq.
  - apply loads_dumps, cache_data_keys.
  - apply load_after_save; [apply cache_data_keys|done..].
Qed.

Lemma cache_round_trip_witness :
  load_cache (sample_addon [])
    (save_cache (sample_addon []) (cache_data sample_snapshot) empty_disk)
  = cache_data sample_snapshot.
Proof.
  apply (cache_round_trip (sample_addon []) empty_disk sample_snapshot).
  - apply not_elem_of_empty.
  - apply not_elem_of_empty.
Defined.

(** * Further properties of the code *)

(** ** The matcher returns the best listed title *)

Lemma calculate_ratio_positive (matches length : nat) :
  0 < (Difflib.calculate_ratio matches length).2.
Proof.
  unfold Difflib.calculate_ratio. destruct (length =? 0) eqn:H; simpl; [lia|].
  apply Nat.eqb_neq in H. lia.
Qed.

Lemma string_ltb_false (s t : string) :
  String.ltb s t = false ↔ String.le t s.
Proof.
  unfold String.ltb, String.le, String.leb.
  rewrite (String.compare_antisym t s).
  destruct (String.compare s t); simpl; split; done.
Qed.

Lemma string_ltb_irrefl (s : string) : String.ltb s s = false.
Proof. by apply string_ltb_false. Qed.

(** The order of the tuples is the reverse of a total preorder: what is
    not below is above. *)
Lemma tuple_ltb_irrefl (p : Difflib.score * string) : Difflib.tuple_ltb p p = false.
Proof.
  unfold Difflib.tuple_ltb, Difflib.score_ltb.
  rewrite string_ltb_irrefl, andb_false_r, orb_false_r.
  apply Nat.ltb_ge. lia.
Qed.

Lemma tuple_ltb_asym (p q : Difflib.score * string) :
  Difflib.tuple_ltb p q = true → Difflib.tuple_ltb q p = false.
Proof.
  destruct p as [[a b] s], q as [[c d] t].
  unfold Difflib.tuple_ltb, Difflib.score_ltb, Difflib.score_eqb. simpl.
  rewrite orb_true_iff, andb_true_iff, orb_false_iff, andb_false_iff,
    Nat.ltb_lt, Nat.ltb_ge, Nat.eqb_eq, Nat.eqb_neq.
  intros [H|[H Hs]]; [split; [lia | left; lia]|].
  split; [lia|]. right. apply string_ltb_false.
  destruct (String.ltb s t) eqn:Hst; [|done].
  unfold String.ltb in Hst. unfold String.le, String.leb.
  by destruct (String.compare s t).
Qed.

Lemma tuple_ltb_above (x y z : Difflib.score * string) :
  0 < x.1.2 → 0 < y.1.2 → 0 < z.1.2 →
  Difflib.tuple_ltb x y = false → Difflib.tuple_ltb y z = false →
  Difflib.tuple_ltb x z = false.
Proof.
  destruct x as [[a b] s], y as [[c d] t], z as [[e f] u].
  unfold Difflib.tuple_ltb, Difflib.score_ltb, Difflib.score_eqb. simpl.
  intros Hb Hd Hf.
  rewrite !orb_false_iff, !andb_false_iff, !Nat.ltb_ge, !Nat.eqb_neq,
    !string_ltb_false.
  intros [H1 S1] [H2 S2].
  assert (Hm1 : (c * b) * f ≤ (a * d) * f) by (apply Nat.mul_le_mono_r; lia).
  assert (Hm2 : (e * d) * b ≤ (c * f) * b) by (apply Nat.mul_le_mono_r; lia).
  assert (Hxz : e * b ≤ a * f).
  { apply (Nat.mul_le_mono_pos_r _ _ d); [done|]. lia. }
  split; [done|].
  destruct (decide (a * f = e * b)) as [Heq|Hne]; [|by left].
  right.
  assert (Hmid : (e * b) * d = (a * f) * d) by (by rewrite Heq).
  assert (Hcb : a * d = c * b).
  { apply (Nat.mul_cancel_r _ _ f); lia. }
  assert (Hed : c * f = e * d).
  { apply (Nat.mul_cancel_r _ _ b); lia. }
  destruct S1 as [?|S1]; [done|]. destruct S2 as [?|S2]; [done|].
  by etrans.
Qed.

Lemma foldl_max_positive (rest : list (Difflib.score * string))
    (p : Difflib.score * string) :
  Forall (λ p, 0 < p.1.2) (p :: rest) →
  0 < (foldl (λ m q, if Difflib.tuple_ltb m q then q else m) p rest).1.2.
Proof.
  revert p. induction rest as [|r rest IH]; intros p Hpos; simpl.
  - by apply Forall_cons in Hpos as [? _].
  - apply Forall_cons in Hpos as [Hp Hpos].
    destruct (Difflib.tuple_ltb p r); apply IH; [done|].
    apply Forall_cons in Hpos as [_ ?]. by constructor.
Qed.

(** [max]: nothing in the list is greater than what it returns. *)
Lemma nlargest1_greatest (result : list (Difflib.score * string))
    (m q : Difflib.score * string) :
  Forall (λ p, 0 < p.1.2) result →
  m ∈ Difflib.nlargest1 result → q ∈ result →
  Difflib.tuple_ltb m q = false.
Proof.
  destruct result as [|p rest]; [by intros _ ?%not_elem_of_nil|].
  simpl. intros Hpos ->%list_elem_of_singleton. revert q.
  assert (Hgen : ∀ rest p, Forall (λ p, 0 < p.1.2) (p :: rest) →
    ∀ q, q ∈ p :: rest →
    Difflib.tuple_ltb
      (foldl (λ m q, if Difflib.tuple_ltb m q then q else m) p rest) q = false);
    [|by apply Hgen].
  clear. intros rest. induction rest as [|r rest IH]; intros p Hpos q Hq; simpl.
  - apply list_elem_of_singleton in Hq as ->. apply tuple_ltb_irrefl.
  - apply Forall_cons in Hpos as [Hp Hpos].
    pose proof Hpos as Hpos'. apply Forall_cons in Hpos' as [Hr Hrest].
    destruct (Difflib.tuple_ltb p r) eqn:Hpr.
    + apply elem_of_cons in Hq as [->|Hq]; [|by apply IH].
      assert (Hpos3 : Forall (λ p, 0 < p.1.2) (r :: rest)) by done.
      apply (tuple_ltb_above _ r); [|done|done| apply IH; [done | left] |].
      * apply (foldl_max_positive rest r Hpos3).
      * by apply tuple_ltb_asym.
    + assert (Hpos2 : Forall (λ p, 0 < p.1.2) (p :: rest)) by by constructor.
      apply elem_of_cons in Hq as [->|[->|Hq]%elem_of_cons].
      * apply IH; [done | left].
      * apply (tuple_ltb_above _ p); [|done|done| apply IH; [done | left] | done].
        apply (foldl_max_positive rest p Hpos2).
      * apply IH; [done | by right].
Qed.

(** X1.  [find_closest_channel] answers with a title of the list that passes
    the cutoff of the matcher, and answers [None] exactly when no title of
    the list passes it; in particular it answers [None] on an empty
    list. *)
Theorem closest_channel_is_listed
    (channel_name : string) (channels_names : list string) :
  (∀ m, find_closest_channel channel_name channels_names = Some m →
        m ∈ channels_names ∧ Difflib.close_enough channel_name m = true)
  ∧ (find_closest_channel channel_name channels_names = None
     ↔ ∀ x, x ∈ channels_names → Difflib.close_enough channel_name x = false)
  ∧ find_closest_channel channel_name [] = None.
Proof.
  split; [|split; [apply find_closest_channel_none | done]].
  intros m. unfold find_closest_channel.
  destruct (Difflib.get_close_matches channel_name channels_names)
    as [|m' l] eqn:Hg; [done|].
  intros [= <-]. apply get_close_matches_elem. rewrite Hg. left.
Qed.

Lemma closest_channel_is_listed_witness :
  "RealMadridTV" ∈ titulos_without_quality sample_titulos
  ∧ Difflib.close_enough "Real Madrid TV" "RealMadridTV" = true.
Proof.
  apply (proj1 (closest_channel_is_listed "Real Madrid TV"
                  (titulos_without_quality sample_titulos)) "RealMadridTV").
  reflexivity.
Defined.

(** X2.  The title [find_closest_channel] answers with has the best score
    of the list: no title that passes the cutoff has a greater similarity
    ratio, and among the titles with the same ratio none is greater in the
    order of strings. *)
Theorem closest_channel_is_best
    (channel_name m x : string) (channels_names : list string) :
  find_closest_channel channel_name channels_names = Some m →
  x ∈ channels_names →
  Difflib.close_enough channel_name x = true →
  Difflib.tuple_ltb (Difflib.scored channel_name m)
                    (Difflib.scored channel_name x) = false.
Proof.
  unfold find_closest_channel, Difflib.get_close_matches.
  intros Hm Hx Hc.
  set (result := Difflib.scored channel_name <$>
                   filter (λ x, Difflib.close_enough channel_name x = true)
                          channels_names) in *.
  assert (Hpos : Forall (λ p, 0 < p.1.2) result).
  { apply Forall_forall. intros p [y [-> _]]%list_elem_of_fmap.
    apply calculate_ratio_positive. }
  destruct (Difflib.nlargest1 result) as [|[sc m'] l] eqn:Hn; [done|].
  simpl in Hm. injection Hm as ->.
  assert (Hin : (sc, m) ∈ Difflib.nlargest1 result) by (rewrite Hn; left).
  pose proof (nlargest1_elem _ _ Hin) as Hres.
  apply list_elem_of_fmap in Hres as [y [Hy _]].
  unfold Difflib.scored in Hy. injection Hy as -> <-.
  apply (nlargest1_greatest result); [done | done |].
  apply list_elem_of_fmap. exists x. split; [done|].
  by apply list_elem_of_filter.
Qed.

Lemma closest_channel_is_best_witness :
  Difflib.tuple_ltb (Difflib.scored "ab" "ad") (Difflib.scored "ab" "ac") = false.
Proof.
  apply (closest_channel_is_best "ab" "ad" "ac" ["ac"; "ad"]).
  - reflexivity.
  - left.
  - reflexivity.
Defined.

(** ** The proxy filter *)

(** X3.  [filter_asian_proxies] keeps the addresses of exactly the entries
    whose [ip_data] names the continent AS, in the order of the list;
    entries without [ip_data] or with another continent code are dropped,
    so the result is never longer than the list. *)
Theorem filter_asian_proxies_keeps_asia (proxies : list ProxyEntry) :
  filter_asian_proxies proxies
  = proxy <$> filter (λ p, from_asia p = true) proxies
  ∧ length (filter_asian_proxies proxies) ≤ length proxies.
Proof.
  assert (Hgen : ∀ acc,
    foldl (λ proxies_asia p,
             match ip_data p with
             | Some d =>
                 if decide (continentCode d = Some "AS")
                 then proxies_asia ++ [proxy p]
                 else proxies_asia
             | None => proxies_asia
             end) acc proxies
    = acc ++ (proxy <$> filter (λ p, from_asia p = true) proxies)).
  { induction proxies as [|p l IH]; intros acc; simpl; [by rewrite app_nil_r|].
    rewrite IH, filter_cons.
    destruct (ip_data p) as [d|] eqn:Hip.
    - destruct (decide (continentCode d = Some "AS")) as [Hd|Hd].
      + rewrite decide_True.
        * by rewrite <- (assoc_L (++)).
        * unfold from_asia. rewrite Hip. by apply bool_decide_eq_true_2.
      + rewrite decide_False; [done|].
        unfold from_asia. rewrite Hip. by rewrite bool_decide_eq_false_2.
    - rewrite decide_False; [done|]. unfold from_asia. by rewrite Hip. }
  unfold filter_asian_proxies. rewrite Hgen. simpl. split; [done|].
  rewrite length_fmap. apply length_filter.
Qed.

(** ** What a run of [update_list] returns and leaves behind *)

Section OutcomeFacts.
Variable out : Outside.
Variable self : CoreAddon.
Variable dialog_interface : bool.

Lemma page_answers_app (t1 t2 : list Action) :
  page_answers (t1 ++ t2) = page_answers t1 ++ page_answers t2.
Proof. apply omap_app. Qed.

Lemma page_answers_quiet (t : list Action) :
  requests t = [] → page_answers t = [].
Proof.
  induction t as [|a t IH]; [done|].
  destruct a; simpl; try done; intros H; apply IH; exact H.
Qed.

(** The loop over the proxies: as many fetches as proxies at most, every
    answer but the last without a page, and a page in the last exactly
    when the loop is left by [break]. *)
Lemma try_proxies_outcome (asian_proxies : list string) (w : World) :
  ∃ new,
    trace (try_proxies out dialog_interface asian_proxies w).2 = trace w ++ new
    ∧ disk (try_proxies out dialog_interface asian_proxies w).2 = disk w
    ∧ length (page_answers new) ≤ length asian_proxies
    ∧ match (try_proxies out dialog_interface asian_proxies w).1 with
      | None => Forall no_page (page_answers new)
      | Some content =>
          ∃ pre, page_answers new = pre ++ [content]
                 ∧ Forall no_page pre ∧ Py.truthy_opt content = true
      end.
Proof.
  revert w. induction asian_proxies as [|p rest IH]; intros w.
  - destruct (try_proxies_nil out dialog_interface w) as (n & -> & Hn).
    exists n. simpl. rewrite (page_answers_quiet n Hn). done.
  - destruct (try_proxies_cons out dialog_interface p rest w) as (n & Hn & Hrun).
    cbv zeta in Hrun. rewrite Hrun. clear Hrun.
    set (via := if Py.truthy p then Some p else None).
    set (answer := requests_get out (trace w ++ n) url_selected via).
    destruct (Py.truthy_opt answer) eqn:Hans.
    + exists (n ++ [RequestsGet url_selected via answer]). simpl.
      rewrite (assoc_L (++)), page_answers_app, (page_answers_quiet n Hn). simpl.
      split; [done|]. split; [done|]. split; [lia|].
      exists []. done.
    + match goal with
      | |- context [try_proxies _ _ rest ?w2] =>
          destruct (IH w2) as (new & Ht & Hd & Hlen & Hres)
      end.
      exists (n ++ RequestsGet url_selected via answer :: new).
      rewrite Ht, Hd. simpl.
      split; [by rewrite <- !(assoc_L (++))|]. split; [done|].
      rewrite page_answers_app, (page_answers_quiet n Hn). simpl.
      split; [lia|].
      destruct (try_proxies out dialog_interface rest _).1 as [content|].
      * destruct Hres as (pre & Hpre & Hfalsy & Hpage).
        exists (answer :: pre). rewrite Hpre. split; [done|].
        split; [by constructor | done].
      * by constructor.
Qed.

(** Every run: the page fetches are one more than the Asian proxies at
    most; either none is answered with a page, the result is the empty
    dictionary and the files are untouched, or the last answer is the
    first page, the result is the snapshot built from it and it has been
    saved. *)
Lemma update_list_outcome (w : World) :
  ∃ new,
    let answer := urlopen_json out (trace w) PROXIES_URL in
    let run := update_list out self dialog_interface w in
    trace run.2 = trace w ++ new
    ∧ length (page_answers new)
      ≤ S (length (filter_asian_proxies (default [] answer)))
    ∧ (default [] answer = [] → page_answers new = [])
    ∧ ((run.1 = [] ∧ disk run.2 = disk w ∧ Forall no_page (page_answers new))
       ∨ ∃ pre page stamp,
           page_answers new = pre ++ [Some page]
           ∧ Forall no_page pre ∧ Py.truthy page = true
           ∧ run.1 = cache_data (snapshot_of self page stamp)
           ∧ disk run.2 = save_cache self run.1 (disk w)).
Proof.
  cbv zeta.
  destruct (update_list out self dialog_interface w) as [d w'] eqn:Hrun.
  revert Hrun.
  unfold update_list, mbind, IO_bind, mret, IO_ret. unfold fetch_proxies.
  set (answer := urlopen_json out (trace w) PROXIES_URL).
  set (w0 := {| trace := trace w ++ [UrlOpen PROXIES_URL answer]; disk := disk w |}).
  destruct (default [] answer) as [|px proxies] eqn:Hpx.
  - destruct (notification_run dialog_interface "Error" "No proxies found." w0)
      as (n & -> & Hn).
    intros [= <- <-]. exists ([UrlOpen PROXIES_URL answer] ++ n).
    rewrite page_answers_app, (page_answers_quiet n Hn).
    cbn [trace disk fst snd].
    split; [by rewrite <- (assoc_L (++))|]. split; [simpl; lia|]. split; [done|].
    left. done.
  - destruct (notification_run dialog_interface "Connection"
                "Attempting to connect without proxy" w0) as (n & -> & Hn).
    unfold get_web_content. subst w0. cbn [trace disk Py.truthy_opt].
    set (content := requests_get out ((trace w ++ [UrlOpen PROXIES_URL answer]) ++ n)
                      url_selected None).
    set (w1 := {| trace := _; disk := disk w |}).
    destruct (Py.truthy_opt content) eqn:Hc; cbn [negb]; cbv iota.
    + rewrite fallback_then_store_page, store_run by done.
      intros [= <- <-].
      exists ([UrlOpen PROXIES_URL answer] ++ n
                ++ [RequestsGet url_selected None content]
                ++ [Strftime (strftime out (trace w1))]).
      rewrite !page_answers_app, (page_answers_quiet n Hn).
      subst w1. cbn [trace disk fst snd].
      split; [by rewrite <- !(assoc_L (++))|].
      split; [simpl; lia|]. split; [done|].
      right. destruct content as [page|]; [|done].
      eexists [], page, _. done.
    + destruct (notification_run dialog_interface "Proxy"
                  "Attempting to connect using proxies" w1) as (n2 & -> & Hn2).
      match goal with
      | |- context [try_proxies _ _ ?l ?w2] =>
          destruct (try_proxies_outcome l w2) as (new & Ht & Hd & Hlen & Hres);
          destruct (try_proxies out dialog_interface l w2) as [[page|] w3]
      end; simpl in Ht, Hd, Hres.
      * destruct Hres as (pre & Hpre & Hfalsy & Hpage).
        rewrite fallback_then_store_page, store_run by done.
        intros [= <- <-].
        exists ([UrlOpen PROXIES_URL answer] ++ n
                  ++ [RequestsGet url_selected None content] ++ n2 ++ new
                  ++ [Strftime (strftime out (trace w3))]).
        rewrite !page_answers_app, (page_answers_quiet n Hn),
          (page_answers_quiet n2 Hn2).
        cbn [trace disk fst snd]. rewrite Ht, Hd.
        split; [subst w1; cbn [trace]; by rewrite <- !(assoc_L (++))|].
        split; [simpl; rewrite app_nil_r; lia|].
        split; [done|]. rewrite Hpre.
        right. destruct page as [page|]; [|done].
        eexists (content :: pre), page, _.
        split; [by simpl; rewrite app_nil_r|].
        split; [by constructor|]. split; [done|]. split; reflexivity.
      * intros [= <- <-].
        exists ([UrlOpen PROXIES_URL answer] ++ n
                  ++ [RequestsGet url_selected None content] ++ n2 ++ new).
        rewrite !page_answers_app, (page_answers_quiet n Hn),
          (page_answers_quiet n2 Hn2).
        cbn [trace disk fst snd]. rewrite Ht, Hd.
        split; [subst w1; cbn [trace]; by rewrite <- !(assoc_L (++))|].
        split; [simpl; lia|]. split; [done|].
        left. split; [done|]. split; [done|]. simpl. by constructor.
Qed.

(** Without a dialog no notification is made. *)
Lemma notification_silent (heading message : string) (w : World) :
  dialog_interface = false →
  notification dialog_interface heading message w = ((), w).
Proof. intros H. unfold notification. by rewrite H. Qed.

Lemma try_proxies_silent (asian_proxies : list string) (w : World) :
  dialog_interface = false →
  ∃ new,
    trace (try_proxies out dialog_interface asian_proxies w).2 = trace w ++ new
    ∧ Forall (λ a, is_notification a = false) new.
Proof.
  intros Hd. revert w. induction asian_proxies as [|p rest IH]; intros w.
  - exists []. simpl. unfold mbind, IO_bind, mret, IO_ret.
    rewrite notification_silent by done. simpl. by rewrite app_nil_r.
  - simpl. unfold mbind, IO_bind, mret, IO_ret.
    rewrite notification_silent by done. unfold get_web_content.
    match goal with |- context [Py.truthy_opt (requests_get ?a ?b ?c ?d)] =>
      destruct (Py.truthy_opt (requests_get a b c d)) end.
    + eexists [_]. simpl. split; [done|]. by repeat constructor.
    + match goal with
      | |- context [try_proxies _ _ rest ?w2] =>
          destruct (IH w2) as (new & Ht & Hq)
      end.
      rewrite Ht. simpl. eexists (_ :: new).
      split; [by rewrite <- (assoc_L (++))|]. by constructor.
Qed.

Lemma update_list_silent (w : World) :
  dialog_interface = false →
  ∃ new,
    trace (update_list out self dialog_interface w).2 = trace w ++ new
    ∧ Forall (λ a, is_notification a = false) new.
Proof.
  intros Hd.
  destruct (update_list out self dialog_interface w) as [d w'] eqn:Hrun.
  revert Hrun.
  unfold update_list, mbind, IO_bind, mret, IO_ret. unfold fetch_proxies.
  set (answer := urlopen_json out (trace w) PROXIES_URL).
  destruct (default [] answer) as [|px proxies].
  - rewrite notification_silent by done.
    intros [= <- <-]. eexists [_]. simpl. split; [done|]. by repeat constructor.
  - rewrite notification_silent by done.
    unfold get_web_content. cbn [trace disk Py.truthy_opt].
    match goal with |- context [Py.truthy_opt (requests_get ?a ?b ?c ?d)] =>
      destruct (Py.truthy_opt (requests_get a b c d)) eqn:Hc end;
      cbn [negb]; cbv iota.
    + rewrite fallback_then_store_page, store_run by done.
      intros [= <- <-]. simpl. eexists [_; _; _]. simpl.
      split; [by rewrite <- !(assoc_L (++))|]. by repeat constructor.
    + rewrite notification_silent by done.
      match goal with
      | |- context [try_proxies _ _ ?l ?w2] =>
          destruct (try_proxies_silent l w2 Hd) as (new & Ht & Hq);
          destruct (try_proxies_outcome l w2) as (new' & _ & _ & _ & Hres);
          destruct (try_proxies out dialog_interface l w2) as [[page|] w3]
      end; simpl in Ht, Hres.
      * destruct Hres as (pre & _ & _ & Hpage).
        rewrite fallback_then_store_page, store_run by done.
        intros [= <- <-]. simpl. rewrite Ht. simpl.
        eexists (_ :: _ :: new ++ [_]).
        split; [by rewrite <- !(assoc_L (++))|].
        repeat constructor. apply Forall_app. split; [done|]. by repeat constructor.
      * intros [= Hd' Hw']. subst. simpl. rewrite Ht. simpl.
        eexists (_ :: _ :: new).
        split; [by rewrite <- !(assoc_L (++))|]. by repeat constructor.
Qed.

End OutcomeFacts.

(** X4.  [update_list] returns the page of the first fetch that succeeds.
    In every run either no page fetch is answered with a page, the result
    is the empty dictionary and the files are untouched; or the last page
    fetch of the run is the first one answered with a page, the result is
    the snapshot built from that page and the time stamp, and it has been
    handed to [save_cache]. *)
Theorem update_list_returns_first_page
    (out : Outside) (self : CoreAddon) (dialog_interface : bool) (w : World) :
  ∃ new,
    let run := update_list out self dialog_interface w in
    trace run.2 = trace w ++ new
    ∧ ((run.1 = [] ∧ disk run.2 = disk w ∧ Forall no_page (page_answers new))
       ∨ ∃ pre page stamp,
           page_answers new = pre ++ [Some page]
           ∧ Forall no_page pre ∧ Py.truthy page = true
           ∧ run.1 = cache_data (snapshot_of self page stamp)
           ∧ disk run.2 = save_cache self run.1 (disk w)).
Proof.
  destruct (update_list_outcome out self dialog_interface w)
    as (new & Ht & _ & _ & Hres).
  exists new. split; [exact Ht | exact Hres].
Qed.

(** X5.  A run of [update_list] fetches a page at most once directly and
    once through each Asian proxy of the list, and not at all when the
    proxy list is empty. *)
Theorem update_list_fetches_are_bounded
    (out : Outside) (self : CoreAddon) (dialog_interface : bool) (w : World) :
  ∃ new,
    let proxies := default [] (urlopen_json out (trace w) PROXIES_URL) in
    trace (update_list out self dialog_interface w).2 = trace w ++ new
    ∧ length (page_answers new) ≤ S (length (filter_asian_proxies proxies))
    ∧ length (page_answers new) ≤ S (length proxies)
    ∧ match proxies with
      | [] => page_answers new = []
      | _ :: _ => True
      end.
Proof.
  destruct (update_list_outcome out self dialog_interface w)
    as (new & Ht & Hlen & Hnone & _).
  cbv zeta in *. exists new. split; [exact Ht|]. split; [exact Hlen|].
  split.
  - etrans; [exact Hlen|]. apply le_n_S.
    generalize (default [] (urlopen_json out (trace w) PROXIES_URL)).
    intros proxies. unfold filter_asian_proxies.
    assert (Hgen : ∀ acc,
      length (foldl (λ proxies_asia p,
                match ip_data p with
                | Some d =>
                    if decide (continentCode d = Some "AS")
                    then proxies_asia ++ [proxy p]
                    else proxies_asia
                | None => proxies_asia
                end) acc proxies) ≤ length acc + length proxies).
    { induction proxies as [|p l IH]; intros acc; simpl; [lia|].
      etrans; [apply IH|].
      destruct (ip_data p) as [d|]; [|lia].
      destruct (decide (continentCode d = Some "AS")); [|lia].
      rewrite length_app. simpl. lia. }
    apply (Hgen []).
  - destruct (default [] (urlopen_json out (trace w) PROXIES_URL)); [|done].
    by apply Hnone.
Qed.

(** X6.  What [update_list] returns is what the cache holds afterwards: a
    run that returns the empty dictionary leaves the files as they were,
    and after a run that returns a snapshot [load_cache] reads that same
    snapshot, when the cache file can be opened. *)
Theorem update_list_result_is_cached
    (out : Outside) (self : CoreAddon) (dialog_interface : bool) (w : World) :
  let run := update_list out self dialog_interface w in
  (run.1 = [] → disk run.2 = disk w)
  ∧ (run.1 ≠ [] →
     cache_file self ∉ write_denied (disk w) →
     cache_file self ∉ read_denied (disk w) →
     load_cache self (disk run.2) = run.1).
Proof.
  cbv zeta.
  destruct (update_list_outcome out self dialog_interface w)
    as (new & _ & _ & _ & [(Hd & Hdisk & _)|(pre & page & stamp & _ & _ & _ & Hd & Hdisk)]);
    cbv zeta in *.
  - split; [done|]. by intros [].
  - split.
    + intros H. rewrite H in Hd. done.
    + intros _ Hw Hr. rewrite Hdisk, Hd.
      apply load_after_save; [apply cache_data_keys | done | done].
Qed.

Lemma update_list_result_is_cached_witness :
  load_cache (sample_addon grouped_schedule)
    (disk (update_list outside_proxy_up (sample_addon grouped_schedule) true
             fresh_world).2)
  = (update_list outside_proxy_up (sample_addon grouped_schedule) true
       fresh_world).1.
Proof.
  apply (proj2 (update_list_result_is_cached outside_proxy_up
                  (sample_addon grouped_schedule) true fresh_world)).
  - vm_compute. discriminate.
  - apply not_elem_of_empty.
  - apply not_elem_of_empty.
Defined.

(** X7.  A caller that hands no dialog to [update_list] gets no
    notification: every step of such a run is a request or a reading of
    the clock. *)
Theorem update_list_without_dialog_is_silent
    (out : Outside) (self : CoreAddon) (w : World) :
  ∃ new,
    trace (update_list out self false w).2 = trace w ++ new
    ∧ Forall (λ a, is_notification a = false) new.
Proof. by apply update_list_silent. Qed.

(** ** More on the cache store *)

(** X8.  [save_cache] touches the cache file and nothing else.  The text of
    every other file stays as it was; a save replaces what an earlier save
    wrote, so that [load_cache] returns the later dictionary; and a save
    that cannot open the file changes nothing, so that [load_cache] still
    returns what it returned before. *)
Theorem save_cache_touches_one_file
    (self : CoreAddon) (fs : FileSystem) (earlier later : Json.dict) :
  (∀ path, path ≠ cache_file self →
           files (save_cache self later fs) !! path = files fs !! path)
  ∧ (NoDup (later.*1) →
     cache_file self ∉ write_denied fs → cache_file self ∉ read_denied fs →
     load_cache self (save_cache self later (save_cache self earlier fs)) = later)
  ∧ (cache_file self ∈ write_denied fs →
     load_cache self (save_cache self later fs) = load_cache self fs).
Proof.
  split; [|split].
  - intros path Hne. unfold save_cache.
    destruct (decide (cache_file self ∈ write_denied fs)); [done|].
    simpl. by rewrite lookup_insert_ne.
  - intros Hnd Hw Hr. apply load_after_save; [done| |].
    + unfold save_cache. by rewrite decide_False.
    + unfold save_cache. by rewrite decide_False.
  - intros Hw. by rewrite save_cache_denied.
Qed.

Lemma save_cache_touches_one_file_witness :
  load_cache (sample_addon [])
    (save_cache (sample_addon []) (cache_data sample_snapshot)
       (save_cache (sample_addon []) [("origen", Json.Str "Servidor Espejo")]
          empty_disk))
  = cache_data sample_snapshot.
Proof.
  apply (proj1 (proj2 (save_cache_touches_one_file (sample_addon []) empty_disk
                         [("origen", Json.Str "Servidor Espejo")]
                         (cache_data sample_snapshot)))).
  - apply cache_data_keys.
  - apply not_elem_of_empty.
  - apply not_elem_of_empty.
Defined.

(** ** More on the schedule parser *)

Lemma foldl_add_row_distinct (rows : list Event) :
  NoDup (event_id <$> rows) → (foldl add_row ([], ∅) rows).1 = rows.
Proof.
  induction rows as [|r rows IH] using rev_ind; [done|].
  rewrite fmap_app. intros (Hnd & Hdis & _)%NoDup_app.
  rewrite foldl_snoc.
  destruct (foldl_add_row_invariant rows) as (Hseen & _).
  specialize (IH Hnd).
  destruct (foldl add_row ([], ∅) rows) as [evs seen]. simpl in *. subst evs.
  unfold add_row. simpl. rewrite decide_True; [done|].
  intros Hin. apply Hseen in Hin. apply (Hdis _ Hin). simpl. left.
Qed.

(** X9.  The parser loses no row of a page whose rows are pairwise distinct
    in day, time, title and channel: every row read becomes an event, in
    the order of the page. *)
Theorem distinct_rows_are_all_kept (day_sections : list DaySection) :
  NoDup (event_id <$> scraped_rows day_sections) →
  get_tv_programs (Some day_sections) = scraped_rows day_sections.
Proof.
  intros Hnd. unfold get_tv_programs, parse_tv_programs, scraped_rows in *.
  rewrite foldl_add_day_section. by apply foldl_add_row_distinct.
Qed.

Lemma distinct_rows_are_all_kept_witness :
  get_tv_programs (Some interleaved_page) = scraped_rows interleaved_page.
Proof.
  apply (distinct_rows_are_all_kept interleaved_page).
  apply (bool_decide_unpack _). vm_compute. exact I.
Defined.

(** ** The scan for anchors *)

Section ScanFacts.
Local Arguments String.append !s1 s2 / : simpl nomatch.
Local Arguments Ascii.eqb : simpl never.

Lemma startswith_app_long (p s t : string) :
  String.length p ≤ String.length s →
  Py.startswith p (s +:+ t) = Py.startswith p s.
Proof.
  revert s. induction p as [|a p IH]; intros [|b s] Hlen; simpl in *; try done.
  - lia.
  - destruct (Ascii.eqb a b); [apply IH; lia | done].
Qed.

Lemma startswith_app_short (p s t : string) :
  Py.startswith p (s +:+ t) = true → String.length s < String.length p →
  ∃ p2 c, p = s +:+ String c p2 ∧ Py.startswith (String c p2) t = true.
Proof.
  revert p. induction s as [|b s IH]; intros [|a p]; simpl; try (intros; lia).
  - intros H _. exists p, a. done.
  - destruct (Ascii.eqb_spec a b) as [->|]; [|done].
    intros H Hlen. destruct (IH p H) as (p2 & c & -> & Hp2); [lia|].
    exists p2, c. done.
Qed.

(** A pattern whose first character does not come again in it cannot
    start in the text before an occurrence of it and end inside that
    occurrence. *)
Lemma startswith_unbordered (x : ascii) (tail : string) (c : ascii) (s r : string) :
  Py.occurs (String x EmptyString) tail = false →
  Py.startswith (String x tail) (String c s +:+ String x tail +:+ r)
  = Py.startswith (String x tail) (String c s).
Proof.
  intros Hx.
  destruct (decide (String.length (String x tail) ≤ String.length (String c s)))
    as [Hlen|Hlen]; [by apply startswith_app_long|].
  destruct (Py.startswith (String x tail) (String c s)) eqn:Hs.
  { apply startswith_length in Hs. lia. }
  destruct (Py.startswith (String x tail) (String c s +:+ String x tail +:+ r))
    eqn:Hlong; [|done].
  apply startswith_app_short in Hlong as (p2 & c2 & Heq & Hp2); [|lia].
  simpl in Hp2. destruct (Ascii.eqb_spec c2 x) as [->|]; [|done].
  simpl in Heq. injection Heq as _ ->.
  rewrite occurs_app_r in Hx; [done|]. simpl.
  destruct (Ascii.eqb_spec x x); done.
Qed.

Lemma span_stop (c : ascii) (s r : string) :
  Py.occurs (String c EmptyString) s = false →
  Re.span (λ x, negb (Ascii.eqb x c)) (s +:+ String c r) = (s, String c r).
Proof.
  induction s as [|a s IH]; simpl.
  - intros _. destruct (Ascii.eqb_spec c c); done.
  - intros [Ha Hs]%orb_false_iff.
    destruct (Ascii.eqb_spec c a) as [->|Hne]; [done|].
    destruct (Ascii.eqb_spec a c) as [->|_]; [done|]. simpl.
    by rewrite IH.
Qed.

Lemma lazy_until_close_reads (titulo rest : string) :
  Py.occurs (String "010" EmptyString) titulo = false →
  Py.occurs "</a>" titulo = false →
  Re.lazy_until_close (titulo +:+ "</a>" +:+ rest) = Some (titulo, rest).
Proof.
  induction titulo as [|c t IH]; [done|].
  intros Hnl Hclose.
  change (Py.occurs "</a>" (String c t))
    with (Py.startswith "</a>" (String c t) || Py.occurs "</a>" t) in Hclose.
  apply orb_false_iff in Hclose as [Hhere Hclose].
  change (Py.occurs (String "010" EmptyString) (String c t))
    with (Py.startswith (String "010" EmptyString) (String c t)
          || Py.occurs (String "010" EmptyString) t) in Hnl.
  apply orb_false_iff in Hnl as [Hc Hnl].
  change (Re.lazy_until_close (String c t +:+ "</a>" +:+ rest))
    with (if Py.startswith "</a>" (String c t +:+ "</a>" +:+ rest)
          then Some (EmptyString, Py.drop 4 (String c t +:+ "</a>" +:+ rest))
          else if Ascii.eqb c "010" then None
               else match Re.lazy_until_close (t +:+ "</a>" +:+ rest) with
                    | Some (t', rest') => Some (String c t', rest')
                    | None => None
                    end).
  rewrite (startswith_unbordered "<" "/a>") by done.
  rewrite Hhere, IH by done.
  simpl in Hc. destruct (Ascii.eqb_spec "010" c) as [<-|Hne]; [done|].
  destruct (Ascii.eqb_spec c "010") as [->|_]; done.
Qed.

(** The pattern matches at the head of an anchor. *)
Lemma match_here_anchor (ident attrs titulo rest : string) :
  ident ≠ EmptyString →
  Py.occurs (String Re.dquote EmptyString) ident = false →
  Py.occurs ">" attrs = false →
  Py.occurs (String "010" EmptyString) titulo = false →
  Py.occurs "</a>" titulo = false →
  Re.match_here
    (Re.anchor_open +:+ ident +:+ String Re.dquote attrs +:+ ">"
       +:+ titulo +:+ "</a>" +:+ rest)
  = Some ("acestream://" +:+ ident, titulo, rest).
Proof.
  intros Hid Hq Hgt Hnl Hclose. unfold Re.match_here.
  rewrite startswith_app.
  change 21 with (String.length Re.anchor_open). rewrite str_drop_app.
  change (ident +:+ String Re.dquote attrs +:+ ">" +:+ titulo +:+ "</a>" +:+ rest)
    with (ident +:+ String Re.dquote (attrs +:+ ">" +:+ titulo +:+ "</a>" +:+ rest)).
  unfold Re.not_quote. rewrite span_stop by done.
  destruct ident as [|c ident]; [done|].
  unfold Re.not_gt.
  change (attrs +:+ ">" +:+ titulo +:+ "</a>" +:+ rest)
    with (attrs +:+ String ">" (titulo +:+ "</a>" +:+ rest)).
  rewrite span_stop by done.
  by rewrite lazy_until_close_reads.
Qed.

(** The scan passes over a text in which no anchor opens. *)
Lemma findall_fuel_skip (pre tail : string) (fuel : nat) :
  Py.occurs Re.anchor_open pre = false →
  Re.findall_fuel (String.length pre + fuel) (pre +:+ Re.anchor_open +:+ tail)
  = Re.findall_fuel fuel (Re.anchor_open +:+ tail).
Proof.
  induction pre as [|c pre IH]; [done|].
  intros Hpre.
  change (Py.occurs Re.anchor_open (String c pre))
    with (Py.startswith Re.anchor_open (String c pre)
          || Py.occurs Re.anchor_open pre) in Hpre.
  apply orb_false_iff in Hpre as [Hhere Hpre].
  change (String.length (String c pre) + fuel)
    with (S (String.length pre + fuel)).
  assert (Hun : Py.startswith Re.anchor_open
                  (String c pre +:+ Re.anchor_open +:+ tail) = false).
  { rewrite <- Hhere.
    exact (startswith_unbordered "<" (Py.drop 1 Re.anchor_open) c pre tail eq_refl). }
  cbn [Re.findall_fuel]. unfold Re.match_here at 1. rewrite Hun.
  by apply IH.
Qed.

End ScanFacts.

(** X10.  [re.findall] with the pattern of the extractors reads an anchor
    where it stands.  On a page that starts with text in which no anchor
    opens, followed by an anchor whose stream identifier is not empty and
    holds no double quote, whose further attributes hold no [>] and whose
    text holds no line break and no [</a>], the first match is the target
    and the text of that anchor, and the scan goes on behind the anchor. *)
Theorem findall_reads_anchor (pre ident attrs titulo rest : string) :
  Py.occurs Re.anchor_open pre = false →
  ident ≠ EmptyString →
  Py.occurs (String Re.dquote EmptyString) ident = false →
  Py.occurs ">" attrs = false →
  Py.occurs (String "010" EmptyString) titulo = false →
  Py.occurs "</a>" titulo = false →
  Re.findall
    (pre +:+ Re.anchor_open +:+ ident +:+ String Re.dquote attrs +:+ ">"
       +:+ titulo +:+ "</a>" +:+ rest)
  = ("acestream://" +:+ ident, titulo) :: Re.findall rest.
Proof.
  intros Hpre Hid Hq Hgt Hnl Hclose. unfold Re.findall.
  set (behind := Re.findall_fuel (S (String.length rest)) rest).
  set (tail := ident +:+ String Re.dquote attrs +:+ ">" +:+ titulo
                 +:+ "</a>" +:+ rest).
  rewrite (findall_fuel_enough _
             (String.length pre + S (String.length (Re.anchor_open +:+ tail))))
    by (rewrite !str_length_app; lia).
  rewrite findall_fuel_skip by done.
  cbn [Re.findall_fuel]. subst tail. rewrite match_here_anchor by done.
  subst behind. f_equal. apply findall_fuel_enough; [|lia].
  rewrite !str_length_app. simpl. lia.
Qed.

Lemma findall_reads_anchor_witness :
  Re.findall
    ("<ul><li>" +:+ Re.anchor_open +:+ "aaaa1111"
       +:+ String Re.dquote " class=x" +:+ ">" +:+ " RealMadridTV720 " +:+ "</a>"
       +:+ "</li></ul>")
  = [("acestream://aaaa1111", " RealMadridTV720 ")].
Proof.
  apply (findall_reads_anchor "<ul><li>" "aaaa1111" " class=x"
           " RealMadridTV720 " "</li></ul>"); try reflexivity.
  discriminate.
Defined.

(** ** Links and markers *)

Lemma nuevo_enlace_scheme (ident : string) :
  nuevo_enlace ("acestream://" +:+ ident) = play_handler +:+ nuevo_enlace ident.
Proof. reflexivity. Qed.

Lemma findall_nuevo_enlace (html e t : string) :
  (e, t) ∈ Re.findall html → ∃ rest, nuevo_enlace e = play_handler +:+ rest.
Proof.
  intros [ident ->]%findall_enlace. exists (nuevo_enlace ident).
  apply nuevo_enlace_scheme.
Qed.

(** The title of a playable row is one the page lists. *)
Lemma playable_rows_listed (titulos : list string) (programs : list Event)
    (last : option string) (program : Event) (tvg : string) :
  PlayableItem program tvg ∈ reconciled_entries titulos last programs →
  tvg ∈ titulos.
Proof.
  revert last. induction programs as [|p l IH]; intros last; simpl.
  - by intros ?%not_elem_of_nil.
  - rewrite !elem_of_app. intros [Hd|[Hp|Hr]]; [| |by apply (IH _ Hr)].
    + unfold day_entries in Hd.
      destruct (decide (Some (day p) ≠ last)); [|by apply not_elem_of_nil in Hd].
      by apply list_elem_of_singleton in Hd.
    + unfold program_entries in Hp.
      destruct (closest_tvg_id titulos p) as [closest|];
        [|by apply not_elem_of_nil in Hp].
      destruct (Py.truthy closest); [|by apply not_elem_of_nil in Hp].
      destruct (variants titulos closest) as [|v vs] eqn:Hv.
      * by apply list_elem_of_singleton in Hp.
      * apply list_elem_of_fmap in Hp as [x [[= _ ->] Hx]].
        rewrite <- Hv in Hx. unfold variants in Hx.
        by apply list_elem_of_filter in Hx as [? _].
Qed.

(** X11.  Every link that [extract_channel_links] returns is the target of
    an anchor with the scheme of the play handler in the place of the
    scheme of the stream; none starts with the marker of a comment row. *)
Theorem channel_links_use_play_handler (html : string) :
  Forall (λ link, Py.startswith play_handler link = true
                  ∧ Py.startswith "#" link = false)
         (extract_channel_links html).1.
Proof.
  rewrite extract_channel_links_rows. cbn [fst]. apply Forall_forall.
  intros link [[e t] [-> Hin]]%list_elem_of_fmap. cbn [fst].
  destruct (findall_nuevo_enlace _ _ _ Hin) as [rest ->].
  split; [apply startswith_app | reflexivity].
Qed.

(** The marker on the rows of a page. *)
Lemma reconciled_rows_marker (html : string) (programs : list Event) :
  let enlaces := (index_anchors (Re.findall html)).1 in
  let titulos := (index_anchors (Re.findall html)).2 in
  Forall (λ row,
      Py.startswith "#" (entry_link enlaces row) = negb (is_playable row)
      ∧ Py.startswith play_handler (entry_link enlaces row) = is_playable row)
    (reconciled_entries titulos None programs).
Proof.
  cbv zeta. apply Forall_forall. intros [d|program tvg|program] Hin;
    [split; reflexivity | | split; reflexivity].
  apply playable_rows_listed in Hin.
  apply index_anchors_listed in Hin as (e & t & Hp & _ & Hl).
  cbn [entry_link is_playable negb]. unfold enlace_of. rewrite Hl.
  cbn [default].
  destruct (findall_nuevo_enlace _ _ _ Hp) as [rest ->].
  split; [reflexivity | apply startswith_app].
Qed.

(** X12.  In the links that [extract_program_links] returns the marker tells
    the rows apart: the link of a date row and of a no-match row starts
    with the marker, the link of a playable row starts with the scheme of
    the play handler and never with the marker. *)
Theorem marker_tells_playable_rows (self : CoreAddon) (html : string) :
  let enlaces := (index_anchors (Re.findall html)).1 in
  let titulos := (index_anchors (Re.findall html)).2 in
  let rows := reconciled_entries titulos None (tv_programs self) in
  (extract_program_links self html).1 = entry_link enlaces <$> rows
  ∧ Forall (λ row,
        Py.startswith "#" (entry_link enlaces row) = negb (is_playable row)
        ∧ Py.startswith play_handler (entry_link enlaces row) = is_playable row)
      rows.
Proof.
  cbv zeta. rewrite extract_program_links_rows. split; [done|].
  apply reconciled_rows_marker.
Qed.

(** X13.  When several anchors of a page have the same title, the
    dictionary of [extract_program_links] holds the link of the last of
    them, while the list of titles keeps one entry for each anchor. *)
Theorem repeated_title_keeps_last_link
    (earlier later : list (string * string)) (enlace titulo : string) :
  Forall (λ p, Py.strip p.2 ≠ Py.strip titulo) later →
  (index_anchors (earlier ++ (enlace, titulo) :: later)).1 !! Py.strip titulo
  = Some (nuevo_enlace enlace)
  ∧ length (index_anchors (earlier ++ (enlace, titulo) :: later)).2
    = length earlier + S (length later).
Proof.
  intros Hlater. split.
  - rewrite index_anchors_lookup, filter_app, filter_cons. simpl.
    rewrite decide_True by done.
    replace (filter (λ p, Py.strip p.2 = Py.strip titulo) later) with
      (@nil (string * string)).
    + by rewrite last_snoc.
    + symmetry. induction Hlater as [|p l Hp _ IH]; [done|].
      rewrite filter_cons. by rewrite decide_False.
  - rewrite index_anchors_titulos, length_fmap, length_app. done.
Qed.

Lemma repeated_title_keeps_last_link_witness :
  (index_anchors [("acestream://aaaa1111", "DAZN");
                  ("acestream://bbbb2222", " DAZN ");
                  ("acestream://cccc3333", "Gol")]).1 !! Py.strip " DAZN "
  = Some (nuevo_enlace "acestream://bbbb2222")
  ∧ length (index_anchors [("acestream://aaaa1111", "DAZN");
                           ("acestream://bbbb2222", " DAZN ");
                           ("acestream://cccc3333", "Gol")]).2
    = 1 + S 1.
Proof.
  apply (repeated_title_keeps_last_link
           [("acestream://aaaa1111", "DAZN")] [("acestream://cccc3333", "Gol")]
           "acestream://bbbb2222" " DAZN ").
  apply (bool_decide_unpack _). vm_compute. exact I.
Defined.

Lemma length_day_entries (last : option string) (program : Event) :
  length (day_entries last program) ≤ 1.
Proof. unfold day_entries. destruct (decide (Some (day program) ≠ last)); simpl; lia. Qed.

Lemma length_program_entries (titulos : list string) (program : Event) :
  length (program_entries titulos program) ≤ 3.
Proof.
  unfold program_entries.
  destruct (closest_tvg_id titulos program) as [closest|]; [|simpl; lia].
  destruct (Py.truthy closest); [|simpl; lia].
  pose proof (variants_length titulos closest) as Hlen.
  destruct (variants titulos closest) as [|v vs]; [simpl; lia|].
  by rewrite length_fmap.
Qed.

(** X14.  [extract_program_links] returns at most four rows for each event
    of the schedule, a date row and three playable rows; without a
    schedule it returns two empty lists, whatever the page holds. *)
Theorem event_rows_are_bounded (self : CoreAddon) (html : string) :
  length (extract_program_links self html).1 ≤ 4 * length (tv_programs self)
  ∧ length (extract_program_links self html).2 ≤ 4 * length (tv_programs self)
  ∧ (tv_programs self = [] → extract_program_links self html = ([], [])).
Proof.
  rewrite extract_program_links_rows. simpl. rewrite !length_fmap.
  assert (Hlen : ∀ titulos programs last,
    length (reconciled_entries titulos last programs) ≤ 4 * length programs).
  { intros titulos programs. induction programs as [|p l IH]; intros last; simpl;
      [lia|].
    rewrite !length_app. specialize (IH (Some (day p))).
    pose proof (length_day_entries last p).
    pose proof (length_program_entries titulos p). lia. }
  split; [apply Hlen | split; [apply Hlen|]].
  by intros ->.
Qed.

Lemma event_rows_are_bounded_witness :
  extract_program_links (sample_addon []) sample_html = ([], []).
Proof.
  apply (event_rows_are_bounded (sample_addon []) sample_html). reflexivity.
Defined.

(** ** The playlist *)

Section SplitFacts.
Local Arguments String.append !s1 s2 / : simpl nomatch.
Local Arguments Py.isspace : simpl never.

(** A text without white space is one word. *)
Lemma split_ws_word (cur d : string) :
  whitespace_free d = true →
  PyStr.split_ws_from cur d = if Py.truthy (cur +:+ d) then [cur +:+ d] else [].
Proof.
  revert cur. induction d as [|c d IH]; intros cur Hd; simpl in *.
  - by rewrite str_app_nil_r.
  - apply andb_true_iff in Hd as [Hc Hd]. apply negb_true_iff in Hc.
    rewrite Hc, IH by done. by rewrite str_app_assoc.
Qed.

(** A word after a space is the last word of the split. *)
Lemma split_ws_suffix (cur s d : string) :
  whitespace_free d = true → Py.truthy d = true →
  PyStr.split_ws_from cur (s +:+ " " +:+ d) = PyStr.split_ws_from cur s ++ [d].
Proof.
  intros Hd Ht. revert cur. induction s as [|c s IH]; intros cur.
  - change (EmptyString +:+ " " +:+ d) with (String " " d).
    cbn [PyStr.split_ws_from]. change (Py.isspace " ") with true. cbv iota.
    rewrite (split_ws_word EmptyString d Hd).
    change (EmptyString +:+ d) with d. rewrite Ht.
    by destruct (Py.truthy cur).
  - change (String c s +:+ " " +:+ d) with (String c (s +:+ " " +:+ d)).
    cbn [PyStr.split_ws_from].
    destruct (Py.isspace c); [destruct (Py.truthy cur)|]; by rewrite IH.
Qed.

Lemma but_last_snoc {A : Type} (l : list A) (x : A) : PyStr.but_last (l ++ [x]) = l.
Proof.
  unfold PyStr.but_last. rewrite length_app. simpl.
  replace (length l + 1 - 1) with (length l) by lia. apply take_app_length.
Qed.

End SplitFacts.

Lemma m3u_text_header (self : CoreAddon) (links titles : list string) :
  ∃ body, m3u_text self links titles = m3u_header +:+ body.
Proof.
  unfold m3u_text. generalize (zip titles links). intros pairs.
  assert (Hgen : ∀ start, ∃ body,
    foldl (λ text tl, text +:+ m3u_entry self tl.1 tl.2) start pairs
    = start +:+ body).
  { induction pairs as [|p l IH]; intros start; simpl.
    - exists EmptyString. by rewrite str_app_nil_r.
    - destruct (IH (start +:+ m3u_entry self p.1 p.2)) as [body ->].
      eexists. by rewrite str_app_assoc. }
  apply Hgen.
Qed.

(** X15.  The word that [extract_channel_links] adds to the title of a
    channel, the last characters of the stream identifier, is the word
    that [export_m3u] leaves out when it looks the channel up in the
    catalogue: where these characters hold no white space, the name looked
    up is the words of the visible title, joined by single spaces, in
    lower case. *)
Theorem export_drops_stream_suffix (enlace titulo : string) :
  Py.truthy (ultimos_digitos enlace) = true →
  whitespace_free (ultimos_digitos enlace) = true →
  channel_name (Py.strip titulo +:+ " " +:+ ultimos_digitos enlace)
  = PyStr.lower
      (Py.strip (PyStr.join " " (PyStr.split_ws (Py.strip titulo)))).
Proof.
  intros Ht Hd. unfold channel_name, PyStr.split_ws.
  by rewrite split_ws_suffix, but_last_snoc.
Qed.

Lemma export_drops_stream_suffix_witness :
  channel_name (Py.strip " DAZN   F1 " +:+ " "
                  +:+ ultimos_digitos "acestream://aaaa1111")
  = PyStr.lower
      (Py.strip (PyStr.join " " (PyStr.split_ws (Py.strip " DAZN   F1 ")))).
Proof.
  apply (export_drops_stream_suffix "acestream://aaaa1111" " DAZN   F1 ");
    reflexivity.
Defined.

(** X16.  A run of [export_m3u] gives one notification and touches no file
    but the playlist.  Without a path, or when the playlist cannot be
    opened, it leaves every file as it was; otherwise the playlist is
    written anew and starts with the header line. *)
Theorem export_m3u_touches_one_file
    (self : CoreAddon) (strerror : string → string)
    (links titles : list string) (m3u_path : option string) (w : World) :
  let w' := (export_m3u self strerror links titles m3u_path w).2 in
  (∃ heading message, trace w' = trace w ++ [Notification heading message])
  ∧ read_denied (disk w') = read_denied (disk w)
  ∧ write_denied (disk w') = write_denied (disk w)
  ∧ (∀ path, m3u_path ≠ Some path →
       files (disk w') !! path = files (disk w) !! path)
  ∧ (Py.truthy_opt m3u_path = false
     ∨ default EmptyString m3u_path ∈ write_denied (disk w) →
     disk w' = disk w)
  ∧ (∀ path, m3u_path = Some path → Py.truthy path = true →
       path ∉ write_denied (disk w) →
       files (disk w') !! path = Some (m3u_text self links titles)
       ∧ ∃ body, m3u_text self links titles = m3u_header +:+ body).
Proof.
  cbv zeta. unfold export_m3u.
  destruct (Py.truthy_opt m3u_path) eqn:Hp; cbn [negb].
  - destruct m3u_path as [p|]; [|done].
    change (default EmptyString (Some p)) with p.
    destruct (decide (p ∈ write_denied (disk w))) as [Hd|Hd];
      unfold perform; cbn [snd trace disk].
    + split; [eauto|]. do 3 (split; [done|]). split; [done|].
      intros path [= <-] _ Hnd. done.
    + split; [eauto|]. cbn [read_denied write_denied files].
      do 2 (split; [done|]). split.
      { intros path Hne. apply lookup_insert_ne. congruence. }
      split; [by intros [?|?]|].
      intros path [= <-] _ _. rewrite lookup_insert_eq.
      split; [done | apply m3u_text_header].
  - unfold perform. cbn [snd trace disk]. split; [eauto|].
    do 4 (split; [done|]).
    intros path -> Ht. simpl in Hp. congruence.
Qed.

Lemma export_m3u_touches_one_file_witness :
  files (disk (export_m3u (sample_addon_with sample_catalogue) (λ _, "denied")
                 ["l1"] ["DAZN F1 1111"] (Some "/tmp/list.m3u") fresh_world).2)
    !! "/addon/cache.json"
  = files (disk fresh_world) !! "/addon/cache.json".
Proof.
  apply (proj1 (proj2 (proj2 (proj2
           (export_m3u_touches_one_file (sample_addon_with sample_catalogue)
              (λ _, "denied") ["l1"] ["DAZN F1 1111"] (Some "/tmp/list.m3u")
              fresh_world))))).
  discriminate.
Defined.

(** ** The listings, the update and the export of the wrapper *)

Lemma get_items_cache_data (s : Snapshot) :
  KodiAddonWrapper.get_items "enlaces_eventos" (cache_data s) = enlaces_eventos s
  ∧ KodiAddonWrapper.get_items "titulos_eventos" (cache_data s) = titulos_eventos s
  ∧ KodiAddonWrapper.get_items "enlaces_canal" (cache_data s) = enlaces_canal s
  ∧ KodiAddonWrapper.get_items "titulos_canal" (cache_data s) = titulos_canal s.
Proof. done. Qed.

Lemma fmap_zip_fmap {A B C D : Type} (h : B * C → D) (f : A → B) (g : A → C)
    (l : list A) :
  h <$> zip (f <$> l) (g <$> l) = (λ x, h (f x, g x)) <$> l.
Proof. induction l as [|x l IH]; [done|]. cbn. f_equal. exact IH. Qed.

Lemma truthy_fmap {A B : Type} (f : A → B) (l : list A) :
  KodiAddonWrapper.truthy (f <$> l) = KodiAddonWrapper.truthy l.
Proof. by destruct l. Qed.

(** Every run of the update of the core returns the empty dictionary and
    leaves the files, or returns a snapshot and has saved it. *)
Lemma update_list_result (out : Outside) (self : CoreAddon)
    (dialog_interface : bool) (w : World) :
  let run := update_list out self dialog_interface w in
  (run.1 = [] ∧ disk run.2 = disk w)
  ∨ ∃ page stamp,
      run.1 = cache_data (snapshot_of self page stamp)
      ∧ disk run.2 = save_cache self run.1 (disk w).
Proof.
  cbv zeta.
  destruct (update_list_outcome out self dialog_interface w)
    as (new & _ & _ & _ & [(Hd & Hdisk & _)|(pre & page & stamp & _ & _ & _ & Hd & Hdisk)]);
    cbv zeta in *; [by left | right; eauto].
Qed.

(** X17.  [show_directos] on the cache that [update_list] saved from a page:
    one item for each row of the reconciled sequence, in order, with the
    link and the title of the row, and marked playable exactly on the
    playable rows; date rows and no-match rows are listed without the
    mark.  When the sequence is empty it shows a notification and no
    item. *)
Theorem show_directos_marks_playable_rows
    (self : CoreAddon) (html stamp : string) (fs : FileSystem) :
  let enlaces := (index_anchors (Re.findall html)).1 in
  let titulos := (index_anchors (Re.findall html)).2 in
  let rows := reconciled_entries titulos None (tv_programs self) in
  let saved := save_cache self (cache_data (snapshot_of self html stamp)) fs in
  cache_file self ∉ write_denied fs →
  cache_file self ∉ read_denied fs →
  (rows ≠ [] →
   KodiAddonWrapper.show_directos self saved
   = (directory_item enlaces <$> rows) ++ [KodiAddonWrapper.EndOfDirectory])
  ∧ (rows = [] →
     KodiAddonWrapper.show_directos self saved
     = [KodiAddonWrapper.DialogNotification "Info"
          "No direct links available. Please update the list."]).
Proof.
  cbv zeta. intros Hw Hr. unfold KodiAddonWrapper.show_directos.
  rewrite load_after_save by (done || apply cache_data_keys).
  change (KodiAddonWrapper.truthy (cache_data (snapshot_of self html stamp)))
    with true.
  cbn [negb].
  destruct (get_items_cache_data (snapshot_of self html stamp)) as (-> & -> & _).
  cbn [enlaces_eventos titulos_eventos snapshot_of].
  rewrite extract_program_links_rows. cbn [fst snd].
  rewrite !truthy_fmap.
  pose proof (reconciled_rows_marker html (tv_programs self)) as Hmark.
  cbv zeta in Hmark.
  destruct (reconciled_entries (index_anchors (Re.findall html)).2 None
              (tv_programs self)) as [|row rows] eqn:Hrows.
  - split; [done|]. done.
  - split; [|done]. intros _. cbn [KodiAddonWrapper.truthy negb orb].
    rewrite (fmap_zip_fmap _ entry_title). f_equal.
    apply Forall_fmap_ext. eapply Forall_impl; [exact Hmark|].
    intros r [Hm _]. cbn [fst snd]. unfold directory_item.
    by rewrite Hm, negb_involutive.
Qed.

Lemma show_directos_marks_playable_rows_witness :
  KodiAddonWrapper.show_directos (sample_addon grouped_schedule)
    (save_cache (sample_addon grouped_schedule)
       (cache_data (snapshot_of (sample_addon grouped_schedule) sample_html
                      "2024-05-06 20:00:00"))
       empty_disk)
  = (directory_item (index_anchors (Re.findall sample_html)).1
       <$> reconciled_entries (index_anchors (Re.findall sample_html)).2 None
             (tv_programs (sample_addon grouped_schedule)))
    ++ [KodiAddonWrapper.EndOfDirectory].
Proof.
  apply (show_directos_marks_playable_rows (sample_addon grouped_schedule)
           sample_html "2024-05-06 20:00:00" empty_disk).
  - apply not_elem_of_empty.
  - apply not_elem_of_empty.
  - vm_compute. discriminate.
Defined.

(** X18.  [show_canales] on the cache that [update_list] saved from a page:
    one playable item for each anchor of the page, in order, whose link
    starts with the scheme of the play handler.  When the page has no
    anchor it shows a notification and no item. *)
Theorem show_canales_lists_every_anchor
    (self : CoreAddon) (html stamp : string) (fs : FileSystem) :
  let saved := save_cache self (cache_data (snapshot_of self html stamp)) fs in
  cache_file self ∉ write_denied fs →
  cache_file self ∉ read_denied fs →
  (Re.findall html ≠ [] →
   KodiAddonWrapper.show_canales self saved
   = (channel_item <$> Re.findall html) ++ [KodiAddonWrapper.EndOfDirectory])
  ∧ (Re.findall html = [] →
     KodiAddonWrapper.show_canales self saved
     = [KodiAddonWrapper.DialogNotification "Info"
          "No channels available. Please update the list."])
  ∧ Forall (λ p, Py.startswith play_handler (nuevo_enlace p.1) = true)
      (Re.findall html).
Proof.
  cbv zeta. intros Hw Hr. unfold KodiAddonWrapper.show_canales.
  rewrite load_after_save by (done || apply cache_data_keys).
  change (KodiAddonWrapper.truthy (cache_data (snapshot_of self html stamp)))
    with true.
  cbn [negb].
  destruct (get_items_cache_data (snapshot_of self html stamp))
    as (_ & _ & -> & ->).
  cbn [enlaces_canal titulos_canal snapshot_of].
  rewrite extract_channel_links_rows. cbn [fst snd].
  rewrite !truthy_fmap.
  split; [|split].
  - destruct (Re.findall html) as [|p l]; [done|]. intros _.
    cbn [KodiAddonWrapper.truthy negb orb].
    by rewrite (fmap_zip_fmap _ (λ p, Py.strip p.2 +:+ " " +:+ ultimos_digitos p.1)
                  (λ p, nuevo_enlace p.1)).
  - by intros ->.
  - apply Forall_forall. intros [e t] Hin. cbn [fst].
    destruct (findall_nuevo_enlace _ _ _ Hin) as [rest ->].
    apply startswith_app.
Qed.

Lemma show_canales_lists_every_anchor_witness :
  KodiAddonWrapper.show_canales (sample_addon grouped_schedule)
    (save_cache (sample_addon grouped_schedule)
       (cache_data (snapshot_of (sample_addon grouped_schedule) sample_html
                      "2024-05-06 20:00:00"))
       empty_disk)
  = (channel_item <$> Re.findall sample_html) ++ [KodiAddonWrapper.EndOfDirectory].
Proof.
  apply (show_canales_lists_every_anchor (sample_addon grouped_schedule)
           sample_html "2024-05-06 20:00:00" empty_disk).
  - apply not_elem_of_empty.
  - apply not_elem_of_empty.
  - vm_compute. discriminate.
Defined.

Lemma wrapper_update_list_forced (out : Outside) (self : CoreAddon) (w : World) :
  let run := update_list out self true w in
  (KodiAddonWrapper.update_list out self true w).2
  = {| trace := trace run.2
                ++ [if KodiAddonWrapper.truthy run.1
                    then Notification "Success" "List updated successfully."
                    else Notification "Error" "Failed to update the list."];
       disk := disk run.2 |}.
Proof.
  cbv zeta. unfold KodiAddonWrapper.update_list. rewrite andb_false_r.
  destruct (update_list out self true w) as [data w'].
  by destruct data.
Qed.

(** X19.  The update of the wrapper, when forced, reports how the update of
    the core ended: its last action is the notification of success when a
    snapshot came back and was handed to [save_cache], and the
    notification of failure, with the files left as they were, when the
    empty dictionary came back. *)
Theorem forced_update_reports_outcome
    (out : Outside) (self : CoreAddon) (w : World) :
  let w1 := (KodiAddonWrapper.update_list out self true w).2 in
  (last (trace w1) = Some (Notification "Success" "List updated successfully.")
   ∧ ∃ page stamp,
       disk w1 = save_cache self (cache_data (snapshot_of self page stamp)) (disk w))
  ∨ (last (trace w1) = Some (Notification "Error" "Failed to update the list.")
     ∧ disk w1 = disk w).
Proof.
  cbv zeta. rewrite wrapper_update_list_forced. cbn [trace disk].
  rewrite last_snoc.
  destruct (update_list_result out self true w)
    as [[Hd Hdisk]|(page & stamp & Hd & Hdisk)]; cbv zeta in *.
  - right. by rewrite Hd, Hdisk.
  - left. rewrite Hdisk, Hd. split; [done | eauto].
Qed.

(** X20.  After a forced update that ended with the notification of
    success, the automatic update that precedes every listing does
    nothing: no request, no notification, no change of a file, when the
    cache file can be opened. *)
Theorem automatic_update_keeps_fresh_cache
    (out : Outside) (self : CoreAddon) (w : World) :
  let w1 := (KodiAddonWrapper.update_list out self true w).2 in
  cache_file self ∉ write_denied (disk w) →
  cache_file self ∉ read_denied (disk w) →
  last (trace w1) = Some (Notification "Success" "List updated successfully.") →
  KodiAddonWrapper.update_list out self false w1 = ((), w1).
Proof.
  cbv zeta. intros Hw Hr. rewrite wrapper_update_list_forced.
  cbn [trace]. rewrite last_snoc.
  destruct (update_list_result out self true w)
    as [[Hd Hdisk]|(page & stamp & Hd & Hdisk)]; cbv zeta in *.
  - rewrite Hd. done.
  - intros _. unfold KodiAddonWrapper.update_list. cbn [disk].
    rewrite Hdisk, load_after_save; [|rewrite Hd; apply cache_data_keys|done|done].
    by rewrite Hd.
Qed.

Lemma automatic_update_keeps_fresh_cache_witness :
  KodiAddonWrapper.update_list outside_proxy_up (sample_addon grouped_schedule)
    false
    (KodiAddonWrapper.update_list outside_proxy_up
       (sample_addon grouped_schedule) true fresh_world).2
  = ((), (KodiAddonWrapper.update_list outside_proxy_up
            (sample_addon grouped_schedule) true fresh_world).2).
Proof.
  apply (automatic_update_keeps_fresh_cache outside_proxy_up
           (sample_addon grouped_schedule) fresh_world).
  - apply not_elem_of_empty.
  - apply not_elem_of_empty.
  - vm_compute. reflexivity.
Defined.

(** X21.  The export of the wrapper on the cache that [update_list] saved
    from a page writes the playlist of the channels of that page: the
    header and one entry for each anchor, when the playlist can be
    opened. *)
Theorem export_after_update_writes_the_channels
    (self : CoreAddon) (strerror : string → string)
    (html stamp path : string) (t : list Action) (fs : FileSystem) :
  let w := {| trace := t;
              disk := save_cache self (cache_data (snapshot_of self html stamp)) fs |} in
  cache_file self ∉ write_denied fs →
  cache_file self ∉ read_denied fs →
  Py.truthy path = true →
  path ∉ write_denied fs →
  files (disk (KodiAddonWrapper.export_m3u self strerror (Some path) w).2) !! path
  = Some (m3u_text self ((λ p, nuevo_enlace p.1) <$> Re.findall html)
            ((λ p, Py.strip p.2 +:+ " " +:+ ultimos_digitos p.1)
               <$> Re.findall html)).
Proof.
  cbv zeta. intros Hw Hr Hp Hpw. unfold KodiAddonWrapper.export_m3u.
  cbn [disk]. rewrite load_after_save by (done || apply cache_data_keys).
  change (KodiAddonWrapper.truthy (cache_data (snapshot_of self html stamp)))
    with true.
  cbv iota.
  destruct (get_items_cache_data (snapshot_of self html stamp))
    as (_ & _ & -> & ->).
  cbn [enlaces_canal titulos_canal snapshot_of].
  rewrite extract_channel_links_rows. cbn [fst snd].
  unfold export_m3u. cbn [Py.truthy_opt]. rewrite Hp. cbn [negb].
  change (default EmptyString (Some path)) with path. cbn [disk].
  assert (Hsame : write_denied
            (save_cache self (cache_data (snapshot_of self html stamp)) fs)
          = write_denied fs).
  { unfold save_cache. by destruct (decide (cache_file self ∈ write_denied fs)). }
  rewrite Hsame, decide_False by done.
  unfold perform. cbn [snd disk files]. by rewrite lookup_insert_eq.
Qed.

Lemma export_after_update_writes_the_channels_witness :
  files (disk (KodiAddonWrapper.export_m3u (sample_addon_with sample_catalogue)
                 (λ _, "denied") (Some "/tmp/list.m3u")
                 {| trace := [];
                    disk := save_cache (sample_addon_with sample_catalogue)
                              (cache_data
                                 (snapshot_of (sample_addon_with sample_catalogue)
                                    sample_html "2024-05-06 20:00:00"))
                              empty_disk |}).2) !! "/tmp/list.m3u"
  = Some (m3u_text (sample_addon_with sample_catalogue)
            ((λ p, nuevo_enlace p.1) <$> Re.findall sample_html)
            ((λ p, Py.strip p.2 +:+ " " +:+ ultimos_digitos p.1)
               <$> Re.findall sample_html)).
Proof.
  apply (export_after_update_writes_the_channels
           (sample_addon_with sample_catalogue) (λ _, "denied") sample_html
           "2024-05-06 20:00:00" "/tmp/list.m3u" [] empty_disk).
  - apply not_elem_of_empty.
  - apply not_elem_of_empty.
  - reflexivity.
  - apply not_elem_of_empty.
Defined.

(** ** The order of the fetches *)

Section RouteFacts.
Variable out : Outside.
Variable self : CoreAddon.
Variable dialog_interface : bool.

Lemma page_routes_app (t1 t2 : list Action) :
  page_routes (t1 ++ t2) = page_routes t1 ++ page_routes t2.
Proof. apply omap_app. Qed.

Lemma page_routes_quiet (t : list Action) :
  requests t = [] → page_routes t = [].
Proof.
  induction t as [|a t IH]; [done|].
  destruct a; simpl; try done; intros H; apply IH; exact H.
Qed.

(** The loop over the proxies takes them in the order of the list, each
    once, up to the first that answers with a page. *)
Lemma try_proxies_routes (asian_proxies : list string) (w : World) :
  ∃ new tried,
    trace (try_proxies out dialog_interface asian_proxies w).2 = trace w ++ new
    ∧ tried `prefix_of` asian_proxies
    ∧ page_routes new = route_of <$> tried
    ∧ match (try_proxies out dialog_interface asian_proxies w).1 with
      | None => tried = asian_proxies
      | Some content => Py.truthy_opt content = true
      end.
Proof.
  revert w. induction asian_proxies as [|p rest IH]; intros w.
  - destruct (try_proxies_nil out dialog_interface w) as (n & -> & Hn).
    exists n, []. simpl. rewrite (page_routes_quiet n Hn). done.
  - destruct (try_proxies_cons out dialog_interface p rest w) as (n & Hn & Hrun).
    cbv zeta in Hrun. rewrite Hrun. clear Hrun.
    set (via := if Py.truthy p then Some p else None).
    set (answer := requests_get out (trace w ++ n) url_selected via).
    destruct (Py.truthy_opt answer) eqn:Hans.
    + exists (n ++ [RequestsGet url_selected via answer]), [p]. simpl.
      rewrite (assoc_L (++)), page_routes_app, (page_routes_quiet n Hn). simpl.
      split; [done|]. split; [apply prefix_cons, prefix_nil|]. done.
    + match goal with
      | |- context [try_proxies _ _ rest ?w2] =>
          destruct (IH w2) as (new & tried & Ht & Hp & Hr & Hres)
      end.
      exists (n ++ RequestsGet url_selected via answer :: new), (p :: tried).
      rewrite Ht. simpl.
      split; [by rewrite <- !(assoc_L (++))|]. split; [by apply prefix_cons|].
      rewrite page_routes_app, (page_routes_quiet n Hn). simpl.
      split; [by rewrite Hr|].
      destruct (try_proxies out dialog_interface rest _).1; [done|].
      by rewrite Hres.
Qed.

Lemma update_list_routes (w : World) :
  ∃ new tried,
    let proxies := default [] (urlopen_json out (trace w) PROXIES_URL) in
    let run := update_list out self dialog_interface w in
    trace run.2 = trace w ++ new
    ∧ tried `prefix_of` filter_asian_proxies proxies
    ∧ match proxies with
      | [] => page_routes new = []
      | _ :: _ => page_routes new = None :: (route_of <$> tried)
      end
    ∧ (run.1 = [] → tried = [] ∨ tried = filter_asian_proxies proxies).
Proof.
  cbv zeta.
  destruct (update_list out self dialog_interface w) as [d w'] eqn:Hrun.
  revert Hrun.
  unfold update_list, mbind, IO_bind, mret, IO_ret. unfold fetch_proxies.
  set (answer := urlopen_json out (trace w) PROXIES_URL).
  set (w0 := {| trace := trace w ++ [UrlOpen PROXIES_URL answer]; disk := disk w |}).
  destruct (default [] answer) as [|px proxies] eqn:Hpx.
  - destruct (notification_run dialog_interface "Error" "No proxies found." w0)
      as (n & -> & Hn).
    intros [= <- <-]. exists ([UrlOpen PROXIES_URL answer] ++ n), [].
    rewrite page_routes_app, (page_routes_quiet n Hn).
    cbn [trace disk fst snd].
    split; [by rewrite <- (assoc_L (++))|]. split; [apply prefix_nil|].
    split; [done | by left].
  - destruct (notification_run dialog_interface "Connection"
                "Attempting to connect without proxy" w0) as (n & -> & Hn).
    unfold get_web_content. subst w0. cbn [trace disk Py.truthy_opt].
    set (content := requests_get out ((trace w ++ [UrlOpen PROXIES_URL answer]) ++ n)
                      url_selected None).
    set (w1 := {| trace := _; disk := disk w |}).
    destruct (Py.truthy_opt content) eqn:Hc; cbn [negb]; cbv iota.
    + rewrite fallback_then_store_page, store_run by done.
      intros [= <- <-].
      exists ([UrlOpen PROXIES_URL answer] ++ n
                ++ [RequestsGet url_selected None content]
                ++ [Strftime (strftime out (trace w1))]), [].
      rewrite !page_routes_app, (page_routes_quiet n Hn).
      subst w1. cbn [trace disk fst snd].
      split; [by rewrite <- !(assoc_L (++))|].
      split; [apply prefix_nil|]. split; [done | by left].
    + destruct (notification_run dialog_interface "Proxy"
                  "Attempting to connect using proxies" w1) as (n2 & -> & Hn2).
      match goal with
      | |- context [try_proxies _ _ ?l ?w2] =>
          destruct (try_proxies_routes l w2) as (new & tried & Ht & Hp & Hr & Hres);
          destruct (try_proxies out dialog_interface l w2) as [[page|] w3]
      end; simpl in Ht, Hres.
      * rewrite fallback_then_store_page, store_run by done.
        intros [= <- <-].
        exists ([UrlOpen PROXIES_URL answer] ++ n
                  ++ [RequestsGet url_selected None content] ++ n2 ++ new
                  ++ [Strftime (strftime out (trace w3))]), tried.
        rewrite !page_routes_app, (page_routes_quiet n Hn),
          (page_routes_quiet n2 Hn2).
        cbn [trace disk fst snd]. rewrite Ht.
        split; [subst w1; cbn [trace]; by rewrite <- !(assoc_L (++))|].
        split; [done|]. split; [by simpl; rewrite Hr, app_nil_r|].
        done.
      * intros [= <- <-].
        exists ([UrlOpen PROXIES_URL answer] ++ n
                  ++ [RequestsGet url_selected None content] ++ n2 ++ new), tried.
        rewrite !page_routes_app, (page_routes_quiet n Hn),
          (page_routes_quiet n2 Hn2).
        cbn [trace disk fst snd]. rewrite Ht.
        split; [subst w1; cbn [trace]; by rewrite <- !(assoc_L (++))|].
        split; [done|]. split; [by simpl; rewrite Hr|].
        intros _. by right.
Qed.

End RouteFacts.

(** X22.  [update_list] takes the routes in order.  When the proxy list
    is not empty the first page fetch of a run is direct and the further
    ones go through the Asian proxies in the order of the list, each
    once, without a gap: the proxies asked are a prefix of the filtered
    list.  A run that returns the empty dictionary has asked none of them
    or all of them. *)
Theorem proxies_are_tried_in_order
    (out : Outside) (self : CoreAddon) (dialog_interface : bool) (w : World) :
  ∃ new tried,
    let proxies := default [] (urlopen_json out (trace w) PROXIES_URL) in
    let run := update_list out self dialog_interface w in
    trace run.2 = trace w ++ new
    ∧ tried `prefix_of` filter_asian_proxies proxies
    ∧ match proxies with
      | [] => page_routes new = []
      | _ :: _ => page_routes new = None :: (route_of <$> tried)
      end
    ∧ (run.1 = [] → tried = [] ∨ tried = filter_asian_proxies proxies).
Proof. apply update_list_routes. Qed.

Lemma proxies_are_tried_in_order_witness :
  ∃ tried,
    tried `prefix_of` filter_asian_proxies [european_proxy; asian_proxy]
    ∧ (tried = [] ∨ tried = filter_asian_proxies [european_proxy; asian_proxy]).
Proof.
  pose proof (proxies_are_tried_in_order outside_primary_down
                (sample_addon grouped_schedule) true fresh_world) as Hrun.
  cbv zeta in Hrun. destruct Hrun as (new & tried & _ & Hp & _ & Hall).
  exists tried. split; [exact Hp|]. apply Hall. vm_compute. reflexivity.
Defined.

(** ** The suffix of a channel title *)

Lemma split_from_absent (sep cur s : string) :
  Py.occurs sep s = false → Py.split_from sep 0 cur s = [cur +:+ s].
Proof.
  revert cur. induction s as [|c s IH]; intros cur.
  - intros _. simpl. by rewrite str_app_nil_r.
  - cbn [Py.occurs Py.split_from]. intros [Hs Ho]%orb_false_iff.
    rewrite Hs, IH, str_app_assoc by done. done.
Qed.

(** X23.  The word that [extract_channel_links] adds to a title is the end
    of the stream identifier: for an identifier in which no [://] occurs,
    its last four characters, or all of it when it has fewer. *)
Theorem suffix_is_end_of_identifier (ident : string) :
  Py.occurs "://" ident = false →
  ultimos_digitos ("acestream://" +:+ ident) = Py.last_chars 4 ident
  ∧ String.length (ultimos_digitos ("acestream://" +:+ ident))
    = 4 `min` String.length ident.
Proof.
  intros Hocc. unfold ultimos_digitos.
  change (Py.split "://" ("acestream://" +:+ ident))
    with ("acestream" :: Py.split "://" ident).
  unfold Py.split. rewrite split_from_absent by done.
  cbn [nth]. change (EmptyString +:+ ident) with ident.
  split; [done|]. unfold Py.last_chars. rewrite length_drop. lia.
Qed.

Lemma suffix_is_end_of_identifier_witness :
  ultimos_digitos ("acestream://" +:+ "aaaa1111") = Py.last_chars 4 "aaaa1111"
  ∧ String.length (ultimos_digitos ("acestream://" +:+ "aaaa1111"))
    = 4 `min` String.length "aaaa1111".
Proof. apply (suffix_is_end_of_identifier "aaaa1111"). reflexivity. Defined.
